(** * Riyadh PM2.5 forecasting service: a shallow embedding of [app.py]

    The model comes first: the PM2.5 -> AQI mapping, the start-up of the
    module (time-column detection and the hourly normalisation pipeline), the
    feature builder and the [/api/predict] handler.  The properties follow.

    Modelling conventions.
    - A pandas float is an exact rational ([Q]); [NaN] / [None] / [NaT] is the
      [None] of an [option].  Infinities and rounding error of IEEE doubles are
      outside the model.  The properties fix the value of a float only where
      the program copies it or where its arithmetic is exact in doubles as
      well; elsewhere they state presence, order and bounds of integer
      scores.  A numeric column is a column of floats: the hourly mean makes
      one of an integer column, and integers that a double does not hold
      are outside the model as well.
    - A timestamp is a number of nanoseconds since the Unix epoch ([Z]), the
      representation of [datetime64[ns]].
    - A raised Python exception is a value [Raise e]; functions that can
      raise return a [result].
    - What the program takes from outside is a parameter: the value of
      [TARGET], the datetime parser of pandas, the loaded model and the
      square root of floats. *)

From Stdlib Require Import ZArith QArith Qround String Ascii Bool List Lia Lqa.
From Stdlib Require Import DecimalString.
From Stdlib Require Import Sorted Permutation.
Import ListNotations.

Open Scope Z_scope.

(** ** Exceptions *)

(** The source defines no exception class of its own.  It fails either
    through one of its [assert] statements, or inside a pandas call; of the
    latter only the class of the exception is recorded. *)
Inductive py_error :=
| AssertionError (msg : string)
| LibraryError (class : string).

Definition exc_class (e : py_error) : string :=
  match e with
  | AssertionError _ => "AssertionError"
  | LibraryError c => c
  end.

Inductive result (A : Type) :=
| Ok (a : A)
| Raise (e : py_error).
Arguments Ok {A} a.
Arguments Raise {A} e.

Definition bind {A B} (r : result A) (k : A -> result B) : result B :=
  match r with
  | Ok a => k a
  | Raise e => Raise e
  end.

Notation "x <- r ;; k" := (bind r (fun x => k))
  (at level 61, r at next level, right associativity).

(** [assert cond, msg] *)
Definition py_assert (cond : bool) (msg : string) : result unit :=
  if cond then Ok tt else Raise (AssertionError msg).

(** ** AQI: PM2.5 -> AQI (lines 80-97) *)

(** A row of the table: [(Cl, Ch, Il, Ih, txt, cls)]. *)
Record breakpoint := Break {
  Cl : Q; Ch : Q; Il : Z; Ih : Z; txt : string; cls : string }.

Definition _PM25_BREAKS : list breakpoint :=
  [ Break 0.0   12.0    0  50 "جيد" "aqi-good";
    Break 12.1  35.4   51 100 "متوسط" "aqi-moderate";
    Break 35.5  55.4  101 150 "غير صحي للفئات الحساسة" "aqi-usg";
    Break 55.5  150.4 151 200 "غير صحي" "aqi-unhealthy";
    Break 150.5 250.4 201 300 "غير صحي جدًا" "aqi-very";
    Break 250.5 500.4 301 500 "خطِر" "aqi-hazardous" ].

(** Python 3 [round(x)] with one argument: nearest integer, ties to even. *)
Definition py_round (x : Q) : Z :=
  let f := Qfloor x in
  match ((x - inject_Z f) ?= (1 # 2))%Q with
  | Lt => f
  | Gt => f + 1
  | Eq => if Z.even f then f else f + 1
  end.

(** [Cl <= ug <= Ch] *)
Definition in_bucket (ug : Q) (b : breakpoint) : bool :=
  Qle_bool (Cl b) ug && Qle_bool ug (Ch b).

(** line 95, on the exact values.  In doubles the result can differ in the
    last place, which moves the rounded score of line 96 by one at some
    concentrations; it stays between the two indices of the row. *)
Definition interpolate_aqi (ug : Q) (b : breakpoint) : Q :=
  (inject_Z (Ih b - Il b) / (Ch b - Cl b) * (ug - Cl b) + inject_Z (Il b))%Q.

(** The [for] loop of [pm25_to_aqi] over a table, with the fall-through
    [return] as the base case. *)
Fixpoint scan_breaks (ug : Q) (table : list breakpoint) : Z * string * string :=
  match table with
  | [] => (500, "خطِر"%string, "aqi-hazardous"%string)
  | b :: rest =>
      if in_bucket ug b
      then (py_round (interpolate_aqi ug b), txt b, cls b)
      else scan_breaks ug rest
  end.

(** The score is [None] for [np.nan]. *)
Definition pm25_to_aqi (ug : option Q) : option Z * string * string :=
  match ug with
  | None => (None, "غير معروف"%string, "aqi-unknown"%string)
  | Some v =>
      let '(aqi, t, c) := scan_breaks v _PM25_BREAKS in (Some aqi, t, c)
  end.


(** ** Data frames *)

(** A column of a data frame.  [NumCol] is a column of numeric dtype (what
    [select_dtypes(include=[np.number])] selects), [ObjCol] a column of any
    other dtype, its values kept as text. *)
Inductive column :=
| NumCol (vals : list (option Q))
| ObjCol (vals : list (option string)).

Definition col_length (c : column) : nat :=
  match c with
  | NumCol v => length v
  | ObjCol v => length v
  end.

(** The dtype of the column is numeric. *)
Definition is_num (c : column) : bool :=
  match c with NumCol _ => true | ObjCol _ => false end.

(** [pd.isna] and [pd.notna] of a cell *)
Definition isna {A} (o : option A) : bool :=
  match o with None => true | Some _ => false end.

Definition notna {A} (o : option A) : bool := negb (isna o).

(** The columns of a frame, in order, by name. *)
Definition columns_t := list (string * column).

(** The column of that name, if there is one. *)
Fixpoint get_column (name : string) (cols : columns_t) : option column :=
  match cols with
  | [] => None
  | (n, c) :: rest => if String.eqb n name then Some c else get_column name rest
  end.

(** [f[name] = c]: replaces the column in place when the name exists, and
    appends it otherwise. *)
Fixpoint set_column (name : string) (c : column) (cols : columns_t) : columns_t :=
  match cols with
  | [] => [(name, c)]
  | (n, d) :: rest =>
      if String.eqb n name then (name, c) :: rest
      else (n, d) :: set_column name c rest
  end.

(** The table [pd.read_csv] returns: named columns over a range index. *)
Definition csv_frame := columns_t.

(** A frame over a [DatetimeIndex]: [dfh] and the frames derived from it. *)
Record DataFrame := {
  index_name : string;
  index : list Z;
  columns : columns_t }.

(** [len(f)] *)
Definition n_rows (f : DataFrame) : nat := length (index f).

(** ** Start-up: loading and normalising the data (lines 18-52) *)

(** [str.lower] on the ASCII letters.  The only code point outside ASCII that
    Python lowers to an ASCII letter is the Kelvin sign, to [k], a letter of
    none of the four names looked for below. *)
Definition lower_ascii (c : ascii) : ascii :=
  let n := nat_of_ascii c in
  if (65 <=? n)%nat && (n <=? 90)%nat then ascii_of_nat (n + 32) else c.

Fixpoint lower (s : string) : string :=
  match s with
  | EmptyString => EmptyString
  | String c rest => String (lower_ascii c) (lower rest)
  end.

(** [s in l] *)
Definition str_in (s : string) (l : list string) : bool :=
  existsb (String.eqb s) l.

(** [c.lower() in ["timestamp","datetime","date","time"]] *)
Definition is_time_name (c : string) : bool :=
  str_in (lower c) ["timestamp"; "datetime"; "date"; "time"]%string.

(** line 21 *)
Definition time_col_candidates (df : csv_frame) : list string :=
  filter is_time_name (map fst df).

(** One hour, in nanoseconds. *)
Definition HOUR : Z := 3600000000000.

(** [Timestamp.floor("h")] *)
Definition floor_hour (t : Z) : Z := HOUR * (t / HOUR).

(** The rows that [dropna(subset=[TIME_COL])] keeps: timestamp and position. *)
Fixpoint valid_rows (i : nat) (ts : list (option Z)) : list (Z * nat) :=
  match ts with
  | [] => []
  | Some t :: rest => (t, i) :: valid_rows (S i) rest
  | None :: rest => valid_rows (S i) rest
  end.

(** Insertion of a row before the first row that is not earlier. *)
Fixpoint insert_row (x : Z * nat) (l : list (Z * nat)) : list (Z * nat) :=
  match l with
  | [] => [x]
  | y :: rest => if fst x <=? fst y then x :: y :: rest else y :: insert_row x rest
  end.

(** [sort_values(TIME_COL)].  Rows of equal timestamp stay in file order;
    pandas' default sort leaves their order unspecified, and no property
    depends on it. *)
Definition sort_values (rows : list (Z * nat)) : list (Z * nat) :=
  fold_right insert_row [] rows.

(** Positional selection of rows. *)
Definition take {A} (pos : list nat) (v : list (option A)) : list (option A) :=
  map (fun i => nth i v None) pos.

(** [take] on a column. *)
Definition take_col (pos : list nat) (c : column) : column :=
  match c with
  | NumCol v => NumCol (take pos v)
  | ObjCol v => ObjCol (take pos v)
  end.

(** The group keys of [groupby], ascending and without repetition. *)
Fixpoint insert_key (k : Z) (l : list Z) : list Z :=
  match l with
  | [] => [k]
  | y :: rest =>
      if k <? y then k :: y :: rest
      else if k =? y then y :: rest
      else y :: insert_key k rest
  end.

Definition group_keys (times : list Z) : list Z :=
  fold_right insert_key [] times.

(** The values of the rows whose key is [k], in row order. *)
Definition group {A} (k : Z) (times : list Z) (v : list A) : list A :=
  map snd (filter (fun p => fst p =? k) (combine times v)).

(** The values that are not missing, in order. *)
Fixpoint dropna_vals {A} (l : list (option A)) : list A :=
  match l with
  | [] => []
  | Some x :: rest => x :: dropna_vals rest
  | None :: rest => dropna_vals rest
  end.

Definition Qsum (l : list Q) : Q := fold_left Qplus l 0%Q.

(** ["mean"]: the mean of the non-missing values, [NaN] when there is none.
    It is the exact mean; pandas adds doubles, which agrees with it on a
    single value. *)
Definition mean (g : list (option Q)) : option Q :=
  match dropna_vals g with
  | [] => None
  | xs => Some (Qsum xs / inject_Z (Z.of_nat (length xs)))%Q
  end.

(** ["last"]: the last non-missing value, [NaN] when there is none. *)
Definition last_valid {A} (g : list (option A)) : option A :=
  fold_left (fun acc o => match o with Some x => Some x | None => acc end) g None.

(** [agg] on one column: ["mean"] for a numeric column, ["last"] for any
    other (lines 33-34), one value for each key. *)
Definition aggregate (keys times : list Z) (c : column) : column :=
  match c with
  | NumCol v => NumCol (map (fun k => mean (group k times v)) keys)
  | ObjCol v => ObjCol (map (fun k => last_valid (group k times v)) keys)
  end.

(** [Index.min()] and [Index.max()], [None] being [NaT] on an empty index *)
Definition list_min (l : list Z) : option Z :=
  match l with
  | [] => None
  | x :: rest => Some (fold_left Z.min rest x)
  end.

Definition list_max (l : list Z) : option Z :=
  match l with
  | [] => None
  | x :: rest => Some (fold_left Z.max rest x)
  end.

(** [pd.date_range(a, b, freq="h")] *)
Definition date_range (a b : Z) : list Z :=
  map (fun k => a + HOUR * Z.of_nat k) (seq 0 (Z.to_nat ((b - a) / HOUR + 1))).

(** The position of a label in an index. *)
Fixpoint index_of (h : Z) (keys : list Z) : option nat :=
  match keys with
  | [] => None
  | k :: rest => if k =? h then Some O else option_map S (index_of h rest)
  end.

(** [reindex(full_idx)]: for each label of the new index the row that the
    frame has for it, and an empty row when it has none. *)
Definition reindex_vals {A} (keys full_idx : list Z) (v : list (option A))
  : list (option A) :=
  map (fun h => match index_of h keys with
                | Some j => nth j v None
                | None => None
                end) full_idx.

Definition reindex_col (keys full_idx : list Z) (c : column) : column :=
  match c with
  | NumCol v => NumCol (reindex_vals keys full_idx v)
  | ObjCol v => ObjCol (reindex_vals keys full_idx v)
  end.

(** *** Filling the gaps (lines 42-50) *)

(** The first observation of a column, with its timestamp. *)
Fixpoint first_valid (pts : list (Z * option Q)) : option (Z * Q) :=
  match pts with
  | [] => None
  | (t, Some y) :: _ => Some (t, y)
  | (_, None) :: rest => first_valid rest
  end.

(** [interpolate(method="time", limit_direction="both")] on one column: a
    missing cell between two observations lies on the line through them, at
    its own timestamp; a missing cell before the first or after the last
    observation takes that observation; a column with no observation at all
    is left as it is.  [prev] is the last observation already passed. *)
Fixpoint interpolate_from (prev : option (Z * Q)) (pts : list (Z * option Q))
  : list (option Q) :=
  match pts with
  | [] => []
  | (t, Some y) :: rest => Some y :: interpolate_from (Some (t, y)) rest
  | (t, None) :: rest =>
      match prev, first_valid rest with
      | Some (t0, y0), Some (t1, y1) =>
          Some ((y1 - y0) / inject_Z (t1 - t0) * inject_Z (t - t0) + y0)%Q
      | Some (_, y0), None => Some y0
      | None, Some (_, y1) => Some y1
      | None, None => None
      end :: interpolate_from prev rest
  end.

(** The same on a column over the index [idx]. *)
Definition interpolate_time (idx : list Z) (v : list (option Q)) : list (option Q) :=
  interpolate_from None (combine idx v).

(** [fillna(method="ffill")], [prev] being the last value already passed *)
Fixpoint ffill_from {A} (prev : option A) (v : list (option A)) : list (option A) :=
  match v with
  | [] => []
  | Some y :: rest => Some y :: ffill_from (Some y) rest
  | None :: rest => prev :: ffill_from prev rest
  end.

Definition ffill {A} (v : list (option A)) : list (option A) := ffill_from None v.

(** [fillna(method="bfill")] *)
Fixpoint bfill {A} (v : list (option A)) : list (option A) :=
  match v with
  | [] => []
  | x :: rest =>
      let rest' := bfill rest in
      match x with
      | Some y => Some y
      | None => hd None rest'
      end :: rest'
  end.

(** The number of occurrences of a value. *)
Definition count_str (s : string) (l : list string) : nat :=
  length (filter (String.eqb s) l).

(** [Series.mode().iloc[0]]: the most frequent value, the least one of them
    when several are as frequent; [None] when [mode()] is empty. *)
Definition mode_first (v : list (option string)) : option string :=
  let xs := dropna_vals v in
  fold_left (fun best x =>
               match best with
               | None => Some x
               | Some b =>
                   if (count_str b xs <? count_str x xs)%nat
                      || ((count_str b xs =? count_str x xs)%nat && String.ltb x b)
                   then Some x else Some b
               end) xs None.

(** [fillna(x)] *)
Definition fillna {A} (x : A) (v : list (option A)) : list (option A) :=
  map (fun o => match o with Some y => Some y | None => Some x end) v.

(** lines 42-46, on one column of [dfh] *)
Definition fill_numeric (idx : list Z) (c : column) : column :=
  match c with
  | NumCol v => NumCol (bfill (ffill (interpolate_time idx v)))
  | ObjCol v => ObjCol v
  end.

(** lines 47-50, on one column of [dfh] *)
Definition fill_other (c : column) : column :=
  match c with
  | NumCol v => NumCol v
  | ObjCol v =>
      if existsb isna v then
        let mode_val := match mode_first v with
                        | Some m => m
                        | None => "unknown"%string
                        end in
        ObjCol (fillna mode_val v)
      else ObjCol v
  end.

(** The same operation on every column. *)
Definition map_columns (f : column -> column) (cols : columns_t) : columns_t :=
  map (fun p => (fst p, f (snd p))) cols.

(** A cell of the raw time column, as [pd.to_datetime] receives it. *)
Inductive scalar :=
| SNum (q : Q)
| SStr (s : string).

(** The characters that [repr] treats apart. *)
Definition single_quote : ascii := ascii_of_nat 39.
Definition double_quote : ascii := ascii_of_nat 34.
Definition backslash : ascii := ascii_of_nat 92.

(** A hexadecimal digit, in lower case. *)
Definition hex_digit (n : nat) : ascii :=
  nth n ["0"; "1"; "2"; "3"; "4"; "5"; "6"; "7"; "8"; "9";
         "a"; "b"; "c"; "d"; "e"; "f"]%char "0"%char.

(** One character of [repr(s)] inside the quotes [quote]: a backslash
    before a backslash and before the quote, the escapes of tab, line feed
    and carriage return, [\xNN] for the other control characters, and the
    character itself otherwise.  A byte above 127 belongs to a character
    outside ASCII and is kept; Python keeps those that are printable and
    escapes the few that are not. *)
Definition py_repr_char (quote c : ascii) : string :=
  let n := nat_of_ascii c in
  if Ascii.eqb c backslash || Ascii.eqb c quote then
    String backslash (String c EmptyString)
  else if (n =? 9)%nat then String backslash "t"
  else if (n =? 10)%nat then String backslash "n"
  else if (n =? 13)%nat then String backslash "r"
  else if (n <? 32)%nat || (n =? 127)%nat then
    String backslash
      (String "x" (String (hex_digit (n / 16)) (String (hex_digit (n mod 16)) EmptyString)))
  else String c EmptyString.

(** [repr(s)] of a [str]: between single quotes, and between double quotes
    when [s] has a single quote and no double quote. *)
Definition py_repr (s : string) : string :=
  let chars := list_ascii_of_string s in
  let quote := if existsb (Ascii.eqb single_quote) chars
                  && negb (existsb (Ascii.eqb double_quote) chars)
               then double_quote else single_quote in
  String quote
    (String.concat EmptyString (map (py_repr_char quote) chars)
     ++ String quote EmptyString).

(** [repr] of a list of [str], which [str] of a list is. *)
Definition py_repr_list (l : list string) : string :=
  ("[" ++ String.concat ", " (map py_repr l) ++ "]")%string.

Section Startup.

(** The environment variable [TARGET] (line 11). *)
Variable TARGET : string.

(** The parser of [pd.to_datetime(..., errors="coerce")] for one cell:
    [None] is [NaT]. *)
Variable parse_datetime : scalar -> option Z.

Definition to_datetime (c : column) : list (option Z) :=
  match c with
  | NumCol v => map (fun o => match o with
                              | Some q => parse_datetime (SNum q)
                              | None => None
                              end) v
  | ObjCol v => map (fun o => match o with
                              | Some s => parse_datetime (SStr s)
                              | None => None
                              end) v
  end.

(** line 30; the time column is of datetime dtype by then *)
Definition num_cols (TIME_COL : string) (df : csv_frame) : list string :=
  map fst (filter (fun p => is_num (snd p) && negb (String.eqb (fst p) TIME_COL)) df).

(** line 31 *)
Definition other_cols (TIME_COL : string) (df : csv_frame) : list string :=
  filter (fun c => negb (str_in c (num_cols TIME_COL df ++ [TIME_COL]))) (map fst df).

(** lines 33-36: the hourly groups, numeric columns first *)
Definition groupby_agg (TIME_COL : string) (times : list Z) (df : csv_frame)
  : list Z * columns_t :=
  let keys := group_keys times in
  (keys,
   flat_map (fun c => match get_column c df with
                      | Some col => [(c, aggregate keys times col)]
                      | None => []
                      end)
            (num_cols TIME_COL df ++ other_cols TIME_COL df)).

(** lines 26-52: the hourly series [dfh] built around the column [TIME_COL] *)
Definition normalize (TIME_COL : string) (df : csv_frame) : result DataFrame :=
  match get_column TIME_COL df with
  | None => Raise (LibraryError "KeyError")
  | Some tc =>
      let rows := sort_values (valid_rows 0 (to_datetime tc)) in
      let times := map (fun r => floor_hour (fst r)) rows in
      let df' := map_columns (take_col (map snd rows)) df in
      let '(keys, cols) := groupby_agg TIME_COL times df' in
      match list_min keys, list_max keys with
      | Some lo, Some hi =>
          let full_idx := date_range lo hi in
          let cols := map_columns (reindex_col keys full_idx) cols in
          let cols := map_columns (fill_numeric full_idx) cols in
          let cols := map_columns fill_other cols in
          _ <- py_assert (str_in TARGET (map fst cols))
                 ("Target '" ++ TARGET ++ "' not found. Available: "
                  ++ py_repr_list (map fst cols)) ;;
          Ok {| index_name := TIME_COL; index := full_idx; columns := cols |}
      | _, _ => Raise (LibraryError "ValueError")
      end
  end.

(** lines 21-52: the value of [dfh] once the module is loaded.  A failed
    [assert] ends the import of the module, before the Flask application of
    line 116 exists. *)
Definition load_dfh (df : csv_frame) : result DataFrame :=
  let cands := time_col_candidates df in
  _ <- py_assert (match cands with [] => false | _ => true end)
         "No datetime column found. Rename your time column or add it." ;;
  let TIME_COL := hd ""%string cands in
  normalize TIME_COL df.

End Startup.

(** ** Calendar features (lines 55-61) *)

(** One day, in nanoseconds. *)
Definition DAY : Z := 24 * HOUR.

(** [DatetimeIndex.hour] *)
Definition hour_of (t : Z) : Z := (t / HOUR) mod 24.

(** [DatetimeIndex.dayofweek], Monday = 0; the epoch was a Thursday *)
Definition dayofweek_of (t : Z) : Z := (t / DAY + 3) mod 7.

(** [DatetimeIndex.month] in the proleptic Gregorian calendar: the month of
    the day number [t / DAY], counting the days of a 400-year era from
    the first of March. *)
Definition month_of (t : Z) : Z :=
  let z := t / DAY + 719468 in
  let doe := z mod 146097 in
  let yoe := (doe - doe / 1460 + doe / 36524 - doe / 146096) / 365 in
  let doy := doe - (365 * yoe + yoe / 4 - yoe / 100) in
  let mp := (5 * doy + 2) / 153 in
  if mp <? 10 then mp + 3 else mp - 9.

(** A column of integers. *)
Definition int_col (l : list Z) : column :=
  NumCol (map (fun z => Some (inject_Z z)) l).

(** [is_weekend] is computed from the values just stored under
    [dayofweek]. *)
Definition add_time_features (frame : DataFrame) : DataFrame :=
  let idx := index frame in
  let f := columns frame in
  let f := set_column "hour" (int_col (map hour_of idx)) f in
  let dayofweek := map dayofweek_of idx in
  let f := set_column "dayofweek" (int_col dayofweek) f in
  let f := set_column "month" (int_col (map month_of idx)) f in
  let f := set_column "is_weekend"
             (int_col (map (fun d => if 5 <=? d then 1 else 0) dayofweek)) f in
  {| index_name := index_name frame; index := idx; columns := f |}.

(** ** Lag and rolling features (lines 63-71) *)

(** [Series.shift(L)] for [L >= 0] *)
Definition shift {A} (L : nat) (v : list (option A)) : list (option A) :=
  firstn (length v) (repeat None L ++ v).

(** [shift] on a column. *)
Definition shift_col (L : nat) (c : column) : column :=
  match c with
  | NumCol v => NumCol (shift L v)
  | ObjCol v => ObjCol (shift L v)
  end.

(** The non-missing values of the window of [w] rows ending at row [i]. *)
Definition window (w i : nat) (v : list (option Q)) : list Q :=
  dropna_vals (skipn (i + 1 - w) (firstn (i + 1) v)).

(** The mean of a non-empty list. *)
Definition Qmean (xs : list Q) : Q :=
  (Qsum xs / inject_Z (Z.of_nat (length xs)))%Q.

(** The sample variance ([ddof = 1]). *)
Definition Qvar (xs : list Q) : Q :=
  let m := Qmean xs in
  (Qsum (map (fun x => (x - m) * (x - m)) xs)
   / inject_Z (Z.of_nat (length xs) - 1))%Q.

(** [rolling(w, min_periods).mean()] *)
Definition rolling_mean (w min_periods : nat) (v : list (option Q))
  : list (option Q) :=
  map (fun i => let xs := window w i v in
                if (min_periods <=? length xs)%nat then Some (Qmean xs) else None)
      (seq 0 (length v)).

(** [str(n)] *)
Definition str_of_nat (n : nat) : string :=
  NilEmpty.string_of_uint (Nat.to_uint n).

(** One row of a frame, as handed to the model. *)
Inductive cell :=
| Num (x : option Q)
| Obj (x : option string).

(** The cell of row [i]; a row that the column does not have is missing. *)
Definition cell_at (i : nat) (c : column) : cell :=
  match c with
  | NumCol v => Num (nth i v None)
  | ObjCol v => Obj (nth i v None)
  end.

(** [pd.isna] of a cell of either kind *)
Definition cell_isna (c : cell) : bool :=
  match c with
  | Num x => isna x
  | Obj x => isna x
  end.

(** [True] when row [i] has no missing cell *)
Definition row_complete (cols : columns_t) (i : nat) : bool :=
  forallb (fun p => negb (cell_isna (cell_at i (snd p)))) cols.

(** The rows of the given positions. *)
Definition select_rows (pos : list nat) (f : DataFrame) : DataFrame :=
  {| index_name := index_name f;
     index := map (fun i => nth i (index f) 0) pos;
     columns := map_columns (take_col pos) (columns f) |}.

(** [DataFrame.dropna()] *)
Definition dropna (f : DataFrame) : DataFrame :=
  select_rows (filter (row_complete (columns f)) (seq 0 (n_rows f))) f.

Section Features.

Variable TARGET : string.

(** The square root of a non-negative float.  It is not rational in
    general, and no property below depends on its value. *)
Variable sqrt : Q -> Q.

(** [rolling(w, min_periods).std()]: missing below [min_periods]
    observations, and below two *)
Definition rolling_std (w min_periods : nat) (v : list (option Q))
  : list (option Q) :=
  map (fun i => let xs := window w i v in
                if (min_periods <=? length xs)%nat && (2 <=? length xs)%nat
                then Some (sqrt (Qvar xs)) else None)
      (seq 0 (length v)).

(** [f[target]]; a missing label is a [KeyError] *)
Definition getitem (target : string) (f : columns_t) : result column :=
  match get_column target f with
  | Some c => Ok c
  | None => Raise (LibraryError "KeyError")
  end.

(** The first loop of [add_lags_rolls]. *)
Fixpoint add_lags (target : string) (lags : list nat) (f : columns_t)
  : result columns_t :=
  match lags with
  | [] => Ok f
  | L :: rest =>
      c <- getitem target f ;;
      add_lags target rest
        (set_column (target ++ "_lag" ++ str_of_nat L) (shift_col L c) f)
  end.

(** [f[target].rolling(w, min_periods=max(1, w//2))]: pandas refuses a
    [min_periods] above the window, and a column that is not numeric. *)
Definition rolling (target : string) (w : nat) (f : columns_t)
  : result (nat * list (option Q)) :=
  c <- getitem target f ;;
  let min_periods := Nat.max 1 (w / 2) in
  if (w <? min_periods)%nat then Raise (LibraryError "ValueError")
  else match c with
       | NumCol v => Ok (min_periods, v)
       | ObjCol _ => Raise (LibraryError "DataError")
       end.

(** The second loop of [add_lags_rolls]. *)
Fixpoint add_rolls (target : string) (rolls : list nat) (f : columns_t)
  : result columns_t :=
  match rolls with
  | [] => Ok f
  | w :: rest =>
      r1 <- rolling target w f ;;
      let f := set_column (target ++ "_rollmean" ++ str_of_nat w)
                 (NumCol (rolling_mean w (fst r1) (snd r1))) f in
      r2 <- rolling target w f ;;
      let f := set_column (target ++ "_rollstd" ++ str_of_nat w)
                 (NumCol (rolling_std w (fst r2) (snd r2))) f in
      add_rolls target rest f
  end.

(** lines 63-71 *)
Definition add_lags_rolls (frame : DataFrame) (target : string)
           (lags rolls : list nat) : result DataFrame :=
  f <- add_lags target lags (columns frame) ;;
  f <- add_rolls target rolls f ;;
  Ok {| index_name := index_name frame; index := index frame; columns := f |}.

(** The default values of [lags] and [rolls] (line 64). *)
Definition default_lags : list nat := [1; 2; 3; 6; 12; 24]%nat.
Definition default_rolls : list nat := [3; 6; 12; 24]%nat.

(** lines 73-78 *)
Definition build_feature_view (history_df : DataFrame)
  : result (DataFrame * list string) :=
  let Xy := add_time_features history_df in
  Xy <- add_lags_rolls Xy TARGET default_lags default_rolls ;;
  let Xy := dropna Xy in
  let features := filter (fun c => negb (String.eqb c TARGET))
                         (map fst (columns Xy)) in
  Ok (Xy, features).

End Features.

(** ** The prediction endpoint (lines 122-135) *)

(** The body of the JSON answer of [/api/predict].  [last_timestamp] is kept
    as the timestamp that the source prints with [str]. *)
Record prediction := {
  next_hour_prediction_ugm3 : option Q;
  next_hour_prediction_aqi : option Z;
  aqi_category_text : string;
  aqi_category_class : string;
  last_timestamp : option Z }.

(** [frame[names]] *)
Definition select_columns (names : list string) (f : DataFrame) : DataFrame :=
  {| index_name := index_name f;
     index := index f;
     columns := flat_map (fun c => match get_column c (columns f) with
                                   | Some col => [(c, col)]
                                   | None => []
                                   end) names |}.

(** [frame.iloc[[-1]]]: the last row; out of bounds on a frame without rows *)
Definition iloc_last (f : DataFrame) : result (list (string * cell)) :=
  match n_rows f with
  | O => Raise (LibraryError "IndexError")
  | S k => Ok (map (fun p => (fst p, cell_at k (snd p))) (columns f))
  end.

(** [round(x, 3)] of line 130 and [Series.round(3)] of line 111, on the
    exact value.  On doubles either can differ from it in the last place,
    and no property fixes a value that was rounded this way. *)
Definition py_round3 (x : Q) : Q := (inject_Z (py_round (x * 1000)) / 1000)%Q.

Section Predict.

Variable TARGET : string.
Variable sqrt : Q -> Q.

(** [float(model.predict(X)[0])] for the loaded model, [None] being [NaN]. *)
Variable model_predict : list (string * cell) -> option Q.

(** lines 123-135, [dfh] being the series loaded at start-up *)
Definition api_predict (dfh : DataFrame) : result prediction :=
  let latest_df := dfh in
  view <- build_feature_view TARGET sqrt latest_df ;;
  let '(Xy_tmp, feats) := view in
  X_latest <- iloc_last (select_columns feats Xy_tmp) ;;
  let y_hat_ug := model_predict X_latest in
  let '(aqi_val, aqi_txt, aqi_cls) := pm25_to_aqi y_hat_ug in
  Ok {| next_hour_prediction_ugm3 := option_map py_round3 y_hat_ug;
        next_hour_prediction_aqi := aqi_val;
        aqi_category_text := aqi_txt;
        aqi_category_class := aqi_cls;
        last_timestamp := list_max (index dfh) |}.

End Predict.

(** ** The recent window (lines 99-120) *)

(** The loop of [series_pm25_to_aqi] over the values of a series: each of the
    three lists grows by one element for each value.  The first list is the
    data of the series that the source returns over the index of [s]. *)
Definition series_pm25_to_aqi (s : list (option Q))
  : list (option Z) * list string * list string :=
  fold_left (fun acc v =>
               let '(aqis, txts, clss) := acc in
               let '(aqi_v, txt_v, cls_v) := pm25_to_aqi v in
               (aqis ++ [aqi_v], txts ++ [txt_v], clss ++ [cls_v]))
            s ([], [], []).

(** [tail(n)] for [n >= 0]: the last [n] elements, all of them when there are
    fewer. *)
Definition tail {A} (n : nat) (l : list A) : list A :=
  skipn (length l - n) l.

(** [tail] on a column. *)
Definition tail_col (n : nat) (c : column) : column :=
  match c with
  | NumCol v => NumCol (tail n v)
  | ObjCol v => ObjCol (tail n v)
  end.

(** [DataFrame.tail(n)] *)
Definition tail_frame (n : nat) (f : DataFrame) : DataFrame :=
  {| index_name := index_name f;
     index := tail n (index f);
     columns := map_columns (tail_col n) (columns f) |}.

(** The body of the JSON answer of [/api/last].  [timestamps] holds the
    timestamps that the source prints with [astype(str)]. *)
Record window_arrays := {
  timestamps : list Z;
  pm25 : list (option Q);
  aqi : list (option Z) }.

Section Window.

Variable TARGET : string.

(** lines 106-113.  A column that is not numeric holds text: the comparison
    of line 94 raises a [TypeError] on the first value that is there, and a
    column without any value gives missing scores. *)
Definition last_window_arrays (n : nat) (dfh : DataFrame) : result window_arrays :=
  let tail_df := tail_frame n dfh in
  c <- getitem TARGET (columns tail_df) ;;
  match c with
  | NumCol v =>
      let '(aqi_series, _, _) := series_pm25_to_aqi v in
      Ok {| timestamps := index tail_df;
            pm25 := map (option_map py_round3) v;
            aqi := aqi_series |}
  | ObjCol v =>
      if existsb notna v then Raise (LibraryError "TypeError")
      else Ok {| timestamps := index tail_df;
                 pm25 := map (fun _ => None) v;
                 aqi := map (fun _ => None) v |}
  end.

(** lines 118-120 *)
Definition api_last (dfh : DataFrame) : result window_arrays :=
  last_window_arrays 72 dfh.

End Window.

(** ** A parser for the examples

    [pd.to_datetime] on the cells used in the examples of this file: an
    integer is a number of nanoseconds since the epoch, and a text of the form
    [YYYY-MM-DD HH:MM:SS] is read in the proleptic Gregorian calendar.  The
    theorems hold for every parser. *)

(** A decimal digit. *)
Definition digit (c : ascii) : option Z :=
  let n := nat_of_ascii c in
  if (48 <=? n)%nat && (n <=? 57)%nat then Some (Z.of_nat (n - 48)) else None.

(** A number written with decimal digits. *)
Fixpoint digits (acc : Z) (l : list ascii) : option Z :=
  match l with
  | [] => Some acc
  | c :: rest => match digit c with
                 | Some d => digits (10 * acc + d) rest
                 | None => None
                 end
  end.

(** The number of the day [y-m-d], counted from the first of January 1970. *)
Definition days_from_civil (y m d : Z) : Z :=
  let y := if m <=? 2 then y - 1 else y in
  let era := y / 400 in
  let yoe := y - era * 400 in
  let doy := (153 * (if 2 <? m then m - 3 else m + 9) + 2) / 5 + d - 1 in
  let doe := yoe * 365 + yoe / 4 - yoe / 100 + doy in
  era * 146097 + doe - 719468.

(** The length of a month. *)
Definition days_in_month (y m : Z) : Z :=
  if m =? 2 then
    if ((y mod 4 =? 0) && negb (y mod 100 =? 0)) || (y mod 400 =? 0) then 29 else 28
  else if (m =? 4) || (m =? 6) || (m =? 9) || (m =? 11) then 30 else 31.

(** The timestamp written as [YYYY-MM-DD HH:MM:SS]. *)
Definition iso_datetime (s : string) : option Z :=
  match list_ascii_of_string s with
  | [y1; y2; y3; y4; "-"; m1; m2; "-"; d1; d2; " "; h1; h2; ":"; n1; n2; ":"; s1; s2]%char =>
      match digits 0 [y1; y2; y3; y4], digits 0 [m1; m2], digits 0 [d1; d2],
            digits 0 [h1; h2], digits 0 [n1; n2], digits 0 [s1; s2] with
      | Some y, Some m, Some d, Some hh, Some mm, Some ss =>
          if (1 <=? m) && (m <=? 12) && (1 <=? d) && (d <=? days_in_month y m)
             && (hh <? 24) && (mm <? 60) && (ss <? 60)
          then Some ((((days_from_civil y m d * 24 + hh) * 60 + mm) * 60 + ss)
                     * 1000000000)
          else None
      | _, _, _, _, _, _ => None
      end
  | _ => None
  end.

(** The timestamps that [datetime64[ns]] holds: 64-bit numbers of
    nanoseconds, the least of them being [NaT]. *)
Definition in_ns_range (t : Z) : bool :=
  (- 9223372036854775807 <=? t) && (t <=? 9223372036854775807).

(** The parser of the examples: a timestamp out of range is [NaT], as with
    [errors="coerce"]. *)
Definition example_parser (x : scalar) : option Z :=
  match match x with
        | SNum q => if Qeq_bool q (inject_Z (Qfloor q)) then Some (Qfloor q) else None
        | SStr s => iso_datetime s
        end with
  | Some t => if in_ns_range t then Some t else None
  | None => None
  end.

(** * Vocabulary of the properties *)

(** ** The AQI table *)

(** What [pm25_to_aqi] returns when no bucket matches (line 97). *)
Definition hazardous : Z * string * string :=
  (500, "خطِر"%string, "aqi-hazardous"%string).

(** The values of [[0, 500.4]] that no bucket holds: the table leaves a gap
    of width 0.1 between each bucket and the next. *)
Definition in_gap (ug : Q) : Prop :=
  (12.0 < ug < 12.1 \/ 35.4 < ug < 35.5 \/ 55.4 < ug < 55.5
   \/ 150.4 < ug < 150.5 \/ 250.4 < ug < 250.5)%Q.

(** The slope of the line of a bucket. *)
Definition slope (b : breakpoint) : Q :=
  (inject_Z (Ih b - Il b) / (Ch b - Cl b))%Q.

(** The score of a concentration that is not missing. *)
Definition aqi_score (ug : Q) : Z := fst (fst (scan_breaks ug _PM25_BREAKS)).

(** ** The hourly index *)

(** [idx] is the run [lo, lo + 1h, ..., hi]. *)
Definition hourly_run (lo hi : Z) (idx : list Z) : Prop :=
  exists n : nat,
    idx = map (fun k => lo + HOUR * Z.of_nat k) (seq 0 (S n))
    /\ hi = lo + HOUR * Z.of_nat n.

(** The hours in which the time column has a parsed timestamp. *)
Definition observed_hours (parse_datetime : scalar -> option Z) (tc : column)
  : list Z :=
  map floor_hour (dropna_vals (to_datetime parse_datetime tc)).

(** The rows of the table after line 27, as [normalize] computes them. *)
Definition sorted_rows (parse_datetime : scalar -> option Z) (tc : column)
  : list (Z * nat) :=
  sort_values (valid_rows 0 (to_datetime parse_datetime tc)).

(** The time column after line 28. *)
Definition row_hours (rows : list (Z * nat)) : list Z :=
  map (fun r => floor_hour (fst r)) rows.

(** ** Missing values *)

(** The column [v] has a value in a row whose timestamp parses. *)
Definition observed (ts : list (option Z)) (v : list (option Q)) : bool :=
  existsb (fun r => notna (fst r) && notna (snd r)) (combine ts v).

(** [P] holds of the values of the column when it is numeric. *)
Definition numeric_col (P : list (option Q) -> bool) (c : column) : bool :=
  match c with
  | NumCol v => P v
  | ObjCol _ => true
  end.

(** No numeric cell of the frame is missing. *)
Definition no_numeric_missing (f : DataFrame) : bool :=
  forallb (fun p => numeric_col (forallb notna) (snd p)) (columns f).

(** Every numeric column of the table, other than the time column, has a
    value in a row whose timestamp parses. *)
Definition numeric_columns_observed (parse_datetime : scalar -> option Z)
           (TIME_COL : string) (df : csv_frame) : bool :=
  match get_column TIME_COL df with
  | None => false
  | Some tc =>
      forallb (fun p => String.eqb (fst p) TIME_COL
                        || numeric_col (observed (to_datetime parse_datetime tc)) (snd p))
              df
  end.

(** Every numeric column of the table, other than the time column, has a
    value in some row. *)
Definition numeric_columns_nonempty (TIME_COL : string) (df : csv_frame) : bool :=
  forallb (fun p => String.eqb (fst p) TIME_COL
                    || numeric_col (existsb notna) (snd p)) df.

(** No cell of the column is missing. *)
Definition col_notna (c : column) : bool :=
  match c with
  | NumCol v => forallb notna v
  | ObjCol v => forallb notna v
  end.

(** Every column has one cell for each row, and none of them is missing. *)
Definition no_missing (f : DataFrame) : bool :=
  forallb (fun p => (col_length (snd p) =? n_rows f)%nat && col_notna (snd p))
          (columns f).

(** The target is a numeric column with one cell for each row. *)
Definition numeric_target (TARGET : string) (f : DataFrame) : bool :=
  match get_column TARGET (columns f) with
  | Some (NumCol v) => (length v =? n_rows f)%nat
  | _ => false
  end.

(** The target column has one cell for each row, none of them missing. *)
Definition target_no_missing (TARGET : string) (f : DataFrame) : bool :=
  match get_column TARGET (columns f) with
  | Some c => (col_length c =? n_rows f)%nat && col_notna c
  | None => false
  end.

(** The cell of row [i] is there. *)
Definition cell_ok (i : nat) (c : column) : bool :=
  negb (cell_isna (cell_at i c)).

(** ** The feature frame *)

(** A sequence of column assignments [f[name] = column]. *)
Definition assign (l : list (string * column)) (f : columns_t) : columns_t :=
  fold_left (fun f p => set_column (fst p) (snd p) f) l f.

(** The assignments of [add_time_features]. *)
Definition time_columns (idx : list Z) : list (string * column) :=
  [ ("hour"%string, int_col (map hour_of idx));
    ("dayofweek"%string, int_col (map dayofweek_of idx));
    ("month"%string, int_col (map month_of idx));
    ("is_weekend"%string,
     int_col (map (fun d => if 5 <=? d then 1 else 0) (map dayofweek_of idx))) ].

(** The assignments of the first loop of [add_lags_rolls], [c] being the
    target column. *)
Definition lag_columns (target : string) (c : column) (lags : list nat)
  : list (string * column) :=
  map (fun L => ((target ++ "_lag" ++ str_of_nat L)%string, shift_col L c)) lags.

(** The assignments of its second loop, [v] being the values of the target. *)
Definition roll_columns (sqrt : Q -> Q) (target : string) (v : list (option Q))
           (rolls : list nat) : list (string * column) :=
  flat_map (fun w =>
              [ ((target ++ "_rollmean" ++ str_of_nat w)%string,
                 NumCol (rolling_mean w (Nat.max 1 (w / 2)) v));
                ((target ++ "_rollstd" ++ str_of_nat w)%string,
                 NumCol (rolling_std sqrt w (Nat.max 1 (w / 2)) v)) ]) rolls.

(** The frame that [build_feature_view] hands to [dropna]. *)
Definition feature_frame (sqrt : Q -> Q) (target : string) (v : list (option Q))
           (f : DataFrame) : DataFrame :=
  {| index_name := index_name f;
     index := index f;
     columns := assign (roll_columns sqrt target v default_rolls)
                  (assign (lag_columns target (NumCol v) default_lags)
                     (assign (time_columns (index f)) (columns f))) |}.

(** ** Hourly series *)

(** The order in which [groupby(...).agg(agg)] lists the columns: the
    numeric ones, then the others. *)
Definition numeric_first (cols : columns_t) : columns_t :=
  filter (fun p => is_num (snd p)) cols ++ filter (fun p => negb (is_num (snd p))) cols.

(** A valid hourly series: the index is a run of whole hours, no cell is
    missing, the column names are distinct, and the index bears a name of a
    time column that no column bears. *)
Definition hourly_series (h : DataFrame) : Prop :=
  (exists lo hi, lo mod HOUR = 0 /\ hourly_run lo hi (index h))
  /\ no_missing h = true
  /\ NoDup (map fst (columns h))
  /\ is_time_name (index_name h) = true
  /\ ~ In (index_name h) (map fst (columns h)).

(** ** The time column, in the words of the specification *)

(** Two characters that are the same up to the case of an ASCII letter. *)
Definition eq_nocase_ascii (a b : ascii) : bool :=
  let n := nat_of_ascii a in
  let m := nat_of_ascii b in
  (n =? m)%nat
  || ((65 <=? n)%nat && (n <=? 90)%nat && (m =? n + 32)%nat)
  || ((65 <=? m)%nat && (m <=? 90)%nat && (n =? m + 32)%nat).

(** Two names that are the same up to the case of their ASCII letters. *)
Fixpoint eq_nocase (s w : string) : bool :=
  match s, w with
  | EmptyString, EmptyString => true
  | String a s', String b w' => eq_nocase_ascii a b && eq_nocase s' w'
  | _, _ => false
  end.

(** The four names of a time column. *)
Definition time_names : list string :=
  ["timestamp"; "datetime"; "date"; "time"]%string.

(** The first column whose name matches one of the four names, whatever
    the case of its letters. *)
Definition first_time_column (names : list string) : option string :=
  find (fun c => existsb (eq_nocase c) time_names) names.

(** ** The values of a column *)

(** The cells of the column [v] of the table in the rows of the hour [k], in
    the order of line 27. *)
Definition hour_values {A} (parse_datetime : scalar -> option Z) (tc : column)
           (k : Z) (v : list (option A)) : list (option A) :=
  group k (row_hours (sorted_rows parse_datetime tc))
        (take (map snd (sorted_rows parse_datetime tc)) v).

(** * Data of the examples *)

(** Four records, one of them with a timestamp that does not parse, two of
    them in the same hour, and two hours without any record. *)
Definition example_csv : csv_frame :=
  [ ("station", ObjCol [Some "A"; Some "B"; None; Some "A"]);
    ("Date", ObjCol [Some "2024-01-01 03:10:00"; Some "2024-01-01 00:20:00";
                     Some "bad"; Some "2024-01-01 00:40:00"]);
    ("PM2.5", NumCol [Some 30; Some 10; Some 99; Some 20]%Q) ]%string.

(** The hourly series of [example_csv]. *)
Definition example_dfh : DataFrame :=
  Eval vm_compute in
    match load_dfh "PM2.5" example_parser example_csv with
    | Ok dfh => dfh
    | Raise _ => {| index_name := ""; index := []; columns := [] |}
    end.

(** The timestamps of [example_dfh], as a column of text. *)
Definition example_time_cells : column :=
  ObjCol [Some "2024-01-01 00:00:00"; Some "2024-01-01 01:00:00";
          Some "2024-01-01 02:00:00"; Some "2024-01-01 03:00:00"]%string.

(** The only value of the column [PM2.5] stands in a record without a
    timestamp. *)
Definition unparsed_csv : csv_frame :=
  [ ("Date", ObjCol [None; Some "2024-01-01 00:00:00"]);
    ("PM2.5", NumCol [Some 5; None]%Q) ]%string.

(** The square root to six decimal places. *)
Definition example_sqrt (q : Q) : Q :=
  (inject_Z (Z.sqrt (Qfloor (q * 1000000000000))) / 1000000)%Q.

(** A model that answers the value of the hour before. *)
Definition example_model (row : list (string * cell)) : option Q :=
  match find (fun p => String.eqb (fst p) "PM2.5_lag1") row with
  | Some (_, Num x) => x
  | _ => None
  end.

(** The series of [n] hours from the first of January 2024 with the values
    100, 101, ... of the target. *)
Definition ramp_series (n : nat) : DataFrame :=
  {| index_name := "timestamp";
     index := map (fun k => 1704067200000000000 + HOUR * Z.of_nat k) (seq 0 n);
     columns := [("PM2.5"%string,
                  NumCol (map (fun k => Some (inject_Z (100 + Z.of_nat k))) (seq 0 n)))] |}.

(** The same with a second numeric column that has no observation at all, as
    the load leaves it. *)
Definition ramp_series_with_empty_column (n : nat) : DataFrame :=
  {| index_name := "timestamp";
     index := index (ramp_series n);
     columns := columns (ramp_series n) ++ [("NO2"%string, NumCol (repeat None n))] |}.

(** A table with one record for each of [n] hours, the timestamps given as
    nanoseconds, and a column [NO2] that is empty in every record. *)
Definition ramp_csv_with_empty_column (n : nat) : csv_frame :=
  [ ("timestamp"%string,
     NumCol (map (fun t => Some (inject_Z t)) (index (ramp_series n))));
    ("PM2.5"%string,
     NumCol (map (fun k => Some (inject_Z (100 + Z.of_nat k))) (seq 0 n)));
    ("NO2"%string, NumCol (repeat None n)) ].

(** * Properties *)

(** ** The AQI mapping *)

Lemma in_bucket_iff ug b :
  in_bucket ug b = true <-> (Cl b <= ug /\ ug <= Ch b)%Q.
Proof.
  unfold in_bucket. rewrite andb_true_iff, !Qle_bool_iff. tauto.
Qed.

Lemma in_bucket_false_iff ug b :
  in_bucket ug b = false <-> (ug < Cl b \/ Ch b < ug)%Q.
Proof.
  rewrite <- not_true_iff_false, in_bucket_iff. split.
  - intros H. destruct (Qlt_le_dec ug (Cl b)) as [Hlt | Hle]; [now left |].
    destruct (Qlt_le_dec (Ch b) ug) as [Hlt' | Hle']; [now right |].
    exfalso. apply H. split; assumption.
  - intros [H | H] [H1 H2]; lra.
Qed.

(** The scan falls through exactly when no bucket of the table holds [ug]. *)
Lemma scan_breaks_fallthrough ug table :
  existsb (in_bucket ug) table = false -> scan_breaks ug table = hazardous.
Proof.
  induction table as [| b rest IH]; simpl; [reflexivity |].
  rewrite orb_false_iff. intros [Hb Hrest]. rewrite Hb. auto.
Qed.

Lemma scan_breaks_hit ug table :
  existsb (in_bucket ug) table = true ->
  exists b, In b table /\ in_bucket ug b = true /\
            scan_breaks ug table = (py_round (interpolate_aqi ug b), txt b, cls b).
Proof.
  induction table as [| b rest IH]; simpl; [discriminate |].
  destruct (in_bucket ug b) eqn:Hb; simpl.
  - intros _. exists b. auto.
  - intros H. destruct (IH H) as (b' & Hin & Hb' & Heq). exists b'. auto.
Qed.

Lemma breaks_uncovered_iff ug :
  existsb (in_bucket ug) _PM25_BREAKS = false <->
  (ug < 0 \/ 500.4 < ug \/ in_gap ug)%Q.
Proof.
  unfold _PM25_BREAKS, in_gap. cbn [existsb].
  rewrite !orb_false_iff, !in_bucket_false_iff. cbn [Cl Ch]. lra.
Qed.

(** C8: [pm25_to_aqi(600)] is the score 500 with the label and the class of
    the hazardous category, and [pm25_to_aqi] of a missing value is a missing
    score with the label and the class of the unknown category. *)
Theorem pm25_to_aqi_saturation :
  pm25_to_aqi (Some 600%Q) = (Some 500, "خطِر"%string, "aqi-hazardous"%string)
  /\ pm25_to_aqi None = (None, "غير معروف"%string, "aqi-unknown"%string).
Proof. split; reflexivity. Qed.

(** C10: every concentration below zero matches no bucket, and is given the
    score 500 with the label and the class of the hazardous category. *)
Theorem pm25_to_aqi_negative (ug : Q) :
  (ug < 0)%Q ->
  existsb (in_bucket ug) _PM25_BREAKS = false
  /\ pm25_to_aqi (Some ug) = (Some 500, "خطِر"%string, "aqi-hazardous"%string).
Proof.
  intros Hneg.
  assert (Hun : existsb (in_bucket ug) _PM25_BREAKS = false)
    by (apply breaks_uncovered_iff; now left).
  split; [exact Hun |].
  unfold pm25_to_aqi. rewrite (scan_breaks_fallthrough _ _ Hun). reflexivity.
Qed.

(** At the concentration -2.5. *)
Lemma pm25_to_aqi_negative_witness :
  (-(5 # 2) < 0)%Q
  /\ pm25_to_aqi (Some (-(5 # 2))%Q) = (Some 500, "خطِر"%string, "aqi-hazardous"%string).
Proof.
  split; [reflexivity |]. apply (pm25_to_aqi_negative (-(5 # 2))%Q). reflexivity.
Defined.

(** C2, at the input 12.05: the concentration lies in [[0, 500.4]], no
    bucket of the table holds it, and the scan falls through to the score 500
    of the hazardous category. *)
Theorem breaks_gap_at_12_05 :
  (0 <= 12.05 <= 500.4)%Q
  /\ existsb (in_bucket 12.05%Q) _PM25_BREAKS = false
  /\ pm25_to_aqi (Some 12.05%Q) = (Some 500, "خطِر"%string, "aqi-hazardous"%string).
Proof. repeat split; try reflexivity; discriminate. Qed.

(** C3, at the inputs 12.05 < 12.1 of [[0, 500.4]]: the score of the smaller
    concentration is 500, that of the larger one is 51. *)
Theorem aqi_not_monotone_at_gap :
  (12.05 < 12.1)%Q
  /\ pm25_to_aqi (Some 12.05%Q) = (Some 500, "خطِر"%string, "aqi-hazardous"%string)
  /\ pm25_to_aqi (Some 12.1%Q) = (Some 51, "متوسط"%string, "aqi-moderate"%string).
Proof. repeat split; reflexivity. Qed.

(** ** The score on the values that the table covers *)

Lemma py_round_floor_bounds x : Qfloor x <= py_round x <= Qfloor x + 1.
Proof.
  unfold py_round. destruct (_ ?= _)%Q; [destruct (Z.even _) | |]; lia.
Qed.

Lemma py_round_mono x y : (x <= y)%Q -> py_round x <= py_round y.
Proof.
  intros Hxy. pose proof (Qfloor_resp_le x y Hxy) as Hfl.
  destruct (Z.eq_dec (Qfloor x) (Qfloor y)) as [Heq | Hne].
  - unfold py_round. rewrite Heq. set (f := Qfloor y).
    destruct (Qcompare_spec (x - inject_Z f) (1 # 2)) as [Hx | Hx | Hx];
      destruct (Qcompare_spec (y - inject_Z f) (1 # 2)) as [Hy | Hy | Hy];
      try lia; try (exfalso; lra); destruct (Z.even f); lia.
  - pose proof (py_round_floor_bounds x). pose proof (py_round_floor_bounds y). lia.
Qed.

Lemma interpolate_aqi_mono b u u' :
  (0 <= slope b)%Q -> (u <= u')%Q ->
  (interpolate_aqi u b <= interpolate_aqi u' b)%Q.
Proof.
  intros Hs Hu. unfold interpolate_aqi. fold (slope b).
  apply Qplus_le_compat; [| apply Qle_refl].
  rewrite !(Qmult_comm (slope b)). apply Qmult_le_compat_r; [lra | exact Hs].
Qed.

Lemma score_mono_in_bucket b u u' :
  (0 <= slope b)%Q -> (u <= u')%Q ->
  py_round (interpolate_aqi u b) <= py_round (interpolate_aqi u' b).
Proof. intros Hs Hu. now apply py_round_mono, interpolate_aqi_mono. Qed.

Ltac slope_nonneg := vm_compute; discriminate.

(** The score of a value of a bucket lies between the two indices of the
    bucket. *)
Lemma score_in_bucket b ug :
  In b _PM25_BREAKS -> in_bucket ug b = true ->
  Il b <= py_round (interpolate_aqi ug b) <= Ih b.
Proof.
  intros Hin Hb. apply in_bucket_iff in Hb. destruct Hb as [Hlo Hhi].
  assert (Hs : (0 <= slope b)%Q).
  { unfold _PM25_BREAKS in Hin. cbn [In] in Hin.
    repeat (destruct Hin as [<- | Hin]; [slope_nonneg |]). destruct Hin. }
  pose proof (score_mono_in_bucket b _ _ Hs Hlo) as H1.
  pose proof (score_mono_in_bucket b _ _ Hs Hhi) as H2.
  assert (Hends : py_round (interpolate_aqi (Cl b) b) = Il b
                  /\ py_round (interpolate_aqi (Ch b) b) = Ih b).
  { unfold _PM25_BREAKS in Hin. cbn [In] in Hin.
    repeat (destruct Hin as [<- | Hin]; [split; reflexivity |]). destruct Hin. }
  destruct Hends as [E1 E2]. lia.
Qed.

Lemma pm25_to_aqi_score ug : fst (fst (pm25_to_aqi (Some ug))) = Some (aqi_score ug).
Proof.
  unfold pm25_to_aqi, aqi_score.
  now destruct (scan_breaks ug _PM25_BREAKS) as [[aqi t] c].
Qed.

(** X4: on the concentrations that lie in a bucket the score is monotone:
    a higher concentration never has a lower score. *)
Lemma pm25_to_aqi_monotone_in_buckets (a b : Q) :
  (a <= b)%Q ->
  existsb (in_bucket a) _PM25_BREAKS = true ->
  existsb (in_bucket b) _PM25_BREAKS = true ->
  aqi_score a <= aqi_score b.
Proof.
  intros Hab Ha Hb. unfold aqi_score.
  destruct (scan_breaks_hit _ _ Ha) as (ba & Hina & Hba & ->).
  destruct (scan_breaks_hit _ _ Hb) as (bb & Hinb & Hbb & ->).
  cbn [fst].
  pose proof (score_in_bucket _ _ Hina Hba) as Sa.
  pose proof (score_in_bucket _ _ Hinb Hbb) as Sb.
  apply in_bucket_iff in Hba, Hbb.
  unfold _PM25_BREAKS in Hina, Hinb. cbn [In] in Hina, Hinb.
  repeat (destruct Hina as [<- | Hina]);
    repeat (destruct Hinb as [<- | Hinb]);
    try contradiction;
    cbn [Cl Ch Il Ih] in *;
    first [ lia
          | exfalso; lra
          | apply score_mono_in_bucket; [slope_nonneg | exact Hab] ].
Qed.

(** ** Start-up: the time column *)

Lemma str_in_In s l : str_in s l = true <-> In s l.
Proof.
  unfold str_in. rewrite existsb_exists. split.
  - intros (x & Hin & Heq). apply String.eqb_eq in Heq. now subst.
  - intros Hin. exists s. split; [assumption | apply String.eqb_refl].
Qed.

Lemma hd_filter_find {A} (f : A -> bool) (l : list A) :
  hd_error (filter f l) = find f l.
Proof.
  induction l as [| x l IH]; simpl; [reflexivity |].
  destruct (f x); simpl; auto.
Qed.

Lemma load_dfh_unfold (TARGET : string)
      (parse_datetime : scalar -> option Z) (df : csv_frame) :
  load_dfh TARGET parse_datetime df =
  match find is_time_name (map fst df) with
  | Some TIME_COL => normalize TARGET parse_datetime TIME_COL df
  | None => Raise (AssertionError
                     "No datetime column found. Rename your time column or add it.")
  end.
Proof.
  unfold load_dfh, time_col_candidates.
  rewrite <- hd_filter_find.
  destruct (filter is_time_name (map fst df)); reflexivity.
Qed.

Lemma ascii_eqb_nat (a b : ascii) :
  Ascii.eqb a b = (nat_of_ascii a =? nat_of_ascii b)%nat.
Proof.
  destruct (Ascii.eqb_spec a b) as [-> | Hne].
  - now rewrite Nat.eqb_refl.
  - symmetry. apply Nat.eqb_neq. intros H. apply Hne.
    rewrite <- (ascii_nat_embedding a), <- (ascii_nat_embedding b). now rewrite H.
Qed.

(** Against a lower-case letter, lowering the other character is comparing
    up to case. *)
Lemma lower_ascii_eqb (a b : ascii) :
  (97 <= nat_of_ascii b <= 122)%nat ->
  Ascii.eqb (lower_ascii a) b = eq_nocase_ascii a b.
Proof.
  intros Hb. unfold lower_ascii, eq_nocase_ascii. cbv zeta.
  assert (Ha := nat_ascii_bounded a).
  destruct ((65 <=? nat_of_ascii a)%nat && (nat_of_ascii a <=? 90)%nat) eqn:E.
  - apply andb_true_iff in E. destruct E as [E1 E2].
    apply Nat.leb_le in E1. apply Nat.leb_le in E2.
    rewrite ascii_eqb_nat, nat_ascii_embedding by lia.
    replace (nat_of_ascii a =? nat_of_ascii b)%nat with false
      by (symmetry; apply Nat.eqb_neq; lia).
    replace (65 <=? nat_of_ascii a)%nat with true by (symmetry; apply Nat.leb_le; lia).
    replace (nat_of_ascii a <=? 90)%nat with true by (symmetry; apply Nat.leb_le; lia).
    replace (nat_of_ascii b <=? 90)%nat with false by (symmetry; apply Nat.leb_gt; lia).
    cbn [andb orb]. rewrite andb_false_r, orb_false_r. apply Nat.eqb_sym.
  - rewrite ascii_eqb_nat.
    replace (nat_of_ascii b <=? 90)%nat with false by (symmetry; apply Nat.leb_gt; lia).
    cbn [andb]. rewrite andb_false_r, !orb_false_r. reflexivity.
Qed.

Lemma lower_eqb (c w : string) :
  forallb (fun b => (97 <=? nat_of_ascii b)%nat && (nat_of_ascii b <=? 122)%nat)
          (list_ascii_of_string w) = true ->
  String.eqb (lower c) w = eq_nocase c w.
Proof.
  revert w. induction c as [| a c IH]; intros [| b w] Hw; cbn [lower eq_nocase];
    try reflexivity.
  cbn [list_ascii_of_string forallb] in Hw. apply andb_true_iff in Hw.
  destruct Hw as [Hb Hw]. apply andb_true_iff in Hb. destruct Hb as [H1 H2].
  apply Nat.leb_le in H1. apply Nat.leb_le in H2.
  cbn [String.eqb]. rewrite (lower_ascii_eqb a b) by lia. rewrite (IH w Hw).
  now destruct (eq_nocase_ascii a b).
Qed.

Lemma find_pointwise {A} (f g : A -> bool) (l : list A) :
  (forall x, f x = g x) -> find f l = find g l.
Proof.
  intros H. induction l as [| x l IH]; cbn [find]; [reflexivity |].
  now rewrite H, IH.
Qed.

Lemma is_time_name_nocase (c : string) :
  is_time_name c = existsb (eq_nocase c) time_names.
Proof.
  unfold is_time_name, str_in, time_names. cbn [existsb].
  now rewrite !lower_eqb by reflexivity.
Qed.

(** C9: a column name is a candidate when it is one of the four names up to
    the case of its letters; the time column is the first candidate in column
    order, and without any candidate the load fails on the [assert] of line
    22, so that no hourly series, and no application, comes to exist. *)
Theorem load_dfh_time_column (TARGET : string) (parse_datetime : scalar -> option Z)
        (df : csv_frame) :
  (forall c, is_time_name c = true <->
             exists w, In w time_names /\ eq_nocase c w = true)
  /\ load_dfh TARGET parse_datetime df =
     match first_time_column (map fst df) with
     | Some TIME_COL => normalize TARGET parse_datetime TIME_COL df
     | None => Raise (AssertionError
                        "No datetime column found. Rename your time column or add it.")
     end.
Proof.
  split.
  - intros c. rewrite is_time_name_nocase. apply existsb_exists.
  - rewrite load_dfh_unfold. unfold first_time_column.
    apply (f_equal (fun o => match o with
                             | Some TIME_COL => normalize TARGET parse_datetime TIME_COL df
                             | None => _
                             end)).
    apply find_pointwise, is_time_name_nocase.
Qed.

(** In [example_csv] the time column is [Date], written with a capital, and
    stands second. *)
Lemma load_dfh_time_column_witness :
  (forall c, is_time_name c = true <->
             exists w, In w time_names /\ eq_nocase c w = true)
  /\ load_dfh "PM2.5" example_parser example_csv
     = normalize "PM2.5" example_parser "Date" example_csv.
Proof.
  exact (load_dfh_time_column "PM2.5" example_parser example_csv).
Defined.

(** ** The hourly index *)

Lemma HOUR_pos : 0 < HOUR.
Proof. reflexivity. Qed.

Lemma floor_hour_aligned t : floor_hour t mod HOUR = 0.
Proof. unfold floor_hour. rewrite Z.mul_comm. apply Z.mod_mul. discriminate. Qed.

Lemma floor_hour_fixed t : t mod HOUR = 0 -> floor_hour t = t.
Proof.
  intros H. unfold floor_hour.
  pose proof (Z.div_mod t HOUR ltac:(discriminate)). lia.
Qed.

Lemma floor_hour_mono a b : a <= b -> floor_hour a <= floor_hour b.
Proof.
  intros H. unfold floor_hour.
  apply Z.mul_le_mono_nonneg_l; [discriminate |].
  apply Z.div_le_mono; [reflexivity | assumption].
Qed.

Lemma insert_key_In x k l : In x (insert_key k l) <-> x = k \/ In x l.
Proof.
  induction l as [| y l IH]; simpl; [intuition |].
  destruct (k <? y) eqn:Hlt; simpl; [intuition |].
  destruct (k =? y) eqn:Heq; simpl.
  - apply Z.eqb_eq in Heq. subst. intuition.
  - rewrite IH. intuition.
Qed.

Lemma group_keys_In x times : In x (group_keys times) <-> In x times.
Proof.
  induction times as [| t times IH]; simpl; [tauto |].
  rewrite insert_key_In, IH. intuition.
Qed.

Lemma insert_row_perm x l : Permutation (insert_row x l) (x :: l).
Proof.
  induction l as [| y l IH]; simpl; [reflexivity |].
  destruct (fst x <=? fst y); [reflexivity |].
  rewrite IH. apply perm_swap.
Qed.

Lemma sort_values_perm rows : Permutation (sort_values rows) rows.
Proof.
  induction rows as [| x rows IH]; simpl; [reflexivity |].
  rewrite insert_row_perm. now constructor.
Qed.

Lemma valid_rows_In t i start ts :
  In (t, i) (valid_rows start ts) <->
  (start <= i)%nat /\ nth_error ts (i - start) = Some (Some t).
Proof.
  revert start. induction ts as [| o ts IH]; intros start; simpl.
  - split; [tauto |]. intros [_ H]. destruct (i - start)%nat; discriminate.
  - assert (Hstep : (S start <= i)%nat /\ nth_error ts (i - S start) = Some (Some t)
                    <-> (start <= i)%nat /\ i <> start /\
                        nth_error (o :: ts) (i - start) = Some (Some t)).
    { split.
      - intros [Hle Hn]. repeat split; try lia.
        replace (i - start)%nat with (S (i - S start)) by lia. exact Hn.
      - intros (Hle & Hne & Hn). split; [lia |].
        replace (i - start)%nat with (S (i - S start)) in Hn by lia. exact Hn. }
    destruct o as [t' |]; simpl; rewrite IH, Hstep.
    + split.
      * intros [Heq | H]; [| tauto]. inversion Heq; subst.
        rewrite Nat.sub_diag. auto.
      * intros [Hle Hn]. destruct (Nat.eq_dec i start) as [-> | Hne].
        -- rewrite Nat.sub_diag in Hn. simpl in Hn. left. congruence.
        -- right. auto.
    + split; [tauto |].
      intros [Hle Hn]. repeat split; auto.
      intros ->. rewrite Nat.sub_diag in Hn. discriminate.
Qed.

Lemma valid_rows_times start ts :
  map fst (valid_rows start ts) = dropna_vals ts.
Proof.
  revert start. induction ts as [| [t |] ts IH]; intros start; simpl;
    [reflexivity | f_equal; apply IH | apply IH].
Qed.

Lemma fold_min_spec l : forall x,
  (fold_left Z.min l x = x \/ In (fold_left Z.min l x) l)
  /\ fold_left Z.min l x <= x /\ Forall (Z.le (fold_left Z.min l x)) l.
Proof.
  induction l as [| y l IH]; intros x; simpl.
  - repeat split; [now left | lia | constructor].
  - destruct (IH (Z.min x y)) as (Hin & Hle & Hall).
    repeat split.
    + destruct Hin as [Heq | Hin]; [| now right; right].
      rewrite Heq. destruct (Z.min_spec x y) as [[_ ->] | [_ ->]]; auto.
    + lia.
    + constructor; [lia | exact Hall].
Qed.

Lemma fold_max_spec l : forall x,
  (fold_left Z.max l x = x \/ In (fold_left Z.max l x) l)
  /\ x <= fold_left Z.max l x /\ Forall (fun y => y <= fold_left Z.max l x) l.
Proof.
  induction l as [| y l IH]; intros x; simpl.
  - repeat split; [now left | lia | constructor].
  - destruct (IH (Z.max x y)) as (Hin & Hle & Hall).
    repeat split.
    + destruct Hin as [Heq | Hin]; [| now right; right].
      rewrite Heq. destruct (Z.max_spec x y) as [[_ ->] | [_ ->]]; auto.
    + lia.
    + constructor; [lia | exact Hall].
Qed.

Lemma list_min_spec l lo :
  list_min l = Some lo -> In lo l /\ Forall (Z.le lo) l.
Proof.
  destruct l as [| x l]; simpl; [discriminate |].
  intros [= <-]. destruct (fold_min_spec l x) as (Hin & Hle & Hall).
  split; [destruct Hin; auto | constructor; assumption].
Qed.

Lemma list_max_spec l hi :
  list_max l = Some hi -> In hi l /\ Forall (fun y => y <= hi) l.
Proof.
  destruct l as [| x l]; simpl; [discriminate |].
  intros [= <-]. destruct (fold_max_spec l x) as (Hin & Hle & Hall).
  split; [destruct Hin; auto | constructor; assumption].
Qed.

Lemma date_range_run lo hi :
  lo mod HOUR = 0 -> hi mod HOUR = 0 -> lo <= hi ->
  hourly_run lo hi (date_range lo hi).
Proof.
  intros Hlo Hhi Hle. exists (Z.to_nat ((hi - lo) / HOUR)).
  assert (Hdiv : 0 <= (hi - lo) / HOUR) by (apply Z.div_pos; [lia | reflexivity]).
  split.
  - unfold date_range. do 2 f_equal. lia.
  - rewrite Z2Nat.id by assumption.
    pose proof (Z.div_mod (hi - lo) HOUR ltac:(discriminate)) as Hdm.
    assert (Hmod : (hi - lo) mod HOUR = 0).
    { rewrite Zminus_mod, Hlo, Hhi. reflexivity. }
    lia.
Qed.

Lemma hourly_run_nth lo hi idx i :
  hourly_run lo hi idx -> (i < length idx)%nat ->
  nth i idx 0 = lo + HOUR * Z.of_nat i.
Proof.
  intros (n & -> & _) Hi. rewrite length_map, length_seq in Hi.
  rewrite (nth_indep _ 0 (lo + HOUR * Z.of_nat 0))
    by (rewrite length_map, length_seq; exact Hi).
  rewrite (map_nth (fun k => lo + HOUR * Z.of_nat k)), seq_nth by exact Hi.
  reflexivity.
Qed.

Lemma hourly_run_spacing lo hi idx i :
  hourly_run lo hi idx -> (S i < length idx)%nat ->
  nth (S i) idx 0 = nth i idx 0 + HOUR.
Proof.
  intros Hrun Hi.
  rewrite (hourly_run_nth lo hi idx (S i) Hrun Hi).
  rewrite (hourly_run_nth lo hi idx i Hrun) by lia. lia.
Qed.

Lemma hourly_run_ends lo hi idx :
  hourly_run lo hi idx ->
  hd_error idx = Some lo /\ nth (length idx - 1) idx 0 = hi.
Proof.
  intros Hrun. split.
  - destruct Hrun as (n & -> & _). simpl. f_equal. lia.
  - pose proof Hrun as (n & Hidx & Hhi).
    assert (Hlen : length idx = S n) by (rewrite Hidx, length_map, length_seq; reflexivity).
    rewrite (hourly_run_nth lo hi idx _ Hrun) by lia.
    rewrite Hlen. replace (S n - 1)%nat with n by lia. now rewrite Hhi.
Qed.

Lemma hourly_run_In lo hi idx t :
  lo mod HOUR = 0 -> hourly_run lo hi idx ->
  (In t idx <-> lo <= t <= hi /\ t mod HOUR = 0).
Proof.
  intros Hlo (n & -> & ->). rewrite in_map_iff. split.
  - intros (k & <- & Hk). apply in_seq in Hk. split.
    + unfold HOUR. lia.
    + rewrite Z.add_mod, Hlo, (Z.mul_comm HOUR), Z.mod_mul by discriminate.
      reflexivity.
  - intros [[Hge Hle] Hmod].
    pose proof (Z.div_mod (t - lo) HOUR ltac:(discriminate)) as Hdm.
    assert (Hmod' : (t - lo) mod HOUR = 0).
    { rewrite Zminus_mod, Hlo, Hmod. reflexivity. }
    assert (Hq : 0 <= (t - lo) / HOUR) by (apply Z.div_pos; [lia | reflexivity]).
    exists (Z.to_nat ((t - lo) / HOUR)). split.
    + rewrite Z2Nat.id by assumption. lia.
    + apply in_seq. split; [lia |].
      assert ((t - lo) / HOUR <= Z.of_nat n); [| lia].
      unfold HOUR in *. lia.
Qed.

Lemma hourly_run_sorted lo hi idx :
  hourly_run lo hi idx -> StronglySorted Z.lt idx.
Proof.
  intros (n & -> & _). generalize (S n) as m. generalize 0%nat as s.
  intros s m. revert s. induction m as [| m IH]; intros s; cbn [seq map]; constructor.
  - apply IH.
  - apply Forall_forall. intros x Hx. apply in_map_iff in Hx.
    destruct Hx as (k & <- & Hk). apply in_seq in Hk.
    cbv beta. unfold HOUR. lia.
Qed.

Lemma sorted_lt_NoDup l : StronglySorted Z.lt l -> NoDup l.
Proof.
  induction 1 as [| x l Hs IH Hall]; constructor; [| assumption].
  intros Hin. rewrite Forall_forall in Hall. specialize (Hall x Hin). lia.
Qed.

Lemma hourly_run_NoDup lo hi idx : hourly_run lo hi idx -> NoDup idx.
Proof. intros H. eapply sorted_lt_NoDup, hourly_run_sorted, H. Qed.

Lemma keys_observed parse_datetime tc k :
  In k (group_keys (row_hours (sorted_rows parse_datetime tc)))
  <-> In k (observed_hours parse_datetime tc).
Proof.
  rewrite group_keys_In. unfold row_hours, sorted_rows, observed_hours.
  rewrite <- (valid_rows_times 0), map_map.
  split; apply Permutation_in, Permutation_map;
    [| symmetry]; apply sort_values_perm.
Qed.

Lemma load_dfh_Ok TARGET parse_datetime df dfh :
  load_dfh TARGET parse_datetime df = Ok dfh ->
  exists TIME_COL,
    find is_time_name (map fst df) = Some TIME_COL
    /\ normalize TARGET parse_datetime TIME_COL df = Ok dfh.
Proof.
  intros H. rewrite load_dfh_unfold in H.
  destruct (find is_time_name (map fst df)) as [TC |]; [| discriminate].
  exists TC. auto.
Qed.

Lemma normalize_Ok TARGET parse_datetime TIME_COL df dfh :
  normalize TARGET parse_datetime TIME_COL df = Ok dfh ->
  exists tc lo hi,
    get_column TIME_COL df = Some tc
    /\ list_min (group_keys (row_hours (sorted_rows parse_datetime tc))) = Some lo
    /\ list_max (group_keys (row_hours (sorted_rows parse_datetime tc))) = Some hi
    /\ str_in TARGET (map fst (columns dfh)) = true
    /\ dfh = {| index_name := TIME_COL;
                index := date_range lo hi;
                columns :=
                  map_columns fill_other
                    (map_columns (fill_numeric (date_range lo hi))
                       (map_columns
                          (reindex_col
                             (group_keys (row_hours (sorted_rows parse_datetime tc)))
                             (date_range lo hi))
                          (snd (groupby_agg TIME_COL
                                  (row_hours (sorted_rows parse_datetime tc))
                                  (map_columns
                                     (take_col (map snd (sorted_rows parse_datetime tc)))
                                     df))))) |}.
Proof.
  unfold normalize. destruct (get_column TIME_COL df) as [tc |]; [| discriminate].
  fold (sorted_rows parse_datetime tc).
  fold (row_hours (sorted_rows parse_datetime tc)).
  unfold groupby_agg at 1. cbn [snd].
  destruct (list_min _) as [lo |] eqn:Hlo; [| discriminate].
  destruct (list_max _) as [hi |] eqn:Hhi; [| discriminate].
  unfold py_assert, bind.
  match goal with |- context [str_in TARGET ?l] => destruct (str_in TARGET l) eqn:Ht end;
    [| discriminate].
  intros [= <-]. exists tc, lo, hi. cbn [columns]. repeat split; auto.
Qed.

Lemma keys_bounds parse_datetime tc lo hi :
  list_min (group_keys (row_hours (sorted_rows parse_datetime tc))) = Some lo ->
  list_max (group_keys (row_hours (sorted_rows parse_datetime tc))) = Some hi ->
  (In lo (observed_hours parse_datetime tc)
   /\ Forall (Z.le lo) (observed_hours parse_datetime tc))
  /\ (In hi (observed_hours parse_datetime tc)
      /\ Forall (fun h => h <= hi) (observed_hours parse_datetime tc))
  /\ lo mod HOUR = 0
  /\ hourly_run lo hi (date_range lo hi)
  /\ (forall k, In k (group_keys (row_hours (sorted_rows parse_datetime tc))) ->
                In k (date_range lo hi)).
Proof.
  intros Hlo Hhi.
  apply list_min_spec in Hlo. apply list_max_spec in Hhi.
  destruct Hlo as [Hlo_in Hlo_all], Hhi as [Hhi_in Hhi_all].
  rewrite Forall_forall in Hlo_all, Hhi_all.
  assert (Haligned : forall h, In h (observed_hours parse_datetime tc) -> h mod HOUR = 0).
  { intros h Hh. unfold observed_hours in Hh. apply in_map_iff in Hh.
    destruct Hh as (t & <- & _). apply floor_hour_aligned. }
  assert (Hlo_obs : In lo (observed_hours parse_datetime tc)) by now apply keys_observed.
  assert (Hhi_obs : In hi (observed_hours parse_datetime tc)) by now apply keys_observed.
  assert (Hrun : hourly_run lo hi (date_range lo hi)) by (apply date_range_run; auto).
  split; [split; [assumption |] |].
  { apply Forall_forall. intros h Hh. apply Hlo_all. now apply keys_observed. }
  split; [split; [assumption |] |].
  { apply Forall_forall. intros h Hh. apply Hhi_all. now apply keys_observed. }
  split; [auto |]. split; [assumption |].
  intros k Hk. apply (hourly_run_In lo hi _ k (Haligned _ Hlo_obs) Hrun).
  split; [split; auto |]. apply Haligned. now apply keys_observed.
Qed.

Lemma normalize_index_run TARGET parse_datetime TIME_COL df dfh :
  normalize TARGET parse_datetime TIME_COL df = Ok dfh ->
  exists tc lo hi,
    get_column TIME_COL df = Some tc
    /\ index_name dfh = TIME_COL
    /\ (In lo (observed_hours parse_datetime tc)
        /\ Forall (Z.le lo) (observed_hours parse_datetime tc))
    /\ (In hi (observed_hours parse_datetime tc)
        /\ Forall (fun h => h <= hi) (observed_hours parse_datetime tc))
    /\ lo mod HOUR = 0
    /\ index dfh = date_range lo hi
    /\ hourly_run lo hi (index dfh).
Proof.
  intros H. destruct (normalize_Ok _ _ _ _ _ H) as (tc & lo & hi & Htc & Hlo & Hhi & _ & ->).
  destruct (keys_bounds _ _ _ _ Hlo Hhi) as (Hmin & Hmax & Hal & Hrun & _).
  exists tc, lo, hi. cbn [index index_name]. auto 10.
Qed.

(** C6: the index of every hourly series that the load returns is the run of
    hours from the least to the greatest observed hour, both included: each
    label is one hour after the one before it, no label is repeated, and
    every whole hour between the two ends is a label. *)
Theorem load_dfh_index_contiguous (TARGET : string)
        (parse_datetime : scalar -> option Z) (df : csv_frame) (dfh : DataFrame) :
  load_dfh TARGET parse_datetime df = Ok dfh ->
  exists tc lo hi,
    get_column (index_name dfh) df = Some tc
    /\ (In lo (observed_hours parse_datetime tc)
        /\ Forall (Z.le lo) (observed_hours parse_datetime tc))
    /\ (In hi (observed_hours parse_datetime tc)
        /\ Forall (fun h => h <= hi) (observed_hours parse_datetime tc))
    /\ hd_error (index dfh) = Some lo
    /\ nth (length (index dfh) - 1) (index dfh) 0 = hi
    /\ (forall i, (S i < length (index dfh))%nat ->
                  nth (S i) (index dfh) 0 = nth i (index dfh) 0 + HOUR)
    /\ NoDup (index dfh)
    /\ (forall t, In t (index dfh) <-> lo <= t <= hi /\ t mod HOUR = 0).
Proof.
  intros H. apply load_dfh_Ok in H. destruct H as (TC & _ & H).
  destruct (normalize_index_run _ _ _ _ _ H)
    as (tc & lo & hi & Htc & Hname & Hlo & Hhi & Hal & _ & Hrun).
  exists tc, lo, hi. rewrite Hname.
  destruct (hourly_run_ends _ _ _ Hrun) as [Hhd Hlast].
  do 5 (split; [assumption |]). split; [| split].
  - intros i Hi. eapply hourly_run_spacing; eauto.
  - eapply hourly_run_NoDup; eauto.
  - intros t. apply hourly_run_In; auto.
Qed.

(** ** Filling the gaps *)

Lemma interpolate_from_length prev pts :
  length (interpolate_from prev pts) = length pts.
Proof.
  revert prev. induction pts as [| [t [y |]] pts IH]; intros prev; simpl;
    [reflexivity | |]; now rewrite IH.
Qed.

Lemma ffill_from_length {A} (prev : option A) v :
  length (ffill_from prev v) = length v.
Proof.
  revert prev. induction v as [| [y |] v IH]; intros prev; simpl;
    [reflexivity | |]; now rewrite IH.
Qed.

Lemma bfill_length {A} (v : list (option A)) : length (bfill v) = length v.
Proof. induction v as [| x v IH]; simpl; [reflexivity | now rewrite IH]. Qed.

(** Interpolation keeps the observations there are. *)
Lemma interpolate_from_has_obs prev pts :
  existsb notna (map snd pts) = true ->
  existsb notna (interpolate_from prev pts) = true.
Proof.
  revert prev. induction pts as [| [t [y |]] pts IH]; intros prev; simpl;
    [discriminate | reflexivity |].
  intros H. rewrite (IH prev H). apply orb_true_r.
Qed.

Lemma interpolate_from_notna prev pts :
  forallb notna (map snd pts) = true ->
  interpolate_from prev pts = map snd pts.
Proof.
  revert prev. induction pts as [| [t [y |]] pts IH]; intros prev; simpl;
    [reflexivity | | discriminate].
  intros H. now rewrite IH.
Qed.

Lemma combine_snd {A B} (l : list A) (l' : list B) :
  length l = length l' -> map snd (combine l l') = l'.
Proof.
  revert l'. induction l as [| x l IH]; intros [| y l']; simpl;
    try discriminate; [reflexivity |].
  intros [= H]. now rewrite IH.
Qed.

Lemma combine_fst {A B} (l : list A) (l' : list B) :
  length l = length l' -> map fst (combine l l') = l.
Proof.
  revert l'. induction l as [| x l IH]; intros [| y l']; simpl;
    try discriminate; [reflexivity |].
  intros [= H]. now rewrite IH.
Qed.

Lemma ffill_from_Some_notna {A} (p : A) v :
  forallb notna (ffill_from (Some p) v) = true.
Proof.
  revert p. induction v as [| [y |] v IH]; intros p; simpl; auto.
Qed.

Lemma bfill_notna_id {A} (v : list (option A)) :
  forallb notna v = true -> bfill v = v.
Proof.
  induction v as [| [y |] v IH]; simpl; [reflexivity | | discriminate].
  intros H. now rewrite IH.
Qed.

Lemma ffill_from_notna_id {A} (prev : option A) v :
  forallb notna v = true -> ffill_from prev v = v.
Proof.
  revert prev. induction v as [| [y |] v IH]; intros prev; simpl;
    [reflexivity | | discriminate].
  intros H. now rewrite IH.
Qed.

Lemma hd_notna {A} (v : list (option A)) :
  v <> [] -> forallb notna v = true -> notna (hd None v) = true.
Proof.
  destruct v as [| x v]; [congruence |]. simpl.
  intros _ H. now apply andb_true_iff in H.
Qed.

(** Once forward-filled and then backward-filled, a column with at least one
    observation has no missing cell. *)
Lemma bfill_ffill_notna {A} (v : list (option A)) :
  existsb notna v = true -> forallb notna (bfill (ffill v)) = true.
Proof.
  unfold ffill. induction v as [| [y |] v IH]; simpl; [discriminate | |].
  - intros _. now rewrite bfill_notna_id; apply ffill_from_Some_notna.
  - intros H. specialize (IH H). rewrite IH, andb_true_r.
    apply hd_notna; [| exact IH].
    intros Hnil. apply (f_equal (@length _)) in Hnil.
    rewrite bfill_length, ffill_from_length in Hnil.
    destruct v; [discriminate H | discriminate Hnil].
Qed.

Lemma fill_numeric_notna idx v :
  length idx = length v -> existsb notna v = true ->
  forallb notna (bfill (ffill (interpolate_time idx v))) = true.
Proof.
  intros Hlen H. apply bfill_ffill_notna. unfold interpolate_time.
  apply interpolate_from_has_obs. now rewrite combine_snd.
Qed.

(** ** The columns of the hourly series *)

Lemma get_column_map_columns f c cols :
  get_column c (map_columns f cols) = option_map f (get_column c cols).
Proof.
  induction cols as [| [n d] cols IH]; simpl; [reflexivity |].
  destruct (String.eqb n c); [reflexivity | exact IH].
Qed.

Lemma get_column_In c col cols : get_column c cols = Some col -> In (c, col) cols.
Proof.
  induction cols as [| [n d] cols IH]; simpl; [discriminate |].
  destruct (String.eqb n c) eqn:Heq.
  - apply String.eqb_eq in Heq. intros [= ->]. left. now subst.
  - intros H. right. auto.
Qed.

Lemma num_cols_not_time TIME_COL df c : In c (num_cols TIME_COL df) -> c <> TIME_COL.
Proof.
  unfold num_cols. rewrite in_map_iff. intros ([n d] & <- & Hin).
  apply filter_In in Hin. destruct Hin as [_ H]. simpl in *.
  apply andb_true_iff in H. destruct H as [_ H].
  intros ->. now rewrite String.eqb_refl in H.
Qed.

Lemma other_cols_not_time TIME_COL df c : In c (other_cols TIME_COL df) -> c <> TIME_COL.
Proof.
  unfold other_cols. intros Hin. apply filter_In in Hin. destruct Hin as [_ H].
  intros ->. apply negb_true_iff in H.
  assert (Ht : str_in TIME_COL (num_cols TIME_COL df ++ [TIME_COL]) = true).
  { apply str_in_In, in_or_app. right. now left. }
  congruence.
Qed.

Lemma group_map {R A} (f : R -> Z) (g : R -> A) (k : Z) (rows : list R) :
  group k (map f rows) (map g rows) = map g (filter (fun r => f r =? k) rows).
Proof.
  unfold group. induction rows as [| r rows IH]; simpl; [reflexivity |].
  destruct (f r =? k); simpl; now rewrite IH.
Qed.

Lemma take_rows {A} (rows : list (Z * nat)) (v : list (option A)) :
  take (map snd rows) v = map (fun r => nth (snd r) v None) rows.
Proof. unfold take. now rewrite map_map. Qed.

Lemma dropna_vals_nil {A} (g : list (option A)) :
  dropna_vals g = [] <-> existsb notna g = false.
Proof.
  induction g as [| [x |] g IH]; simpl; [tauto | | exact IH].
  split; discriminate.
Qed.

Lemma mean_notna g : existsb notna g = true -> notna (mean g) = true.
Proof.
  intros H. unfold mean. destruct (dropna_vals g) eqn:Hd; [| reflexivity].
  apply dropna_vals_nil in Hd. congruence.
Qed.

Lemma index_of_In h keys :
  In h keys -> exists j, index_of h keys = Some j /\ nth_error keys j = Some h.
Proof.
  induction keys as [| k keys IH]; simpl; [tauto |].
  destruct (k =? h) eqn:Heq.
  - apply Z.eqb_eq in Heq. subst. exists O. auto.
  - intros [-> | Hin]; [rewrite Z.eqb_refl in Heq; discriminate |].
    destruct (IH Hin) as (j & Hj & Hn). exists (S j). rewrite Hj. auto.
Qed.

Lemma reindex_vals_length {A} keys full (v : list (option A)) :
  length (reindex_vals keys full v) = length full.
Proof. unfold reindex_vals. apply length_map. Qed.

Lemma reindex_has_obs {A} (f : Z -> option A) keys full k :
  In k keys -> In k full -> notna (f k) = true ->
  existsb notna (reindex_vals keys full (map f keys)) = true.
Proof.
  intros Hk Hfull Hf. apply existsb_exists. exists (f k). split; [| exact Hf].
  unfold reindex_vals. apply in_map_iff. exists k. split; [| exact Hfull].
  destruct (index_of_In _ _ Hk) as (j & -> & Hn).
  apply nth_error_nth. now rewrite nth_error_map, Hn.
Qed.

Lemma observed_row ts v :
  observed ts v = true ->
  exists i t x, nth_error ts i = Some (Some t) /\ nth_error v i = Some (Some x).
Proof.
  unfold observed. revert v. induction ts as [| o ts IH]; intros [| y v]; simpl;
    try discriminate.
  destruct o as [t |], y as [x |]; simpl.
  - intros _. exists O, t, x. auto.
  - intros H. destruct (IH _ H) as (i & t' & x' & H1 & H2). exists (S i), t', x'. auto.
  - intros H. destruct (IH _ H) as (i & t' & x' & H1 & H2). exists (S i), t', x'. auto.
  - intros H. destruct (IH _ H) as (i & t' & x' & H1 & H2). exists (S i), t', x'. auto.
Qed.

(** The hourly mean of a column observed in a parsed row is present for the
    hour of that row. *)
Lemma hourly_mean_observed parse_datetime tc v :
  observed (to_datetime parse_datetime tc) v = true ->
  exists k,
    In k (group_keys (row_hours (sorted_rows parse_datetime tc)))
    /\ notna (mean (group k (row_hours (sorted_rows parse_datetime tc))
                      (take (map snd (sorted_rows parse_datetime tc)) v))) = true.
Proof.
  intros Hobs. destruct (observed_row _ _ Hobs) as (i & t & x & Ht & Hx).
  assert (Hrow : In (t, i) (sorted_rows parse_datetime tc)).
  { unfold sorted_rows. eapply Permutation_in; [symmetry; apply sort_values_perm |].
    apply valid_rows_In. rewrite Nat.sub_0_r. split; [lia | exact Ht]. }
  exists (floor_hour t). split.
  - apply group_keys_In. unfold row_hours. apply in_map_iff. now exists (t, i).
  - apply mean_notna. unfold row_hours. rewrite take_rows, group_map.
    apply existsb_exists. exists (Some x). split; [| reflexivity].
    apply in_map_iff. exists (t, i). split.
    + simpl. now apply nth_error_nth.
    + apply filter_In. split; [exact Hrow | apply Z.eqb_refl].
Qed.

Lemma in_map_columns f c col cols :
  In (c, col) (map_columns f cols) <-> exists col0, In (c, col0) cols /\ col = f col0.
Proof.
  unfold map_columns. rewrite in_map_iff. split.
  - intros ([n d] & [= <- <-] & Hin). now exists d.
  - intros (col0 & Hin & ->). now exists (c, col0).
Qed.

(** Where a numeric column of the hourly series comes from: a numeric column
    of the table, other than the time column, averaged by hour, put on the
    full index and filled. *)
Lemma dfh_numeric_column TARGET parse_datetime TIME_COL df dfh c v :
  normalize TARGET parse_datetime TIME_COL df = Ok dfh ->
  In (c, NumCol v) (columns dfh) ->
  exists tc lo hi v_raw,
    get_column TIME_COL df = Some tc
    /\ c <> TIME_COL
    /\ get_column c df = Some (NumCol v_raw)
    /\ index dfh = date_range lo hi
    /\ (forall k, In k (group_keys (row_hours (sorted_rows parse_datetime tc))) ->
                  In k (date_range lo hi))
    /\ v = bfill (ffill (interpolate_time (date_range lo hi)
             (reindex_vals (group_keys (row_hours (sorted_rows parse_datetime tc)))
                (date_range lo hi)
                (map (fun k => mean (group k (row_hours (sorted_rows parse_datetime tc))
                                       (take (map snd (sorted_rows parse_datetime tc)) v_raw)))
                     (group_keys (row_hours (sorted_rows parse_datetime tc))))))).
Proof.
  intros Hn Hin.
  destruct (normalize_Ok _ _ _ _ _ Hn) as (tc & lo & hi & Htc & Hlo & Hhi & _ & Hdfh).
  destruct (keys_bounds _ _ _ _ Hlo Hhi) as (_ & _ & _ & _ & Hsub).
  assert (Hidx : index dfh = date_range lo hi) by (rewrite Hdfh; reflexivity).
  rewrite Hdfh in Hin. cbn [columns] in Hin.
  apply in_map_columns in Hin. destruct Hin as (c3 & Hin & E3).
  apply in_map_columns in Hin. destruct Hin as (c2 & Hin & E2).
  apply in_map_columns in Hin. destruct Hin as (c1 & Hin & E1).
  unfold groupby_agg in Hin. cbn [snd] in Hin.
  apply in_flat_map in Hin. destruct Hin as (n & Hn_in & Hin).
  rewrite get_column_map_columns in Hin.
  destruct (get_column n df) as [col_raw |] eqn:Hraw; simpl in Hin; [| tauto].
  destruct Hin as [[= -> <-] | []].
  exists tc, lo, hi.
  destruct col_raw as [v_raw | s_raw].
  - exists v_raw. simpl in E1, E2, E3. subst c2 c3. injection E3 as ->.
    split; [exact Htc |]. split.
    { apply in_app_or in Hn_in. destruct Hn_in as [H | H];
        [eapply num_cols_not_time | eapply other_cols_not_time]; exact H. }
    split; [exact Hraw |]. split; [exact Hidx |]. split; [exact Hsub | reflexivity].
  - simpl in E1, E2, E3. subst c2 c3.
    cbn [fill_numeric fill_other] in E3.
    destruct (existsb _ _) in E3; discriminate.
Qed.

(** A numeric column of the hourly series is filled when the table has a
    value of it in a row whose timestamp parses. *)
Lemma numeric_column_filled TARGET parse_datetime TIME_COL df dfh c v :
  normalize TARGET parse_datetime TIME_COL df = Ok dfh ->
  numeric_columns_observed parse_datetime TIME_COL df = true ->
  In (c, NumCol v) (columns dfh) ->
  forallb notna v = true.
Proof.
  intros Hn Hobs Hin.
  destruct (dfh_numeric_column _ _ _ _ _ _ _ Hn Hin)
    as (tc & lo & hi & v_raw & Htc & Hne & Hraw & Hidx & Hsub & ->).
  unfold numeric_columns_observed in Hobs. rewrite Htc in Hobs.
  rewrite forallb_forall in Hobs.
  specialize (Hobs _ (get_column_In _ _ _ Hraw)). cbn [fst snd numeric_col] in Hobs.
  apply orb_true_iff in Hobs. destruct Hobs as [Heq | Hobs];
    [apply String.eqb_eq in Heq; contradiction |].
  destruct (hourly_mean_observed _ _ _ Hobs) as (k & Hk & Hmean).
  apply fill_numeric_notna; [now rewrite reindex_vals_length |].
  apply (reindex_has_obs
           (fun k => mean (group k (row_hours (sorted_rows parse_datetime tc))
                             (take (map snd (sorted_rows parse_datetime tc)) v_raw)))
           _ _ k);
    auto.
Qed.

Lemma normalize_index_name TARGET parse_datetime TIME_COL df dfh :
  normalize TARGET parse_datetime TIME_COL df = Ok dfh -> index_name dfh = TIME_COL.
Proof.
  intros Hn.
  destruct (normalize_Ok _ _ _ _ _ Hn) as (? & ? & ? & _ & _ & _ & _ & ->).
  reflexivity.
Qed.

(** C5, amended: when every numeric column of the table has a value in
    some row whose timestamp parses, no numeric cell of the hourly series
    that the load returns is missing. *)
Theorem load_dfh_no_missing (TARGET : string) (parse_datetime : scalar -> option Z)
        (df : csv_frame) (dfh : DataFrame) :
  load_dfh TARGET parse_datetime df = Ok dfh ->
  numeric_columns_observed parse_datetime (index_name dfh) df = true ->
  no_numeric_missing dfh = true.
Proof.
  intros Hload Hobs. apply load_dfh_Ok in Hload. destruct Hload as (TC & _ & Hn).
  rewrite (normalize_index_name _ _ _ _ _ Hn) in Hobs.
  unfold no_numeric_missing.
  apply forallb_forall. intros [c [v | s]] Hin; [| reflexivity]. cbn [snd numeric_col].
  eapply numeric_column_filled; eauto.
Qed.

(** *** Examples of loads *)

Example example_dfh_index :
  load_dfh "PM2.5" example_parser example_csv = Ok example_dfh
  /\ index_name example_dfh = "Date"%string
  /\ map Some (index example_dfh)
     = map iso_datetime ["2024-01-01 00:00:00"; "2024-01-01 01:00:00";
                         "2024-01-01 02:00:00"; "2024-01-01 03:00:00"]%string
  /\ map fst (columns example_dfh) = ["PM2.5"; "station"]%string.
Proof. repeat split; vm_compute; reflexivity. Qed.

(** On the load of [example_csv]. *)
Lemma load_dfh_index_contiguous_witness :
  exists tc lo hi,
    get_column (index_name example_dfh) example_csv = Some tc
    /\ (In lo (observed_hours example_parser tc)
        /\ Forall (Z.le lo) (observed_hours example_parser tc))
    /\ (In hi (observed_hours example_parser tc)
        /\ Forall (fun h => h <= hi) (observed_hours example_parser tc))
    /\ hd_error (index example_dfh) = Some lo
    /\ nth (length (index example_dfh) - 1) (index example_dfh) 0 = hi
    /\ (forall i, (S i < length (index example_dfh))%nat ->
                  nth (S i) (index example_dfh) 0 = nth i (index example_dfh) 0 + HOUR)
    /\ NoDup (index example_dfh)
    /\ (forall t, In t (index example_dfh) <-> lo <= t <= hi /\ t mod HOUR = 0).
Proof.
  apply (load_dfh_index_contiguous "PM2.5" example_parser example_csv example_dfh).
  vm_compute. reflexivity.
Defined.

(** On the load of [example_csv], whose only numeric column has values in
    rows that parse. *)
Lemma load_dfh_no_missing_witness :
  load_dfh "PM2.5" example_parser example_csv = Ok example_dfh
  /\ numeric_columns_observed example_parser (index_name example_dfh) example_csv = true
  /\ no_numeric_missing example_dfh = true.
Proof.
  assert (H1 : load_dfh "PM2.5" example_parser example_csv = Ok example_dfh)
    by (vm_compute; reflexivity).
  assert (H2 : numeric_columns_observed example_parser (index_name example_dfh)
                 example_csv = true) by (vm_compute; reflexivity).
  split; [exact H1 |]. split; [exact H2 |].
  exact (load_dfh_no_missing "PM2.5" example_parser example_csv example_dfh H1 H2).
Defined.

Example unparsed_csv_load :
  load_dfh "PM2.5" example_parser unparsed_csv
  = Ok {| index_name := "Date";
          index := [1704067200000000000];
          columns := [("PM2.5"%string, NumCol [None])] |}.
Proof. vm_compute. reflexivity. Qed.

(** C5 as stated does not hold: a value in some row of every numeric column
    is not enough. *)
Lemma load_dfh_no_missing_counterexample :
  ~ (forall TARGET parse_datetime df dfh,
        load_dfh TARGET parse_datetime df = Ok dfh ->
        numeric_columns_nonempty (index_name dfh) df = true ->
        no_numeric_missing dfh = true).
Proof.
  intros H.
  specialize (H "PM2.5"%string example_parser unparsed_csv _ unparsed_csv_load).
  vm_compute in H. specialize (H eq_refl). discriminate H.
Qed.

(** ** The feature builder *)

Lemma row_complete_iff cols i :
  row_complete cols i = true <-> forall n c, In (n, c) cols -> cell_ok i c = true.
Proof.
  unfold row_complete. rewrite forallb_forall. split.
  - intros H n c Hin. apply (H (n, c) Hin).
  - intros H [n c] Hin. apply (H n c Hin).
Qed.

Lemma set_column_In_new n c cols : In (n, c) (set_column n c cols).
Proof.
  induction cols as [| [m d] cols IH]; simpl; [now left |].
  destruct (String.eqb m n); [now left | now right].
Qed.

Lemma set_column_In_other n c m d cols :
  In (m, d) cols -> m <> n -> In (m, d) (set_column n c cols).
Proof.
  intros Hin Hne. induction cols as [| [m' d'] cols IH]; simpl; [tauto |].
  destruct (String.eqb m' n) eqn:Heq.
  - apply String.eqb_eq in Heq. subst m'.
    destruct Hin as [[= <- <-] | Hin]; [contradiction | now right].
  - destruct Hin as [Hin | Hin]; [now left | right; auto].
Qed.

Lemma set_column_In_inv n c m d cols :
  In (m, d) (set_column n c cols) -> (m, d) = (n, c) \/ In (m, d) cols.
Proof.
  induction cols as [| [m' d'] cols IH]; simpl.
  - intros [H | []]. now left.
  - destruct (String.eqb m' n); simpl.
    + intros [H | H]; [now left | now right; right].
    + intros [H | H]; [now right; left |].
      destruct (IH H); [now left | now right; right].
Qed.

Lemma get_column_set_column m n c cols :
  get_column m (set_column n c cols)
  = if String.eqb n m then Some c else get_column m cols.
Proof.
  induction cols as [| [m' d'] cols IH]; simpl.
  - destruct (String.eqb n m); reflexivity.
  - destruct (String.eqb m' n) eqn:Hn; simpl.
    + apply String.eqb_eq in Hn. subst m'.
      destruct (String.eqb n m); reflexivity.
    + destruct (String.eqb m' m) eqn:Hm; [| exact IH].
      destruct (String.eqb n m) eqn:Hnm; [| reflexivity].
      apply String.eqb_eq in Hm, Hnm. subst.
      rewrite String.eqb_refl in Hn. discriminate.
Qed.

Lemma assign_app l1 l2 f : assign (l1 ++ l2) f = assign l2 (assign l1 f).
Proof. apply fold_left_app. Qed.

Lemma assign_complete i l : forall f,
  row_complete f i = true ->
  (forall p, In p l -> cell_ok i (snd p) = true) ->
  row_complete (assign l f) i = true.
Proof.
  induction l as [| [n c] l IH]; intros f Hf Hl; simpl; [exact Hf |].
  apply IH; [| intros p Hp; apply Hl; now right].
  apply row_complete_iff. intros m d Hin.
  destruct (set_column_In_inv _ _ _ _ _ Hin) as [[= -> ->] | Hin'].
  - apply (Hl (n, c)). now left.
  - rewrite row_complete_iff in Hf. eauto.
Qed.

Lemma assign_In_kept l : forall f n c,
  In (n, c) f -> (forall p, In p l -> fst p <> n) -> In (n, c) (assign l f).
Proof.
  induction l as [| [m d] l IH]; intros f n c Hin Hl; simpl; [exact Hin |].
  apply IH; [| intros p Hp; apply Hl; now right].
  apply set_column_In_other; [exact Hin |].
  intros ->. apply (Hl (m, d)); [now left | reflexivity].
Qed.

Lemma get_column_assign_other l : forall f m,
  (forall p, In p l -> fst p <> m) -> get_column m (assign l f) = get_column m f.
Proof.
  induction l as [| [n c] l IH]; intros f m Hl; simpl; [reflexivity |].
  rewrite IH by (intros p Hp; apply Hl; now right).
  rewrite get_column_set_column.
  destruct (String.eqb n m) eqn:Heq; [| reflexivity].
  apply String.eqb_eq in Heq. exfalso. apply (Hl (n, c)); [now left | exact Heq].
Qed.

Lemma append_inj_l (s a b : string) : (s ++ a = s ++ b)%string -> a = b.
Proof. induction s as [| ch s IH]; simpl; [auto |]. intros [= H]. auto. Qed.

Lemma append_ne_self (s a : string) : a <> ""%string -> (s ++ a)%string <> s.
Proof.
  intros Ha H. apply Ha. apply (append_inj_l s).
  rewrite H. clear. induction s as [| ch s IH]; simpl; [reflexivity | now f_equal].
Qed.

(** *** The cells of the derived columns *)

Lemma nth_map_seq {A} (F : nat -> A) (n i : nat) (d : A) :
  (i < n)%nat -> nth i (map F (seq 0 n)) d = F i.
Proof.
  intros Hi. rewrite (nth_indep _ d (F O)) by (now rewrite length_map, length_seq).
  rewrite (map_nth F), seq_nth by exact Hi. reflexivity.
Qed.

Lemma shift_length {A} L (v : list (option A)) : length (shift L v) = length v.
Proof.
  unfold shift. rewrite length_firstn, length_app, repeat_length. lia.
Qed.

Lemma shift_nth {A} L (v : list (option A)) i :
  (i < length v)%nat ->
  nth i (shift L v) None = if (i <? L)%nat then None else nth (i - L) v None.
Proof.
  intros Hi. unfold shift. rewrite nth_firstn.
  apply Nat.ltb_lt in Hi. rewrite Hi.
  destruct (i <? L)%nat eqn:HL.
  - apply Nat.ltb_lt in HL. rewrite app_nth1 by (now rewrite repeat_length).
    apply nth_repeat.
  - apply Nat.ltb_ge in HL. rewrite app_nth2 by (rewrite repeat_length; lia).
    now rewrite repeat_length.
Qed.

Lemma forallb_firstn {A} (f : A -> bool) n l :
  forallb f l = true -> forallb f (firstn n l) = true.
Proof.
  intros H. rewrite <- (firstn_skipn n l), forallb_app in H.
  now apply andb_true_iff in H.
Qed.

Lemma forallb_skipn {A} (f : A -> bool) n l :
  forallb f l = true -> forallb f (skipn n l) = true.
Proof.
  intros H. rewrite <- (firstn_skipn n l), forallb_app in H.
  now apply andb_true_iff in H.
Qed.

Lemma dropna_vals_length {A} (l : list (option A)) :
  forallb notna l = true -> length (dropna_vals l) = length l.
Proof.
  induction l as [| [x |] l IH]; simpl; [reflexivity | | discriminate].
  intros H. now rewrite IH.
Qed.

(** On a column without missing value the window of [w] rows ending at row
    [i] holds [min (i + 1) w] observations. *)
Lemma window_length w i v :
  forallb notna v = true -> (i < length v)%nat ->
  length (window w i v) = Nat.min (i + 1) w.
Proof.
  intros Hv Hi. unfold window.
  rewrite dropna_vals_length by now apply forallb_skipn, forallb_firstn.
  rewrite length_skipn, length_firstn. lia.
Qed.

Lemma nth_notna {A} (v : list (option A)) i :
  forallb notna v = true -> (i < length v)%nat -> notna (nth i v None) = true.
Proof.
  intros Hv Hi. rewrite forallb_forall in Hv. apply Hv. now apply nth_In.
Qed.

(** *** The feature frame as a sequence of assignments *)

Lemma add_time_features_assign f :
  columns (add_time_features f) = assign (time_columns (index f)) (columns f).
Proof. reflexivity. Qed.

Lemma add_lags_assign target c lags : forall f,
  get_column target f = Some c ->
  add_lags target lags f = Ok (assign (lag_columns target c lags) f).
Proof.
  induction lags as [| L lags IH]; intros f Hc; simpl; [reflexivity |].
  unfold getitem. rewrite Hc. cbn [bind]. apply IH.
  rewrite get_column_set_column.
  destruct (String.eqb _ target) eqn:Heq; [| exact Hc].
  apply String.eqb_eq in Heq. apply append_ne_self in Heq; [tauto | discriminate].
Qed.

Lemma rolling_Ok target w f v :
  get_column target f = Some (NumCol v) -> (1 <= w)%nat ->
  rolling target w f = Ok (Nat.max 1 (w / 2), v).
Proof.
  intros Hc Hw. unfold rolling, getitem. rewrite Hc. cbn [bind].
  assert (Hle : (w / 2 <= w)%nat) by (apply Nat.Div0.div_le_upper_bound; lia).
  destruct (w <? Nat.max 1 (w / 2))%nat eqn:Hlt; [| reflexivity].
  apply Nat.ltb_lt in Hlt. lia.
Qed.

Lemma add_rolls_assign sqrt target v rolls : forall f,
  get_column target f = Some (NumCol v) ->
  Forall (fun w => (1 <= w)%nat) rolls ->
  add_rolls sqrt target rolls f = Ok (assign (roll_columns sqrt target v rolls) f).
Proof.
  assert (Hkeep : forall f n c suffix,
             get_column target f = Some (NumCol v) -> suffix <> ""%string ->
             n = (target ++ suffix)%string ->
             get_column target (set_column n c f) = Some (NumCol v)).
  { intros f n c suffix Hc Hs ->. rewrite get_column_set_column.
    destruct (String.eqb _ target) eqn:Heq; [| exact Hc].
    apply String.eqb_eq in Heq. now apply append_ne_self in Heq. }
  induction rolls as [| w rolls IH]; intros f Hc Hw; simpl; [reflexivity |].
  inversion Hw as [| ? ? Hw1 Hws]; subst.
  rewrite (rolling_Ok _ _ _ _ Hc Hw1). cbn [bind fst snd].
  rewrite (rolling_Ok target w _ v); [| | exact Hw1].
  - cbn [bind fst snd]. apply IH; [| exact Hws].
    eapply Hkeep; [| | reflexivity]; [| discriminate].
    eapply Hkeep; [exact Hc | | reflexivity]. discriminate.
  - eapply Hkeep; [exact Hc | | reflexivity]. discriminate.
Qed.

Lemma build_feature_view_Ok TARGET sqrt f v :
  get_column TARGET (columns (add_time_features f)) = Some (NumCol v) ->
  build_feature_view TARGET sqrt f
  = Ok (dropna (feature_frame sqrt TARGET v f),
        filter (fun c => negb (String.eqb c TARGET))
               (map fst (columns (dropna (feature_frame sqrt TARGET v f))))).
Proof.
  intros Hc. unfold build_feature_view, add_lags_rolls.
  rewrite (add_lags_assign _ _ _ _ Hc). cbn [bind].
  rewrite (add_rolls_assign sqrt TARGET v).
  - reflexivity.
  - rewrite get_column_assign_other; [exact Hc |].
    intros p Hp. unfold lag_columns in Hp. apply in_map_iff in Hp.
    destruct Hp as (L & <- & _). cbn [fst]. apply append_ne_self. discriminate.
  - unfold default_rolls. repeat constructor; lia.
Qed.

(** *** Which rows are complete *)

Lemma col_notna_cell_ok c i :
  col_notna c = true -> (i < col_length c)%nat -> cell_ok i c = true.
Proof.
  unfold cell_ok. destruct c as [v | v]; simpl; intros Hc Hi;
    apply (nth_notna _ _ Hc Hi).
Qed.

Lemma no_missing_complete f i :
  no_missing f = true -> (i < n_rows f)%nat -> row_complete (columns f) i = true.
Proof.
  intros Hf Hi. apply row_complete_iff. intros n c Hin.
  unfold no_missing in Hf. rewrite forallb_forall in Hf.
  specialize (Hf _ Hin). cbn [snd] in Hf. apply andb_true_iff in Hf.
  destruct Hf as [Hlen Hc]. apply Nat.eqb_eq in Hlen.
  apply col_notna_cell_ok; [exact Hc | lia].
Qed.

Lemma int_col_ok l i : (i < length l)%nat -> cell_ok i (int_col l) = true.
Proof.
  intros Hi. apply col_notna_cell_ok; simpl; [| now rewrite length_map].
  apply forallb_forall. intros x Hx. apply in_map_iff in Hx.
  now destruct Hx as (z & <- & _).
Qed.

Lemma int_col_notna l : forallb notna (map (fun z => Some (inject_Z z)) l) = true.
Proof.
  apply forallb_forall. intros x Hx. apply in_map_iff in Hx.
  now destruct Hx as (z & <- & _).
Qed.

Lemma time_columns_ok idx i p :
  (i < length idx)%nat -> In p (time_columns idx) -> cell_ok i (snd p) = true.
Proof.
  intros Hi Hp. unfold time_columns in Hp. cbn [In] in Hp.
  destruct Hp as [<- | [<- | [<- | [<- | []]]]]; cbn [snd];
    apply int_col_ok; now rewrite ?length_map.
Qed.

(** The target column when the calendar columns are in place: the column of
    the frame, or a calendar column of that name. *)
Lemma target_after_time TARGET f v :
  get_column TARGET (columns f) = Some (NumCol v) ->
  exists v1,
    get_column TARGET (columns (add_time_features f)) = Some (NumCol v1)
    /\ (v1 = v \/ (length v1 = n_rows f /\ forallb notna v1 = true)).
Proof.
  intros Hv. rewrite add_time_features_assign.
  unfold assign, time_columns. cbn [fold_left fst snd].
  rewrite !get_column_set_column, Hv. unfold int_col, n_rows.
  repeat match goal with
         | |- context [String.eqb ?a TARGET] => destruct (String.eqb a TARGET)
         end;
    eexists; (split; [reflexivity |]);
    first [ now left
          | right; split; [now rewrite ?length_map | apply int_col_notna] ].
Qed.

Lemma lag_columns_ok v L i :
  forallb notna v = true -> (i < length v)%nat -> (L <= i)%nat ->
  cell_ok i (shift_col L (NumCol v)) = true.
Proof.
  intros Hv Hi HL. unfold cell_ok. cbn [shift_col cell_at cell_isna].
  rewrite shift_nth by exact Hi.
  destruct (i <? L)%nat eqn:Hlt; [apply Nat.ltb_lt in Hlt; lia |].
  fold (notna (nth (i - L) v None)). apply nth_notna; [exact Hv | lia].
Qed.

Lemma lag_column_warmup {A} (v : list (option A)) L i :
  notna (nth i (shift L v) None) = true -> (L <= i)%nat.
Proof.
  intros H. destruct (Nat.lt_ge_cases i (length v)) as [Hi | Hi].
  - rewrite shift_nth in H by exact Hi.
    destruct (i <? L)%nat eqn:Hlt; [discriminate |]. now apply Nat.ltb_ge in Hlt.
  - rewrite nth_overflow in H by (now rewrite shift_length). discriminate.
Qed.

Lemma rolling_mean_ok w m v i :
  forallb notna v = true -> (i < length v)%nat -> (m <= Nat.min (i + 1) w)%nat ->
  cell_ok i (NumCol (rolling_mean w m v)) = true.
Proof.
  intros Hv Hi Hm. unfold cell_ok, rolling_mean. cbn [cell_at cell_isna].
  rewrite nth_map_seq by exact Hi. rewrite window_length by assumption.
  apply Nat.leb_le in Hm. now rewrite Hm.
Qed.

Lemma rolling_std_ok sqrt w m v i :
  forallb notna v = true -> (i < length v)%nat ->
  (m <= Nat.min (i + 1) w)%nat -> (2 <= Nat.min (i + 1) w)%nat ->
  cell_ok i (NumCol (rolling_std sqrt w m v)) = true.
Proof.
  intros Hv Hi Hm H2. unfold cell_ok, rolling_std. cbn [cell_at cell_isna].
  rewrite nth_map_seq by exact Hi. rewrite window_length by assumption.
  apply Nat.leb_le in Hm, H2. now rewrite Hm, H2.
Qed.

Lemma roll_columns_ok sqrt target v i p :
  forallb notna v = true -> (i < length v)%nat -> (24 <= i)%nat ->
  In p (roll_columns sqrt target v default_rolls) -> cell_ok i (snd p) = true.
Proof.
  intros Hv Hi H24 Hp. unfold roll_columns, default_rolls in Hp.
  cbn [flat_map app In] in Hp.
  repeat (destruct Hp as [<- | Hp]; cbn [snd];
          [first [ apply rolling_mean_ok | apply rolling_std_ok ]; auto;
           cbn [Nat.div Nat.divmod fst Nat.max]; lia |]).
  destruct Hp.
Qed.

Lemma lag24_in_feature_frame sqrt target v f :
  In ((target ++ "_lag" ++ str_of_nat 24)%string, NumCol (shift 24 v))
     (columns (feature_frame sqrt target v f)).
Proof.
  unfold feature_frame. cbn [columns]. apply assign_In_kept.
  - unfold default_lags, lag_columns, assign. cbn [map fold_left fst snd shift_col].
    apply set_column_In_new.
  - intros p Hp. unfold roll_columns, default_rolls in Hp.
    cbn [flat_map app In] in Hp.
    repeat (destruct Hp as [<- | Hp];
            [cbn [fst]; intros H; apply append_inj_l in H; vm_compute in H;
             discriminate H |]).
    destruct Hp.
Qed.

(** The rows of the first 24 hours are never complete. *)
Lemma feature_frame_warmup sqrt target v f i :
  row_complete (columns (feature_frame sqrt target v f)) i = true -> (24 <= i)%nat.
Proof.
  intros H. rewrite row_complete_iff in H.
  specialize (H _ _ (lag24_in_feature_frame sqrt target v f)).
  unfold cell_ok in H. cbn [cell_at cell_isna] in H.
  now apply lag_column_warmup in H.
Qed.

(** In a frame without missing value the other rows are complete. *)
Lemma feature_frame_complete sqrt target v f i :
  no_missing f = true -> length v = n_rows f -> forallb notna v = true ->
  (i < n_rows f)%nat -> (24 <= i)%nat ->
  row_complete (columns (feature_frame sqrt target v f)) i = true.
Proof.
  intros Hf Hlen Hv Hi H24. unfold feature_frame. cbn [columns].
  apply assign_complete; [apply assign_complete; [apply assign_complete |] |].
  - now apply no_missing_complete.
  - intros p Hp. eapply time_columns_ok; [exact Hi | exact Hp].
  - intros p Hp. unfold lag_columns in Hp. apply in_map_iff in Hp.
    destruct Hp as (L & <- & HL). cbn [snd].
    apply lag_columns_ok; [exact Hv | lia |].
    unfold default_lags in HL. cbn [In] in HL. lia.
  - intros p Hp. eapply roll_columns_ok; eauto. lia.
Qed.

Lemma filter_nil {A} (P : A -> bool) l :
  (forall x, In x l -> P x = false) -> filter P l = [].
Proof.
  induction l as [| x l IH]; intros H; simpl; [reflexivity |].
  rewrite (H x) by now left. apply IH. intros y Hy. apply H. now right.
Qed.

Lemma filter_all {A} (P : A -> bool) l :
  (forall x, In x l -> P x = true) -> filter P l = l.
Proof.
  induction l as [| x l IH]; intros H; simpl; [reflexivity |].
  rewrite (H x) by now left. f_equal. apply IH. intros y Hy. apply H. now right.
Qed.

Lemma filter_seq_from (P : nat -> bool) k n :
  (forall i, (i < n)%nat -> P i = (k <=? i)%nat) ->
  filter P (seq 0 n) = seq k (n - k).
Proof.
  intros H. destruct (Nat.le_gt_cases k n) as [Hk | Hk].
  - replace n with (k + (n - k))%nat at 1 by lia.
    rewrite seq_app, filter_app. cbn [Nat.add].
    rewrite filter_nil, filter_all; [reflexivity | |].
    + intros i Hi. apply in_seq in Hi. rewrite H by lia. apply Nat.leb_le; lia.
    + intros i Hi. apply in_seq in Hi. rewrite H by lia. apply Nat.leb_gt; lia.
  - replace (n - k)%nat with O by lia. apply filter_nil.
    intros i Hi. apply in_seq in Hi. rewrite H by lia. apply Nat.leb_gt. lia.
Qed.

Lemma map_nth_seq_skipn {A} (d : A) l : forall k,
  map (fun i => nth i l d) (seq k (length l - k)) = skipn k l.
Proof.
  induction l as [| x l IH]; intros k.
  - destruct k; reflexivity.
  - destruct k as [| k].
    + cbn [length Nat.sub seq map nth skipn]. f_equal.
      rewrite <- seq_shift, map_map. cbn [nth].
      specialize (IH O). rewrite Nat.sub_0_r in IH. exact IH.
    + cbn [length Nat.sub skipn]. rewrite <- seq_shift, map_map. cbn [nth].
      apply IH.
Qed.

(** The view of a frame without missing value: the rows from the 25th on. *)
Lemma dropna_feature_frame sqrt target v f :
  no_missing f = true -> length v = n_rows f -> forallb notna v = true ->
  index (dropna (feature_frame sqrt target v f)) = skipn 24 (index f).
Proof.
  intros Hf Hlen Hv. unfold dropna, select_rows. cbn [index].
  unfold n_rows at 1. cbn [index].
  rewrite (filter_seq_from _ 24).
  - apply map_nth_seq_skipn.
  - intros i Hi. destruct (24 <=? i)%nat eqn:H24.
    + apply Nat.leb_le in H24. now apply feature_frame_complete.
    + apply Nat.leb_gt in H24.
      destruct (row_complete _ i) eqn:Hrc; [| reflexivity].
      apply feature_frame_warmup in Hrc. lia.
Qed.

(** The view of a short frame has no row. *)
Lemma dropna_feature_frame_short sqrt target v f :
  (n_rows f <= 24)%nat -> index (dropna (feature_frame sqrt target v f)) = [].
Proof.
  intros Hn. unfold dropna, select_rows. cbn [index].
  rewrite filter_nil; [reflexivity |].
  intros i Hi. apply in_seq in Hi.
  unfold n_rows, feature_frame in Hi. cbn [index] in Hi.
  destruct (row_complete _ i) eqn:Hrc; [| reflexivity].
  apply feature_frame_warmup in Hrc. unfold n_rows in Hn. lia.
Qed.

(** C4, amended: for a frame of at least 25 rows whose target column is
    numeric and in which no column has a missing value, the feature builder
    with its default lags and windows returns the rows from the 25th on:
    exactly the first 24 rows are dropped. *)
Theorem build_feature_view_rows (TARGET : string) (sqrt : Q -> Q) (f : DataFrame) :
  no_missing f = true ->
  numeric_target TARGET f = true ->
  (25 <= n_rows f)%nat ->
  exists Xy features,
    build_feature_view TARGET sqrt f = Ok (Xy, features)
    /\ n_rows Xy = (n_rows f - 24)%nat
    /\ index Xy = skipn 24 (index f).
Proof.
  intros Hf Ht _. unfold numeric_target in Ht.
  destruct (get_column TARGET (columns f)) as [[v | ?] |] eqn:Hv; try discriminate.
  apply Nat.eqb_eq in Ht.
  assert (Hnotna : forallb notna v = true).
  { unfold no_missing in Hf. rewrite forallb_forall in Hf.
    specialize (Hf _ (get_column_In _ _ _ Hv)). cbn [snd] in Hf.
    now apply andb_true_iff in Hf. }
  destruct (target_after_time _ _ _ Hv) as (v1 & Hv1 & Hcase).
  assert (Hv1' : length v1 = n_rows f /\ forallb notna v1 = true)
    by (destruct Hcase as [-> | H]; auto).
  destruct Hv1' as [Hlen1 Hnotna1].
  eexists _, _. split; [apply (build_feature_view_Ok _ _ _ _ Hv1) |].
  assert (Hidx := dropna_feature_frame sqrt TARGET v1 f Hf Hlen1 Hnotna1).
  split; [| exact Hidx].
  unfold n_rows at 1. rewrite Hidx, length_skipn. reflexivity.
Qed.

(** A frame of at most 24 rows gives a view without any row. *)
Lemma build_feature_view_short (TARGET : string) (sqrt : Q -> Q) (f : DataFrame) :
  numeric_target TARGET f = true ->
  (n_rows f <= 24)%nat ->
  exists Xy features,
    build_feature_view TARGET sqrt f = Ok (Xy, features) /\ n_rows Xy = O.
Proof.
  intros Ht Hn. unfold numeric_target in Ht.
  destruct (get_column TARGET (columns f)) as [[v | ?] |] eqn:Hv; try discriminate.
  destruct (target_after_time _ _ _ Hv) as (v1 & Hv1 & _).
  eexists _, _. split; [apply (build_feature_view_Ok _ _ _ _ Hv1) |].
  unfold n_rows. now rewrite dropna_feature_frame_short.
Qed.

(** ** The prediction endpoint *)

(** C1, amended: when the feature view has no row, [api_predict] raises the
    [IndexError] of [iloc[[-1]]] on the empty view, whatever the model is; it
    returns no prediction. *)
Theorem api_predict_empty_view (TARGET : string) (sqrt : Q -> Q)
        (model_predict : list (string * cell) -> option Q)
        (dfh Xy : DataFrame) (features : list string) :
  build_feature_view TARGET sqrt dfh = Ok (Xy, features) ->
  n_rows Xy = O ->
  api_predict TARGET sqrt model_predict dfh = Raise (LibraryError "IndexError").
Proof.
  intros Hview Hrows. unfold api_predict. rewrite Hview. cbn [bind].
  unfold iloc_last, n_rows, select_columns. cbn [index].
  unfold n_rows in Hrows. now rewrite Hrows.
Qed.

(** *** Examples of series *)

Example ramp_csv_with_empty_column_load :
  load_dfh "PM2.5" example_parser (ramp_csv_with_empty_column 25)
  = Ok (ramp_series_with_empty_column 25).
Proof. vm_compute. reflexivity. Qed.

(** On a series of 30 hours: six rows remain. *)
Lemma build_feature_view_rows_witness :
  exists Xy features,
    build_feature_view "PM2.5" example_sqrt (ramp_series 30) = Ok (Xy, features)
    /\ n_rows Xy = (n_rows (ramp_series 30) - 24)%nat
    /\ index Xy = skipn 24 (index (ramp_series 30)).
Proof.
  apply (build_feature_view_rows "PM2.5" example_sqrt (ramp_series 30)).
  - vm_compute. reflexivity.
  - vm_compute. reflexivity.
  - vm_compute. lia.
Defined.

(** C4 as stated does not hold: a target column without missing value is
    not enough, another column may still make [dropna] drop rows. *)
Lemma build_feature_view_rows_counterexample :
  ~ (forall TARGET sqrt f Xy features,
        target_no_missing TARGET f = true ->
        (25 <= n_rows f)%nat ->
        build_feature_view TARGET sqrt f = Ok (Xy, features) ->
        n_rows Xy = (n_rows f - 24)%nat).
Proof.
  intros H.
  destruct (build_feature_view "PM2.5" example_sqrt (ramp_series_with_empty_column 25))
    as [[Xy features] | e] eqn:Hview; [| vm_compute in Hview; discriminate Hview].
  assert (Hrows : n_rows Xy = O).
  { vm_compute in Hview. injection Hview as <- _. reflexivity. }
  specialize (H "PM2.5"%string example_sqrt (ramp_series_with_empty_column 25) Xy features).
  rewrite Hrows in H. vm_compute in H.
  assert (H1 : (25 <= 25)%nat) by lia.
  specialize (H eq_refl H1 Hview). discriminate H.
Qed.

(** A hundred hours with the values 100, ..., 199: the row handed to the
    model has the value 198 of the hour before, and a prediction is returned. *)
Example end_to_end_100_rows :
  exists p,
    api_predict "PM2.5" example_sqrt example_model (ramp_series 100) = Ok p
    /\ option_map Qred (next_hour_prediction_ugm3 p) = Some 198%Q
    /\ next_hour_prediction_aqi p = Some 248.
Proof. eexists. split; [vm_compute; reflexivity |]. split; reflexivity. Qed.

(** On a series of 10 hours. *)
Lemma api_predict_empty_view_witness :
  exists Xy features,
    build_feature_view "PM2.5" example_sqrt (ramp_series 10) = Ok (Xy, features)
    /\ n_rows Xy = O
    /\ api_predict "PM2.5" example_sqrt example_model (ramp_series 10)
       = Raise (LibraryError "IndexError").
Proof.
  destruct (build_feature_view "PM2.5" example_sqrt (ramp_series 10))
    as [[Xy features] | e] eqn:Hview; [| vm_compute in Hview; discriminate Hview].
  assert (Hrows : n_rows Xy = O).
  { vm_compute in Hview. injection Hview as <- _. reflexivity. }
  exists Xy, features. split; [reflexivity |]. split; [exact Hrows |].
  exact (api_predict_empty_view "PM2.5" example_sqrt example_model
           (ramp_series 10) Xy features Hview Hrows).
Defined.

(** C1 as stated does not hold: on a view without rows the handler does not
    fail with an exception of the class [DataUnavailableError]. *)
Lemma api_predict_empty_view_counterexample :
  ~ (forall TARGET sqrt model_predict dfh Xy features,
        build_feature_view TARGET sqrt dfh = Ok (Xy, features) ->
        n_rows Xy = O ->
        exists e, api_predict TARGET sqrt model_predict dfh = Raise e
                  /\ exc_class e = "DataUnavailableError"%string).
Proof.
  intros H.
  destruct (build_feature_view_short "PM2.5" example_sqrt (ramp_series 10))
    as (Xy & features & Hview & Hrows); [reflexivity | vm_compute; lia |].
  destruct (H "PM2.5"%string example_sqrt example_model (ramp_series 10) Xy features
              Hview Hrows) as (e & He & Hclass).
  assert (Hraise : api_predict "PM2.5" example_sqrt example_model (ramp_series 10)
                   = Raise (LibraryError "IndexError")) by (vm_compute; reflexivity).
  rewrite Hraise in He.
  injection He as <-. discriminate Hclass.
Qed.

(** ** Loading a series that is already hourly *)

Lemma sort_values_valid_rows idx : forall start,
  StronglySorted Z.lt idx ->
  sort_values (valid_rows start (map Some idx)) = combine idx (seq start (length idx)).
Proof.
  induction idx as [| t idx IH]; intros start Hs; [reflexivity |].
  inversion Hs as [| ? ? Hs' Hall]; subst.
  cbn [map valid_rows length seq combine]. unfold sort_values in *.
  cbn [fold_right]. rewrite (IH (S start) Hs').
  destruct idx as [| t' idx]; [reflexivity |].
  cbn [length seq combine insert_row fst].
  inversion Hall as [| ? ? Hlt _]; subst.
  destruct (t <=? t') eqn:Hle; [reflexivity | apply Z.leb_gt in Hle; lia].
Qed.

Lemma group_keys_sorted idx : StronglySorted Z.lt idx -> group_keys idx = idx.
Proof.
  induction idx as [| k idx IH]; intros Hs; [reflexivity |].
  inversion Hs as [| ? ? Hs' Hall]; subst.
  unfold group_keys in *. cbn [fold_right]. rewrite (IH Hs').
  destruct idx as [| k' idx]; [reflexivity |].
  inversion Hall as [| ? ? Hlt _]; subst. cbn [insert_key].
  apply Z.ltb_lt in Hlt. now rewrite Hlt.
Qed.

Lemma map_floor_hour_aligned idx :
  Forall (fun t => t mod HOUR = 0) idx -> map floor_hour idx = idx.
Proof.
  induction 1 as [| t idx Ht _ IH]; [reflexivity |].
  cbn [map]. now rewrite floor_hour_fixed, IH.
Qed.

Lemma take_seq {A} (v : list (option A)) : take (seq 0 (length v)) v = v.
Proof.
  unfold take. pose proof (map_nth_seq_skipn None v O) as H.
  now rewrite Nat.sub_0_r in H.
Qed.

Lemma group_absent {A} k idx (v : list A) : ~ In k idx -> group k idx v = [].
Proof.
  unfold group. revert v. induction idx as [| k' idx IH]; intros [| x v] Hk;
    try reflexivity.
  cbn [combine filter fst].
  destruct (k' =? k) eqn:Heq.
  - apply Z.eqb_eq in Heq. subst. exfalso. apply Hk. now left.
  - apply IH. intros H. apply Hk. now right.
Qed.

(** With one row for each key the groups are the single cells. *)
Lemma map_group_singletons {A B} (F : list A -> B) idx : forall v,
  NoDup idx -> length v = length idx ->
  map (fun k => F (group k idx v)) idx = map (fun x => F [x]) v.
Proof.
  induction idx as [| k idx IH]; intros [| x v] Hnd Hlen; try discriminate;
    [reflexivity |].
  inversion Hnd as [| ? ? Hk Hnd']; subst. injection Hlen as Hlen.
  cbn [map]. f_equal.
  - unfold group. cbn [combine filter fst]. rewrite Z.eqb_refl. cbn [map snd].
    fold (group k idx v). now rewrite group_absent.
  - rewrite <- (IH v Hnd' Hlen). apply map_ext_in. intros k' Hk'.
    unfold group. cbn [combine filter fst].
    destruct (k =? k') eqn:Heq; [| reflexivity].
    apply Z.eqb_eq in Heq. subst. contradiction.
Qed.

Lemma Qmean_single (x : Q) : (Qsum [x] / inject_Z (Z.of_nat 1))%Q = x.
Proof.
  destruct x as [n d]. unfold Qsum, Qdiv, Qmult, Qplus, Qinv. simpl.
  rewrite !Z.mul_1_r, ?Pos.mul_1_r. reflexivity.
Qed.

Lemma mean_single (o : option Q) : notna o = true -> mean [o] = o.
Proof.
  destruct o as [x |]; [| discriminate]. intros _. unfold mean.
  cbn [dropna_vals length]. now rewrite Qmean_single.
Qed.

Lemma last_valid_single {A} (o : option A) : last_valid [o] = o.
Proof. now destruct o. Qed.

Lemma map_id_in {A} (f : A -> A) l : (forall x, In x l -> f x = x) -> map f l = l.
Proof.
  intros H. rewrite <- (map_id l) at 2. now apply map_ext_in.
Qed.

Lemma aggregate_hourly idx c :
  NoDup idx -> col_length c = length idx -> col_notna c = true ->
  aggregate idx idx c = c.
Proof.
  intros Hnd Hlen Hc. destruct c as [v | v]; cbn [aggregate]; f_equal;
    rewrite (map_group_singletons _ idx v Hnd Hlen); apply map_id_in;
    intros o Ho.
  - apply mean_single. cbn [col_notna] in Hc. rewrite forallb_forall in Hc. auto.
  - apply last_valid_single.
Qed.

Lemma reindex_vals_same {A} idx : forall v : list (option A),
  NoDup idx -> length v = length idx -> reindex_vals idx idx v = v.
Proof.
  unfold reindex_vals.
  induction idx as [| k idx IH]; intros [| x v] Hnd Hlen; try discriminate;
    [reflexivity |].
  inversion Hnd as [| ? ? Hk Hnd']; subst. injection Hlen as Hlen.
  cbn [map index_of]. rewrite Z.eqb_refl. cbn [nth]. f_equal.
  etransitivity; [| apply (IH v Hnd' Hlen)]. apply map_ext_in. intros h Hh.
  destruct (k =? h) eqn:Heq; [apply Z.eqb_eq in Heq; subst; contradiction |].
  now destruct (index_of h idx).
Qed.

Lemma reindex_col_same idx c :
  NoDup idx -> col_length c = length idx -> reindex_col idx idx c = c.
Proof.
  intros Hnd Hlen. destruct c as [v | v]; cbn [reindex_col]; f_equal;
    now apply reindex_vals_same.
Qed.

Lemma notna_no_isna {A} (v : list (option A)) :
  forallb notna v = true -> existsb isna v = false.
Proof.
  induction v as [| [x |] v IH]; simpl; auto.
Qed.

Lemma fill_complete idx c :
  col_length c = length idx -> col_notna c = true ->
  fill_other (fill_numeric idx c) = c.
Proof.
  intros Hlen Hc. destruct c as [v | v]; cbn [fill_numeric fill_other].
  - cbn [col_notna col_length] in *. unfold interpolate_time, ffill.
    assert (Hs : map snd (combine idx v) = v) by (apply combine_snd; auto).
    rewrite interpolate_from_notna by (rewrite Hs; exact Hc). rewrite Hs.
    now rewrite ffill_from_notna_id, bfill_notna_id.
  - cbn [col_notna] in Hc. now rewrite (notna_no_isna _ Hc).
Qed.

Lemma numeric_first_perm cols : Permutation (numeric_first cols) cols.
Proof.
  unfold numeric_first. induction cols as [| p cols IH]; [reflexivity |].
  cbn [filter]. destruct (is_num (snd p)); cbn [negb app].
  - now constructor.
  - symmetry. apply Permutation_cons_app. now symmetry.
Qed.

Lemma get_column_NoDup c col cols :
  NoDup (map fst cols) -> In (c, col) cols -> get_column c cols = Some col.
Proof.
  induction cols as [| [n d] cols IH]; cbn [map fst In get_column]; [tauto |].
  intros Hnd Hin. inversion Hnd as [| ? ? Hn Hnd']; subst.
  destruct Hin as [[= -> ->] | Hin]; [now rewrite String.eqb_refl |].
  destruct (String.eqb n c) eqn:Heq; [| auto].
  apply String.eqb_eq in Heq. subst. exfalso. apply Hn.
  apply in_map_iff. now exists (c, col).
Qed.

Lemma get_column_None c cols :
  ~ In c (map fst cols) -> get_column c cols = None.
Proof.
  induction cols as [| [n d] cols IH]; cbn [map fst In get_column]; [reflexivity |].
  intros H. destruct (String.eqb n c) eqn:Heq.
  - apply String.eqb_eq in Heq. tauto.
  - apply IH. tauto.
Qed.

Lemma get_column_perm c cols cols' :
  Permutation cols' cols -> NoDup (map fst cols) ->
  get_column c cols' = get_column c cols.
Proof.
  intros Hp Hnd.
  assert (Hnd' : NoDup (map fst cols')).
  { eapply Permutation_NoDup; [| exact Hnd]. symmetry. now apply Permutation_map. }
  destruct (get_column c cols) as [col |] eqn:Hc.
  - apply get_column_NoDup; [exact Hnd' |].
    eapply Permutation_in; [symmetry; exact Hp |]. now apply get_column_In.
  - apply get_column_None. intros Hin.
    assert (Hin' : In c (map fst cols))
      by (eapply Permutation_in; [apply Permutation_map; exact Hp | exact Hin]).
    apply in_map_iff in Hin'. destruct Hin' as ([n d] & <- & Hin').
    cbn [fst] in Hc. rewrite (get_column_NoDup _ _ _ Hnd Hin') in Hc. discriminate.
Qed.

Lemma map_columns_id f cols :
  (forall p, In p cols -> f (snd p) = snd p) -> map_columns f cols = cols.
Proof.
  intros H. unfold map_columns. apply map_id_in.
  intros [n d] Hin. cbn [fst snd]. f_equal. apply (H _ Hin).
Qed.

Lemma map_columns_compose f g cols :
  map_columns f (map_columns g cols) = map_columns (fun c => f (g c)) cols.
Proof. unfold map_columns. rewrite map_map. reflexivity. Qed.

Lemma take_col_seq c : take_col (seq 0 (col_length c)) c = c.
Proof. destruct c as [v | v]; cbn [take_col col_length]; now rewrite take_seq. Qed.

(** The names that line 30 and line 31 select, for a table whose time column
    comes first and whose other columns have distinct names. *)
Lemma num_cols_table TIME_COL tc cols :
  ~ In TIME_COL (map fst cols) ->
  num_cols TIME_COL ((TIME_COL, tc) :: cols)
  = map fst (filter (fun p => is_num (snd p)) cols).
Proof.
  intros Hne. unfold num_cols. cbn [filter fst snd].
  rewrite String.eqb_refl, andb_false_r. f_equal.
  apply filter_ext_in. intros [n d] Hin. cbn [fst snd].
  destruct (String.eqb n TIME_COL) eqn:Heq; [| now rewrite andb_true_r].
  apply String.eqb_eq in Heq. subst. exfalso. apply Hne.
  apply in_map_iff. now exists (TIME_COL, d).
Qed.

Lemma filter_map_fst {A B} (P : A -> bool) (l : list (A * B)) :
  filter P (map fst l) = map fst (filter (fun p => P (fst p)) l).
Proof.
  induction l as [| [a b] l IH]; cbn [map filter fst]; [reflexivity |].
  destruct (P a); cbn [map fst]; now rewrite IH.
Qed.

Lemma NoDup_fst_inj {A B} (l : list (A * B)) a b b' :
  NoDup (map fst l) -> In (a, b) l -> In (a, b') l -> b = b'.
Proof.
  induction l as [| [x y] l IH]; cbn [map fst In]; [tauto |].
  intros Hnd H1 H2. inversion Hnd as [| ? ? Hx Hnd']; subst.
  destruct H1 as [E1 | H1], H2 as [E2 | H2]; [congruence | | | auto].
  - injection E1 as -> ->. exfalso. apply Hx. apply in_map_iff. now exists (a, b').
  - injection E2 as -> ->. exfalso. apply Hx. apply in_map_iff. now exists (a, b).
Qed.

Lemma other_cols_table TIME_COL tc cols :
  ~ In TIME_COL (map fst cols) -> NoDup (map fst cols) ->
  other_cols TIME_COL ((TIME_COL, tc) :: cols)
  = map fst (filter (fun p => negb (is_num (snd p))) cols).
Proof.
  intros Hne Hnd. unfold other_cols. rewrite (num_cols_table _ _ _ Hne).
  cbn [map fst filter].
  assert (Ht : str_in TIME_COL
                 (map fst (filter (fun p => is_num (snd p)) cols) ++ [TIME_COL]) = true).
  { apply str_in_In, in_or_app. right. now left. }
  rewrite Ht. cbn [negb]. rewrite filter_map_fst. f_equal.
  apply filter_ext_in. intros [n d] Hin. cbn [fst snd]. f_equal.
  apply eq_true_iff_eq. rewrite str_in_In, in_app_iff. split.
  - intros [H | [H | []]].
    + apply in_map_iff in H. destruct H as ([n' d'] & Hn' & H).
      cbn [fst] in Hn'. subst n'. apply filter_In in H. destruct H as [H Hnum].
      cbn [snd] in Hnum. now rewrite (NoDup_fst_inj _ _ _ _ Hnd Hin H).
    + subst. exfalso. apply Hne. apply in_map_iff. now exists (n, d).
  - intros Hnum. left. apply in_map_iff. exists (n, d). split; [reflexivity |].
    apply filter_In. auto.
Qed.

Lemma flat_map_get_column (F : column -> column) df : forall l,
  (forall p, In p l -> get_column (fst p) df = Some (snd p)) ->
  flat_map (fun c => match get_column c df with
                     | Some col => [(c, F col)]
                     | None => []
                     end) (map fst l)
  = map_columns F l.
Proof.
  induction l as [| [n d] l IH]; intros H; [reflexivity |].
  cbn [map fst flat_map].
  pose proof (H (n, d) (or_introl eq_refl)) as Hnd. cbn [fst snd] in Hnd.
  rewrite Hnd. cbn [app map_columns map fst snd]. f_equal. apply IH.
  intros p Hp. apply H. now right.
Qed.

Lemma hourly_run_date_range lo hi idx :
  hourly_run lo hi idx -> date_range lo hi = idx.
Proof.
  intros (n & -> & ->). unfold date_range. do 2 f_equal.
  replace (lo + HOUR * Z.of_nat n - lo) with (Z.of_nat n * HOUR) by lia.
  rewrite Z.div_mul by discriminate. lia.
Qed.

Lemma hourly_run_min_max lo hi idx :
  lo mod HOUR = 0 -> hourly_run lo hi idx ->
  list_min idx = Some lo /\ list_max idx = Some hi.
Proof.
  intros Hal Hrun.
  assert (Hin : forall t, In t idx <-> lo <= t <= hi /\ t mod HOUR = 0)
    by (intros t; now apply hourly_run_In).
  assert (Hne : idx <> []) by (destruct Hrun as (n & -> & _); discriminate).
  assert (Hhi : hi mod HOUR = 0).
  { destruct Hrun as (n & _ & ->).
    rewrite Z.add_mod, Hal, (Z.mul_comm HOUR), Z.mod_mul by discriminate.
    reflexivity. }
  assert (Hle : lo <= hi).
  { destruct Hrun as (n & _ & ->). unfold HOUR. lia. }
  destruct (list_min idx) as [x |] eqn:Hmin; [| destruct idx; [tauto | discriminate]].
  destruct (list_max idx) as [y |] eqn:Hmax; [| destruct idx; [tauto | discriminate]].
  apply list_min_spec in Hmin. apply list_max_spec in Hmax.
  destruct Hmin as [Hx Hxall], Hmax as [Hy Hyall].
  rewrite Forall_forall in Hxall, Hyall.
  assert (Hlo_in : In lo idx) by (apply Hin; lia).
  assert (Hhi_in : In hi idx) by (apply Hin; lia).
  apply Hin in Hx, Hy. specialize (Hxall _ Hlo_in). specialize (Hyall _ Hhi_in).
  split; f_equal; lia.
Qed.

Lemma hourly_series_load TARGET parse_datetime h tc :
  hourly_series h ->
  str_in TARGET (map fst (columns h)) = true ->
  to_datetime parse_datetime tc = map Some (index h) ->
  load_dfh TARGET parse_datetime ((index_name h, tc) :: columns h)
  = Ok {| index_name := index_name h;
          index := index h;
          columns := numeric_first (columns h) |}.
Proof.
  intros ((lo & hi & Hal & Hrun) & Hnm & Hnd & Htn & Hni) Htarget Hparse.
  destruct h as [TC idx cols]. cbn [index_name index columns] in *.
  assert (Hsorted : StronglySorted Z.lt idx) by (eapply hourly_run_sorted; eauto).
  assert (Hidx_nd : NoDup idx) by (eapply hourly_run_NoDup; eauto).
  assert (Haligned : Forall (fun t => t mod HOUR = 0) idx).
  { apply Forall_forall. intros t Ht.
    now apply (hourly_run_In lo hi idx t Hal Hrun) in Ht. }
  assert (Hcols : forall p, In p cols ->
                    col_length (snd p) = length idx /\ col_notna (snd p) = true).
  { intros p Hp. unfold no_missing in Hnm. rewrite forallb_forall in Hnm.
    specialize (Hnm p Hp). apply andb_true_iff in Hnm. destruct Hnm as [H1 H2].
    apply Nat.eqb_eq in H1. auto. }
  assert (Hpart : forall p, In p (numeric_first cols) -> In p cols).
  { intros p. apply Permutation_in, numeric_first_perm. }
  rewrite load_dfh_unfold. cbn [map fst find]. rewrite Htn.
  unfold normalize. cbn [get_column]. rewrite String.eqb_refl, Hparse.
  rewrite (sort_values_valid_rows idx 0 Hsorted).
  assert (Hg : groupby_agg TC
                 (map (fun r => floor_hour (fst r)) (combine idx (seq 0 (length idx))))
                 (map_columns (take_col (map snd (combine idx (seq 0 (length idx)))))
                    ((TC, tc) :: cols))
               = (idx, numeric_first cols)).
  { unfold groupby_agg.
    rewrite <- (map_map fst floor_hour), combine_fst by (now rewrite length_seq).
    rewrite combine_snd by (now rewrite length_seq).
    rewrite (map_floor_hour_aligned _ Haligned), (group_keys_sorted _ Hsorted).
    assert (Hdf : map_columns (take_col (seq 0 (length idx))) ((TC, tc) :: cols)
                  = (TC, take_col (seq 0 (length idx)) tc) :: cols).
    { unfold map_columns. cbn [map fst snd]. f_equal.
      apply (map_columns_id _ cols).
      intros p Hp. destruct (Hcols p Hp) as [<- _]. apply take_col_seq. }
    rewrite Hdf. f_equal.
    rewrite (num_cols_table _ _ _ Hni), (other_cols_table _ _ _ Hni Hnd), <- map_app.
    fold (numeric_first cols).
    rewrite (flat_map_get_column (aggregate idx idx)).
    - apply map_columns_id. intros p Hp. destruct (Hcols p (Hpart p Hp)).
      now apply aggregate_hourly.
    - intros [n d] Hp. cbn [get_column fst snd].
      destruct (String.eqb TC n) eqn:Heq.
      + apply String.eqb_eq in Heq. subst. exfalso. apply Hni.
        apply in_map_iff. exists (n, d). split; [reflexivity | now apply Hpart].
      + apply get_column_NoDup; [exact Hnd | now apply Hpart]. }
  rewrite Hg.
  destruct (hourly_run_min_max _ _ _ Hal Hrun) as [-> ->].
  rewrite (hourly_run_date_range _ _ _ Hrun).
  rewrite !map_columns_compose.
  rewrite (map_columns_id _ (numeric_first cols)).
  - unfold py_assert.
    assert (Ht : str_in TARGET (map fst (numeric_first cols)) = true).
    { apply str_in_In. apply str_in_In in Htarget.
      eapply Permutation_in; [| exact Htarget].
      symmetry. apply Permutation_map, numeric_first_perm. }
    rewrite Ht. reflexivity.
  - intros p Hp. destruct (Hcols p (Hpart p Hp)) as [Hlen Hc].
    rewrite reindex_col_same by assumption. now apply fill_complete.
Qed.

(** C7: loading a table that is already a valid hourly series returns that
    series: the same index under the same name and, under every column name,
    the same column.  The columns are listed with the numeric ones first,
    which is the order of every series the load builds. *)
Theorem load_dfh_idempotent (TARGET : string) (parse_datetime : scalar -> option Z)
        (h : DataFrame) (tc : column) :
  hourly_series h ->
  str_in TARGET (map fst (columns h)) = true ->
  to_datetime parse_datetime tc = map Some (index h) ->
  exists h',
    load_dfh TARGET parse_datetime ((index_name h, tc) :: columns h) = Ok h'
    /\ index_name h' = index_name h
    /\ index h' = index h
    /\ (forall c, get_column c (columns h') = get_column c (columns h))
    /\ columns h' = numeric_first (columns h).
Proof.
  intros Hh Ht Hp. eexists. split; [now apply hourly_series_load |].
  cbn [index_name index columns]. repeat split.
  intros c. apply get_column_perm; [apply numeric_first_perm | apply Hh].
Qed.

(** When its numeric columns come first the series is returned as it is. *)
Corollary load_dfh_idempotent_exact (TARGET : string)
          (parse_datetime : scalar -> option Z) (h : DataFrame) (tc : column) :
  hourly_series h ->
  str_in TARGET (map fst (columns h)) = true ->
  to_datetime parse_datetime tc = map Some (index h) ->
  numeric_first (columns h) = columns h ->
  load_dfh TARGET parse_datetime ((index_name h, tc) :: columns h) = Ok h.
Proof.
  intros Hh Ht Hp Hnf. rewrite (hourly_series_load _ _ _ _ Hh Ht Hp), Hnf.
  now destruct h.
Qed.

(** On [example_dfh], written back as a table. *)
Lemma load_dfh_idempotent_witness :
  exists h',
    load_dfh "PM2.5" example_parser
             ((index_name example_dfh, example_time_cells) :: columns example_dfh)
    = Ok h'
    /\ index_name h' = index_name example_dfh
    /\ index h' = index example_dfh
    /\ (forall c, get_column c (columns h') = get_column c (columns example_dfh))
    /\ columns h' = numeric_first (columns example_dfh).
Proof.
  apply (load_dfh_idempotent "PM2.5" example_parser example_dfh example_time_cells).
  - repeat split.
    + exists 1704067200000000000, 1704078000000000000. split; [reflexivity |].
      exists 3%nat. split; reflexivity.
    + cbn. repeat constructor; cbn; intuition discriminate.
    + cbn. intuition discriminate.
  - reflexivity.
  - reflexivity.
Defined.

Example example_dfh_reload :
  load_dfh "PM2.5" example_parser
           ((index_name example_dfh, example_time_cells) :: columns example_dfh)
  = Ok example_dfh.
Proof. vm_compute. reflexivity. Qed.

(** *** The order of the columns of a loaded series *)

Lemma numeric_first_app l1 l2 :
  (forall p, In p l1 -> is_num (snd p) = true) ->
  (forall p, In p l2 -> is_num (snd p) = false) ->
  numeric_first (l1 ++ l2) = l1 ++ l2.
Proof.
  intros H1 H2. unfold numeric_first. rewrite !filter_app.
  rewrite (filter_all _ l1 H1), (filter_nil _ l2 H2), app_nil_r.
  rewrite (filter_nil _ l1), (filter_all _ l2); [reflexivity | |].
  - intros p Hp. now rewrite (H2 p Hp).
  - intros p Hp. now rewrite (H1 p Hp).
Qed.

Lemma is_num_aggregate keys times c : is_num (aggregate keys times c) = is_num c.
Proof. now destruct c. Qed.

Lemma is_num_fill keys idx c :
  is_num (fill_other (fill_numeric idx (reindex_col keys idx c))) = is_num c.
Proof.
  destruct c as [v | v]; cbn [reindex_col fill_numeric fill_other is_num];
    [reflexivity |].
  now destruct (existsb _ _).
Qed.

(** The columns of a series that the load returns are listed with the numeric
    ones first, when the names of the table are distinct. *)
Lemma load_dfh_columns_numeric_first TARGET parse_datetime df dfh :
  load_dfh TARGET parse_datetime df = Ok dfh ->
  NoDup (map fst df) ->
  numeric_first (columns dfh) = columns dfh.
Proof.
  intros Hload Hnd. apply load_dfh_Ok in Hload. destruct Hload as (TC & _ & Hn).
  destruct (normalize_Ok _ _ _ _ _ Hn) as (tc & lo & hi & _ & _ & _ & _ & ->).
  cbn [columns]. rewrite !map_columns_compose. unfold groupby_agg. cbn [snd].
  set (rows := sorted_rows parse_datetime tc).
  set (df' := map_columns (take_col (map snd rows)) df).
  assert (Hnd' : NoDup (map fst df')).
  { unfold df', map_columns. rewrite map_map. cbn [fst]. exact Hnd. }
  rewrite flat_map_app. unfold map_columns. rewrite map_app.
  apply numeric_first_app.
  - intros p Hp. apply in_map_iff in Hp. destruct Hp as ([n d] & <- & Hp).
    cbn [fst snd]. rewrite is_num_fill.
    apply in_flat_map in Hp. destruct Hp as (c & Hc & Hp).
    destruct (get_column c df') as [col |] eqn:Hcol; [| destruct Hp].
    destruct Hp as [[= <- <-] | []]. rewrite is_num_aggregate.
    unfold num_cols in Hc. apply in_map_iff in Hc. destruct Hc as ([c' col'] & Hc' & Hf).
    cbn [fst] in Hc'. subst c'. apply filter_In in Hf. destruct Hf as [Hin Hnum].
    cbn [fst snd] in Hnum. apply andb_true_iff in Hnum. destruct Hnum as [Hnum _].
    rewrite (get_column_NoDup _ _ _ Hnd' Hin) in Hcol. now injection Hcol as <-.
  - intros p Hp. apply in_map_iff in Hp. destruct Hp as ([n d] & <- & Hp).
    cbn [fst snd]. rewrite is_num_fill.
    apply in_flat_map in Hp. destruct Hp as (c & Hc & Hp).
    destruct (get_column c df') as [col |] eqn:Hcol; [| destruct Hp].
    destruct Hp as [[= <- <-] | []]. rewrite is_num_aggregate.
    unfold other_cols in Hc. apply filter_In in Hc. destruct Hc as [_ Hc].
    apply negb_true_iff in Hc.
    destruct (is_num col) eqn:Hnum; [| reflexivity].
    assert (Hin : str_in c (num_cols TC df' ++ [TC]) = true); [| congruence].
    apply str_in_In, in_or_app.
    destruct (String.eqb c TC) eqn:Heq;
      [apply String.eqb_eq in Heq; right; now left |].
    left. unfold num_cols. apply in_map_iff. exists (c, col). split; [reflexivity |].
    apply filter_In. split; [now apply get_column_In |].
    cbn [fst snd]. now rewrite Hnum, Heq.
Qed.

(** *** Loading a loaded series again *)

Lemma no_isna_notna {A} (v : list (option A)) :
  existsb isna v = false -> forallb notna v = true.
Proof.
  induction v as [| [x |] v IH]; simpl; auto.
Qed.

Lemma fillna_notna {A} (x : A) v : forallb notna (fillna x v) = true.
Proof.
  unfold fillna. apply forallb_forall. intros o Ho. apply in_map_iff in Ho.
  destruct Ho as ([y |] & <- & _); reflexivity.
Qed.

Lemma filled_col_length keys idx c :
  col_length (fill_other (fill_numeric idx (reindex_col keys idx c))) = length idx.
Proof.
  destruct c as [v | v]; cbn [reindex_col fill_numeric fill_other col_length].
  - unfold ffill, interpolate_time.
    rewrite bfill_length, ffill_from_length, interpolate_from_length, length_combine.
    rewrite reindex_vals_length. apply Nat.min_id.
  - destruct (existsb _ _); cbn [col_length]; unfold fillna;
      rewrite ?length_map; apply reindex_vals_length.
Qed.

Lemma filled_other_notna keys idx c :
  is_num c = false ->
  col_notna (fill_other (fill_numeric idx (reindex_col keys idx c))) = true.
Proof.
  destruct c as [v | v]; [discriminate |]. intros _.
  cbn [reindex_col fill_numeric fill_other].
  destruct (existsb isna _) eqn:Hna; cbn [col_notna].
  - apply fillna_notna.
  - now apply no_isna_notna.
Qed.

Lemma NoDup_names_filter (P : string * column -> bool) (l : columns_t) :
  NoDup (map fst l) -> NoDup (map fst (filter P l)).
Proof.
  induction l as [| p l IH]; cbn [map filter]; [auto |].
  intros Hnd. inversion Hnd as [| ? ? Hp Hnd']; subst.
  destruct (P p); cbn [map]; [| auto].
  constructor; [| auto]. intros Hin. apply Hp.
  apply in_map_iff in Hin. destruct Hin as (q & Hq & Hin).
  apply filter_In in Hin. apply in_map_iff. exists q. tauto.
Qed.

Lemma agg_names_NoDup TIME_COL df :
  NoDup (map fst df) -> NoDup (num_cols TIME_COL df ++ other_cols TIME_COL df).
Proof.
  intros Hnd. apply NoDup_app.
  - now apply NoDup_names_filter.
  - now apply NoDup_filter.
  - intros c Hc Ho. unfold other_cols in Ho. apply filter_In in Ho.
    destruct Ho as [_ Ho]. apply negb_true_iff in Ho.
    assert (str_in c (num_cols TIME_COL df ++ [TIME_COL]) = true); [| congruence].
    apply str_in_In, in_or_app. now left.
Qed.

Lemma flat_map_names (G : string -> column -> column) df' : forall names,
  NoDup names ->
  NoDup (map fst (flat_map (fun c => match get_column c df' with
                                      | Some col => [(c, G c col)]
                                      | None => []
                                      end) names))
  /\ (forall c, In c (map fst (flat_map (fun c => match get_column c df' with
                                                   | Some col => [(c, G c col)]
                                                   | None => []
                                                   end) names)) -> In c names).
Proof.
  induction names as [| n names IH]; intros Hnd; cbn [flat_map map];
    [split; [constructor | tauto] |].
  inversion Hnd as [| ? ? Hn Hnd']; subst. destruct (IH Hnd') as [IH1 IH2].
  destruct (get_column n df') as [col |]; cbn [app map fst].
  - split.
    + constructor; [| exact IH1]. intros Hin. apply Hn. now apply IH2.
    + intros c [<- | Hc]; [now left | right; now apply IH2].
  - split; [exact IH1 |]. intros c Hc. right. now apply IH2.
Qed.

Lemma map_fst_map_columns f cols : map fst (map_columns f cols) = map fst cols.
Proof. unfold map_columns. rewrite map_map. reflexivity. Qed.

(** A loaded series whose numeric columns were observed is a valid hourly
    series. *)
Lemma load_dfh_hourly_series TARGET parse_datetime df dfh :
  load_dfh TARGET parse_datetime df = Ok dfh ->
  NoDup (map fst df) ->
  numeric_columns_observed parse_datetime (index_name dfh) df = true ->
  hourly_series dfh /\ str_in TARGET (map fst (columns dfh)) = true.
Proof.
  intros Hload Hnd Hobs.
  apply load_dfh_Ok in Hload. destruct Hload as (TC & Hfind & Hn).
  rewrite (normalize_index_name _ _ _ _ _ Hn) in Hobs.
  destruct (normalize_index_run _ _ _ _ _ Hn)
    as (tc & lo & hi & Htc & Hname & _ & _ & Hal & Hidx & Hrun).
  destruct (normalize_Ok _ _ _ _ _ Hn) as (tc' & lo' & hi' & _ & _ & _ & Ht & Hdfh).
  split; [| exact Ht].
  assert (Hnames : NoDup (map fst (columns dfh))
                   /\ forall c, In c (map fst (columns dfh)) -> c <> TC).
  { rewrite Hdfh. cbn [columns]. rewrite !map_fst_map_columns.
    unfold groupby_agg. cbn [snd].
    match goal with
    | |- context [flat_map _ (num_cols TC ?d ++ other_cols TC ?d)] => set (df' := d)
    end.
    assert (Hnd' : NoDup (map fst df'))
      by (unfold df'; now rewrite map_fst_map_columns).
    destruct (flat_map_names (fun _ col => aggregate
                (group_keys (row_hours (sorted_rows parse_datetime tc')))
                (row_hours (sorted_rows parse_datetime tc')) col) df'
                _ (agg_names_NoDup TC df' Hnd')) as [H1 H2].
    split; [exact H1 |]. intros c Hc. apply H2 in Hc.
    apply in_app_or in Hc. destruct Hc as [Hc | Hc];
      [eapply num_cols_not_time | eapply other_cols_not_time]; exact Hc. }
  destruct Hnames as [Hnd_h Hne_h].
  repeat split.
  - exists lo, hi. auto.
  - unfold no_missing. apply forallb_forall. intros [n c] Hin. cbn [snd].
    assert (Hshape : col_length c = n_rows dfh
                     /\ (is_num c = false -> col_notna c = true)).
    { rewrite Hdfh in Hin. cbn [columns] in Hin. rewrite !map_columns_compose in Hin.
      apply in_map_columns in Hin. destruct Hin as (c0 & _ & ->).
      rewrite Hdfh. unfold n_rows. cbn [index].
      split; [apply filled_col_length |]. rewrite is_num_fill.
      apply filled_other_notna. }
    destruct Hshape as [Hlen Hobj]. rewrite Hlen, Nat.eqb_refl. cbn [andb].
    destruct c as [v | v]; [| now apply Hobj].
    cbn [col_notna]. eapply numeric_column_filled; eauto.
  - exact Hnd_h.
  - rewrite Hname. apply find_some in Hfind. tauto.
  - rewrite Hname. intros Hin. now apply (Hne_h TC Hin).
Qed.

(** X18: loading the series that a load has returned, written out with its
    timestamps, gives that series again, cell for cell and in the same
    column order. *)
Corollary load_dfh_twice TARGET parse_datetime df dfh tc :
  load_dfh TARGET parse_datetime df = Ok dfh ->
  NoDup (map fst df) ->
  numeric_columns_observed parse_datetime (index_name dfh) df = true ->
  to_datetime parse_datetime tc = map Some (index dfh) ->
  load_dfh TARGET parse_datetime ((index_name dfh, tc) :: columns dfh) = Ok dfh.
Proof.
  intros Hload Hnd Hobs Hparse.
  destruct (load_dfh_hourly_series _ _ _ _ Hload Hnd Hobs) as [Hh Ht].
  rewrite (hourly_series_load _ _ _ _ Hh Ht Hparse).
  rewrite (load_dfh_columns_numeric_first _ _ _ _ Hload Hnd). now destruct dfh.
Qed.

(** *** When the load succeeds *)

Lemma get_column_name c cols :
  In c (map fst cols) -> exists col, get_column c cols = Some col.
Proof.
  induction cols as [| [n d] cols IH]; cbn [map fst In get_column]; [tauto |].
  intros [-> | Hin].
  - rewrite String.eqb_refl. eauto.
  - destruct (String.eqb n c); eauto.
Qed.

Lemma list_min_max_Some l : l <> [] ->
  exists lo hi, list_min l = Some lo /\ list_max l = Some hi.
Proof. destruct l; [congruence |]. cbn. eauto. Qed.


(** * Further properties *)

(** ** The AQI mapping on every concentration *)

Lemma pm25_to_aqi_hit ug b :
  scan_breaks ug _PM25_BREAKS = (py_round (interpolate_aqi ug b), txt b, cls b) ->
  pm25_to_aqi (Some ug) = (Some (py_round (interpolate_aqi ug b)), txt b, cls b).
Proof. intros H. unfold pm25_to_aqi. now rewrite H. Qed.

Lemma pm25_to_aqi_fallthrough ug :
  existsb (in_bucket ug) _PM25_BREAKS = false ->
  pm25_to_aqi (Some ug) = (Some 500, "خطِر"%string, "aqi-hazardous"%string).
Proof.
  intros H. unfold pm25_to_aqi. now rewrite (scan_breaks_fallthrough _ _ H).
Qed.

Lemma breaks_index_range b : In b _PM25_BREAKS -> 0 <= Il b /\ Ih b <= 500.
Proof.
  unfold _PM25_BREAKS. cbn [In].
  intros H. repeat (destruct H as [<- | H]; [cbn; lia |]). destruct H.
Qed.

(** The answer for a concentration: a row of the table, which holds the
    concentration when a row does, and a score between its two indices. *)
Lemma pm25_to_aqi_row (ug : Q) :
  exists b s,
    In b _PM25_BREAKS
    /\ pm25_to_aqi (Some ug) = (Some s, txt b, cls b)
    /\ Il b <= s <= Ih b
    /\ 0 <= s <= 500
    /\ ((exists b', In b' _PM25_BREAKS /\ (Cl b' <= ug <= Ch b')%Q) ->
        (Cl b <= ug <= Ch b)%Q).
Proof.
  destruct (existsb (in_bucket ug) _PM25_BREAKS) eqn:Hcov.
  - destruct (scan_breaks_hit _ _ Hcov) as (b & Hin & Hb & Hscan).
    exists b, (py_round (interpolate_aqi ug b)).
    pose proof (score_in_bucket _ _ Hin Hb). pose proof (breaks_index_range _ Hin).
    split; [exact Hin |]. split; [now apply pm25_to_aqi_hit |].
    split; [lia |]. split; [lia |]. intros _. now apply in_bucket_iff.
  - exists (Break 250.5 500.4 301 500 "خطِر" "aqi-hazardous"), 500.
    split; [unfold _PM25_BREAKS; cbn [In]; tauto |].
    split; [now apply pm25_to_aqi_fallthrough |].
    split; [cbn; lia |]. split; [lia |].
    intros (b' & Hin' & Hb'). apply in_bucket_iff in Hb'.
    assert (existsb (in_bucket ug) _PM25_BREAKS = true)
      by (apply existsb_exists; eauto).
    congruence.
Qed.

(** X1: for every concentration that is not missing the answer is the score,
    the label and the class of one row of the table, the score lies between
    the two indices of that row, and so between 0 and 500. *)
Theorem pm25_to_aqi_category_agrees (ug : Q) :
  exists b s,
    In b _PM25_BREAKS
    /\ pm25_to_aqi (Some ug) = (Some s, txt b, cls b)
    /\ Il b <= s <= Ih b
    /\ 0 <= s <= 500.
Proof.
  destruct (existsb (in_bucket ug) _PM25_BREAKS) eqn:Hcov.
  - destruct (scan_breaks_hit _ _ Hcov) as (b & Hin & Hb & Hscan).
    exists b, (py_round (interpolate_aqi ug b)).
    pose proof (score_in_bucket _ _ Hin Hb). pose proof (breaks_index_range _ Hin).
    repeat split; try lia; [exact Hin | now apply pm25_to_aqi_hit].
  - exists (Break 250.5 500.4 301 500 "خطِر" "aqi-hazardous"), 500.
    repeat split; try (cbn; lia).
    + unfold _PM25_BREAKS. cbn [In]. tauto.
    + now apply pm25_to_aqi_fallthrough.
Qed.

(** X2: the answer falls through to the last line of the function exactly
    for the concentrations below 0, above 500.4 or in one of the five open
    gaps between two rows of the table; every other concentration gets the
    label and the class of the row whose bounds hold it, and a score between
    the two indices of that row. *)
Theorem pm25_to_aqi_cases (ug : Q) :
  ((ug < 0 \/ 500.4 < ug \/ in_gap ug)%Q
   /\ pm25_to_aqi (Some ug) = (Some 500, "خطِر"%string, "aqi-hazardous"%string))
  \/ (~ (ug < 0 \/ 500.4 < ug \/ in_gap ug)%Q
      /\ exists b s, In b _PM25_BREAKS
                     /\ (Cl b <= ug <= Ch b)%Q
                     /\ pm25_to_aqi (Some ug) = (Some s, txt b, cls b)
                     /\ Il b <= s <= Ih b).
Proof.
  destruct (existsb (in_bucket ug) _PM25_BREAKS) eqn:Hcov.
  - right. split.
    + intros H. apply breaks_uncovered_iff in H. congruence.
    + destruct (pm25_to_aqi_row ug) as (b & s & Hin & Heq & Hs & _ & Hb).
      exists b, s. split; [exact Hin |]. split; [| auto].
      apply Hb. apply existsb_exists in Hcov. destruct Hcov as (b' & Hin' & Hb').
      exists b'. split; [exact Hin' | now apply in_bucket_iff].
  - left. split; [now apply breaks_uncovered_iff | now apply pm25_to_aqi_fallthrough].
Qed.

(** X3: at the lower bound of every row of the table the score is the lower
    index of the row, and at its upper bound the upper index. *)
Theorem aqi_score_at_bounds (b : breakpoint) :
  In b _PM25_BREAKS ->
  aqi_score (Cl b) = Il b /\ aqi_score (Ch b) = Ih b.
Proof.
  unfold _PM25_BREAKS. cbn [In].
  intros H. repeat (destruct H as [<- | H]; [split; reflexivity |]). destruct H.
Qed.

(** At the row of the moderate category. *)
Lemma aqi_score_at_bounds_witness :
  aqi_score 12.1 = 51 /\ aqi_score 35.4 = 100.
Proof.
  apply (aqi_score_at_bounds (Break 12.1 35.4 51 100 "متوسط" "aqi-moderate")).
  unfold _PM25_BREAKS. cbn [In]. tauto.
Defined.

(** At the concentrations 10 and 40. *)
Lemma pm25_to_aqi_monotone_in_buckets_witness : aqi_score 10 <= aqi_score 40.
Proof.
  apply (pm25_to_aqi_monotone_in_buckets 10 40); [discriminate | reflexivity | reflexivity].
Defined.

(** ** The outcome of the load *)

Lemma num_cols_map_columns f TIME_COL df :
  (forall c, is_num (f c) = is_num c) ->
  num_cols TIME_COL (map_columns f df) = num_cols TIME_COL df.
Proof.
  intros Hf. unfold num_cols, map_columns.
  induction df as [| [n d] df IH]; cbn [map filter fst snd]; [reflexivity |].
  rewrite Hf. destruct (is_num d && _); cbn [map fst]; now rewrite IH.
Qed.

Lemma other_cols_map_columns f TIME_COL df :
  (forall c, is_num (f c) = is_num c) ->
  other_cols TIME_COL (map_columns f df) = other_cols TIME_COL df.
Proof.
  intros Hf. unfold other_cols.
  now rewrite (num_cols_map_columns f TIME_COL df Hf), map_fst_map_columns.
Qed.

Lemma is_num_take_col pos c : is_num (take_col pos c) = is_num c.
Proof. now destruct c. Qed.

Lemma agg_names_spec TIME_COL df c :
  In c (num_cols TIME_COL df ++ other_cols TIME_COL df)
  <-> In c (map fst df) /\ c <> TIME_COL.
Proof.
  split.
  - intros H. apply in_app_or in H. destruct H as [H | H].
    + split; [| now apply (num_cols_not_time _ _ _ H)].
      unfold num_cols in H. apply in_map_iff in H. destruct H as (p & <- & Hp).
      apply filter_In in Hp. now apply in_map.
    + split; [| now apply (other_cols_not_time _ _ _ H)].
      unfold other_cols in H. now apply filter_In in H.
  - intros [Hin Hne]. apply in_or_app.
    destruct (str_in c (num_cols TIME_COL df ++ [TIME_COL])) eqn:Hs.
    + apply str_in_In, in_app_or in Hs. destruct Hs as [Hs | [Hs | []]];
        [now left | congruence].
    + right. unfold other_cols. apply filter_In. split; [exact Hin |].
      now rewrite Hs.
Qed.

Lemma flat_map_names_all (G : string -> column -> column) df : forall names,
  (forall c, In c names -> In c (map fst df)) ->
  map fst (flat_map (fun c => match get_column c df with
                              | Some col => [(c, G c col)]
                              | None => []
                              end) names) = names.
Proof.
  induction names as [| n names IH]; intros H; [reflexivity |].
  cbn [flat_map]. destruct (get_column_name n df (H n (or_introl eq_refl))) as (col & ->).
  cbn [app map fst]. f_equal. apply IH. intros c Hc. apply H. now right.
Qed.

(** The names of the columns of the hourly series. *)
Lemma normalize_names TARGET parse_datetime TIME_COL df dfh :
  normalize TARGET parse_datetime TIME_COL df = Ok dfh ->
  map fst (columns dfh) = num_cols TIME_COL df ++ other_cols TIME_COL df.
Proof.
  intros Hn.
  destruct (normalize_Ok _ _ _ _ _ Hn) as (tc & lo & hi & _ & _ & _ & _ & ->).
  cbn [columns]. rewrite !map_fst_map_columns. unfold groupby_agg. cbn [snd].
  rewrite (num_cols_map_columns _ _ _ (is_num_take_col _)).
  rewrite (other_cols_map_columns _ _ _ (is_num_take_col _)).
  apply (flat_map_names_all (fun _ col => aggregate _ _ col)).
  intros c Hc. rewrite map_fst_map_columns. now apply agg_names_spec in Hc.
Qed.



(** ** The shape of a loaded series *)

(** X6: the columns of a loaded series are the columns of the table other
    than the time column, the numeric ones first: no column is lost and none
    is added. *)
Theorem load_dfh_column_names (TARGET : string) (parse_datetime : scalar -> option Z)
        (df : csv_frame) (dfh : DataFrame) :
  load_dfh TARGET parse_datetime df = Ok dfh ->
  map fst (columns dfh)
  = num_cols (index_name dfh) df ++ other_cols (index_name dfh) df
  /\ (forall c, In c (map fst (columns dfh))
                <-> In c (map fst df) /\ c <> index_name dfh).
Proof.
  intros Hload. apply load_dfh_Ok in Hload. destruct Hload as (TC & _ & Hn).
  rewrite (normalize_index_name _ _ _ _ _ Hn).
  rewrite (normalize_names _ _ _ _ _ Hn). split; [reflexivity |].
  intros c. apply agg_names_spec.
Qed.

(** On the load of [example_csv]. *)
Lemma load_dfh_column_names_witness :
  map fst (columns example_dfh)
  = num_cols (index_name example_dfh) example_csv
    ++ other_cols (index_name example_dfh) example_csv
  /\ (forall c, In c (map fst (columns example_dfh))
                <-> In c (map fst example_csv) /\ c <> index_name example_dfh).
Proof.
  apply (load_dfh_column_names "PM2.5" example_parser example_csv example_dfh).
  vm_compute. reflexivity.
Defined.

(** X7: in a loaded series every column has one cell for each hour of the
    index, and no cell of a column that is not numeric is missing. *)
Theorem load_dfh_shape (TARGET : string) (parse_datetime : scalar -> option Z)
        (df : csv_frame) (dfh : DataFrame) :
  load_dfh TARGET parse_datetime df = Ok dfh ->
  (forall c col, In (c, col) (columns dfh) -> col_length col = n_rows dfh)
  /\ (forall c v, In (c, ObjCol v) (columns dfh) -> forallb notna v = true).
Proof.
  intros Hload. apply load_dfh_Ok in Hload. destruct Hload as (TC & _ & Hn).
  destruct (normalize_Ok _ _ _ _ _ Hn) as (tc & lo & hi & _ & _ & _ & _ & ->).
  unfold n_rows. cbn [columns index]. rewrite !map_columns_compose. split.
  - intros c col Hin. apply in_map_columns in Hin. destruct Hin as (c0 & _ & ->).
    apply filled_col_length.
  - intros c v Hin. apply in_map_columns in Hin. destruct Hin as (c0 & _ & Hv).
    assert (Hobj : is_num c0 = false).
    { rewrite <- (is_num_fill
                    (group_keys (row_hours (sorted_rows parse_datetime tc)))
                    (date_range lo hi) c0), <- Hv. reflexivity. }
    pose proof (filled_other_notna
                  (group_keys (row_hours (sorted_rows parse_datetime tc)))
                  (date_range lo hi) c0 Hobj) as H.
    rewrite <- Hv in H. exact H.
Qed.

(** On the load of [example_csv], whose column [station] has an empty cell
    and two hours without record. *)
Lemma load_dfh_shape_witness :
  (forall c col, In (c, col) (columns example_dfh) -> col_length col = n_rows example_dfh)
  /\ (forall c v, In (c, ObjCol v) (columns example_dfh) -> forallb notna v = true).
Proof.
  apply (load_dfh_shape "PM2.5" example_parser example_csv example_dfh).
  vm_compute. reflexivity.
Defined.

(** ** The values of a loaded series *)

Lemma interpolate_from_keeps prev pts i x :
  nth_error (map snd pts) i = Some (Some x) ->
  nth_error (interpolate_from prev pts) i = Some (Some x).
Proof.
  revert prev i. induction pts as [| [t [y |]] pts IH]; intros prev [| i]; simpl;
    try discriminate; auto.
Qed.

Lemma ffill_from_keeps {A} (prev : option A) v i x :
  nth_error v i = Some (Some x) -> nth_error (ffill_from prev v) i = Some (Some x).
Proof.
  revert prev i. induction v as [| [y |] v IH]; intros prev [| i]; simpl;
    try discriminate; auto.
Qed.

Lemma bfill_keeps {A} (v : list (option A)) i x :
  nth_error v i = Some (Some x) -> nth_error (bfill v) i = Some (Some x).
Proof.
  revert i. induction v as [| [y |] v IH]; intros [| i]; simpl;
    try discriminate; auto.
Qed.

(** The three fills leave the cells that are there as they are. *)
Lemma fill_keeps idx v i x :
  length idx = length v ->
  nth_error v i = Some (Some x) ->
  nth_error (bfill (ffill (interpolate_time idx v))) i = Some (Some x).
Proof.
  intros Hlen H. apply bfill_keeps, ffill_from_keeps, interpolate_from_keeps.
  now rewrite combine_snd.
Qed.

Lemma group_In_key {A} k times (v : list A) x :
  In x (group k times v) -> In k times.
Proof.
  unfold group. intros H. apply in_map_iff in H. destruct H as ([t y] & _ & H).
  apply filter_In in H. destruct H as [H Hk]. cbn [fst] in Hk.
  apply Z.eqb_eq in Hk. subst. apply in_combine_l in H. exact H.
Qed.

(** ** The records of an hour *)

Lemma sorted_rows_In parse_datetime tc t i :
  In (t, i) (sorted_rows parse_datetime tc)
  <-> nth_error (to_datetime parse_datetime tc) i = Some (Some t).
Proof.
  unfold sorted_rows. split.
  - intros H. apply (Permutation_in _ (sort_values_perm _)) in H.
    apply valid_rows_In in H. destruct H as [_ H]. now rewrite Nat.sub_0_r in H.
  - intros H. apply (Permutation_in _ (Permutation_sym (sort_values_perm _))).
    apply valid_rows_In. split; [lia | now rewrite Nat.sub_0_r].
Qed.

Lemma valid_rows_NoDup ts : forall start, NoDup (valid_rows start ts).
Proof.
  induction ts as [| [t |] ts IH]; intros start; cbn [valid_rows];
    [constructor | | apply IH].
  constructor; [| apply IH].
  intros H. apply valid_rows_In in H. lia.
Qed.

Lemma sorted_rows_NoDup parse_datetime tc : NoDup (sorted_rows parse_datetime tc).
Proof.
  unfold sorted_rows.
  apply (Permutation_NoDup (Permutation_sym (sort_values_perm _))), valid_rows_NoDup.
Qed.

Lemma insert_row_sorted x l :
  StronglySorted (fun a b : Z * nat => fst a <= fst b) l ->
  StronglySorted (fun a b : Z * nat => fst a <= fst b) (insert_row x l).
Proof.
  induction 1 as [| y l Hl IH Hy]; cbn [insert_row].
  - constructor; constructor.
  - destruct (fst x <=? fst y) eqn:E.
    + apply Z.leb_le in E. constructor; [now constructor |].
      constructor; [exact E |]. eapply Forall_impl; [| exact Hy].
      intros a Ha. cbv beta in *. lia.
    + apply Z.leb_gt in E. constructor; [exact IH |].
      apply Forall_forall. intros a Ha.
      apply (Permutation_in _ (insert_row_perm x l)) in Ha.
      destruct Ha as [<- | Ha]; [lia |].
      rewrite Forall_forall in Hy. now apply Hy.
Qed.

(** [sort_values] puts the records in the order of their timestamps. *)
Lemma sort_values_sorted rows :
  StronglySorted (fun a b : Z * nat => fst a <= fst b) (sort_values rows).
Proof.
  unfold sort_values. induction rows as [| x rows IH]; cbn [fold_right];
    [constructor | now apply insert_row_sorted].
Qed.

Lemma StronglySorted_filter {A} (R : A -> A -> Prop) (P : A -> bool) l :
  StronglySorted R l -> StronglySorted R (filter P l).
Proof.
  induction 1 as [| x l Hl IH Hx]; cbn [filter]; [constructor |].
  destruct (P x); [| exact IH]. constructor; [exact IH |].
  apply Forall_forall. intros y Hy. apply filter_In in Hy.
  rewrite Forall_forall in Hx. now apply Hx.
Qed.

Lemma StronglySorted_app_before {A} (R : A -> A -> Prop) l1 x l2 :
  StronglySorted R (l1 ++ x :: l2) -> Forall (fun a => R a x) l1.
Proof.
  induction l1 as [| a l1 IH]; cbn [app]; intros H; [constructor |].
  inversion H as [| ? ? Hs Ha]; subst. constructor; [| now apply IH].
  rewrite Forall_forall in Ha. apply Ha, in_or_app. right. now left.
Qed.

(** The values of the hour [k], read off the records of that hour in the
    order of their timestamps. *)
Lemma hour_values_rows {A} parse_datetime tc k (v : list (option A)) :
  hour_values parse_datetime tc k v
  = map (fun r => nth (snd r) v None)
        (filter (fun r => floor_hour (fst r) =? k) (sorted_rows parse_datetime tc)).
Proof.
  unfold hour_values, row_hours. rewrite take_rows. apply group_map.
Qed.

Lemma nth_Some_nth_error {A} (v : list (option A)) i x :
  nth i v None = Some x <-> nth_error v i = Some (Some x).
Proof.
  split.
  - intros H. destruct (nth_error v i) as [o |] eqn:E.
    + apply (nth_error_nth _ _ None) in E. congruence.
    + apply nth_error_None in E. rewrite nth_overflow in H by exact E. discriminate.
  - intros H. now apply nth_error_nth.
Qed.

Lemma dropna_vals_single {R A} (f : R -> option A) (r0 : R) (x : A) l :
  NoDup l -> In r0 l -> f r0 = Some x ->
  (forall r, In r l -> f r <> None -> r = r0) ->
  dropna_vals (map f l) = [x].
Proof.
  intros Hnd Hin Hx Huniq.
  assert (Hnone : forall l', (forall r, In r l' -> f r <> None -> False) ->
                             dropna_vals (map f l') = []).
  { induction l' as [| r l' IH']; intros H; cbn [map dropna_vals]; [reflexivity |].
    destruct (f r) eqn:E.
    - exfalso. apply (H r); [now left | congruence].
    - apply IH'. intros r' Hr'. apply H. now right. }
  induction l as [| r l IH]; [destruct Hin |].
  inversion Hnd as [| ? ? Hr Hnd']; subst. cbn [map dropna_vals].
  destruct Hin as [-> | Hin].
  - rewrite Hx. f_equal. apply Hnone. intros r Hr' Hne.
    assert (r = r0) by (apply Huniq; [now right | exact Hne]). subst. contradiction.
  - destruct (f r) eqn:E.
    + assert (r = r0) by (apply Huniq; [now left | congruence]). subst. contradiction.
    + apply IH; auto. intros r' Hr'. apply Huniq. now right.
Qed.

(** X8: in a loaded series the cell of a numeric column at an hour for
    which the table has one record with a value of that column, and only
    one, is that value: the hourly mean and the fills leave it as it is. *)
Theorem load_dfh_single_reading (TARGET : string) (parse_datetime : scalar -> option Z)
        (df : csv_frame) (dfh : DataFrame) (c : string) (v : list (option Q))
        (j : nat) (k : Z) (tc : column) (v_raw : list (option Q))
        (i : nat) (t : Z) (x : Q) :
  load_dfh TARGET parse_datetime df = Ok dfh ->
  In (c, NumCol v) (columns dfh) ->
  nth_error (index dfh) j = Some k ->
  get_column (index_name dfh) df = Some tc ->
  get_column c df = Some (NumCol v_raw) ->
  nth_error (to_datetime parse_datetime tc) i = Some (Some t) ->
  floor_hour t = k ->
  nth_error v_raw i = Some (Some x) ->
  (forall i' t' x',
     nth_error (to_datetime parse_datetime tc) i' = Some (Some t') ->
     floor_hour t' = k ->
     nth_error v_raw i' = Some (Some x') -> i' = i) ->
  nth_error v j = Some (Some x).
Proof.
  intros Hload Hin Hj Htc0 Hraw0 Ht Hk Hx Huniq.
  apply load_dfh_Ok in Hload. destruct Hload as (TC & _ & Hn).
  rewrite (normalize_index_name _ _ _ _ _ Hn) in Htc0.
  destruct (dfh_numeric_column _ _ _ _ _ _ _ Hn Hin)
    as (tc' & lo & hi & v_raw' & Htc & _ & Hraw & Hidx & _ & ->).
  rewrite Htc0 in Htc. injection Htc as <-.
  rewrite Hraw0 in Hraw. injection Hraw as <-.
  rewrite Hidx in Hj.
  fold (hour_values parse_datetime tc k v_raw).
  assert (Hvals : dropna_vals (hour_values parse_datetime tc k v_raw) = [x]).
  { rewrite hour_values_rows.
    apply (dropna_vals_single _ (t, i)).
    - apply NoDup_filter, sorted_rows_NoDup.
    - apply filter_In. split; [now apply sorted_rows_In |].
      cbn [fst]. now apply Z.eqb_eq.
    - cbn [snd]. now apply nth_Some_nth_error.
    - intros [t' i'] Hr Hne. apply filter_In in Hr. destruct Hr as [Hr Hk'].
      cbn [fst] in Hk'. apply Z.eqb_eq in Hk'. apply sorted_rows_In in Hr.
      cbn [snd] in Hne. destruct (nth i' v_raw None) as [x' |] eqn:Ex; [| congruence].
      apply nth_Some_nth_error in Ex.
      assert (i' = i) by (eapply Huniq; eauto). subst i'.
      rewrite Hr in Ht. now injection Ht as ->. }
  assert (Hmean : mean (hour_values parse_datetime tc k v_raw) = Some x).
  { unfold mean. rewrite Hvals. cbn [length]. now rewrite Qmean_single. }
  assert (Hkeys : In k (group_keys (row_hours (sorted_rows parse_datetime tc)))).
  { apply keys_observed. unfold observed_hours. rewrite <- Hk. apply in_map.
    rewrite <- (valid_rows_times 0). apply in_map_iff. exists (t, i).
    split; [reflexivity |]. apply valid_rows_In. split; [lia | now rewrite Nat.sub_0_r]. }
  destruct (index_of_In _ _ Hkeys) as (i0 & Hi0 & Hki).
  apply fill_keeps; [now rewrite reindex_vals_length |].
  unfold reindex_vals. rewrite nth_error_map, Hj. cbn [option_map]. rewrite Hi0.
  f_equal. apply nth_error_nth. rewrite nth_error_map, Hki. cbn [option_map].
  f_equal. exact Hmean.
Qed.

(** On the load of [example_csv]: the fourth hour has one record, the first
    of the table, of ten past three and with the value 30. *)
Lemma load_dfh_single_reading_witness :
  nth_error [Some (30 # 2); Some (864000000000000 # 43200000000000);
             Some (1080000000000000 # 43200000000000); Some 30]%Q 3
  = Some (Some 30%Q).
Proof.
  apply (load_dfh_single_reading "PM2.5" example_parser example_csv example_dfh "PM2.5"
           _ 3 1704078000000000000
           (ObjCol [Some "2024-01-01 03:10:00"; Some "2024-01-01 00:20:00";
                    Some "bad"; Some "2024-01-01 00:40:00"]%string)
           [Some 30; Some 10; Some 99; Some 20]%Q
           0 1704078600000000000 30%Q).
  - vm_compute. reflexivity.
  - vm_compute. left. reflexivity.
  - reflexivity.
  - reflexivity.
  - reflexivity.
  - vm_compute. reflexivity.
  - vm_compute. reflexivity.
  - reflexivity.
  - intros [| [| [| [| i']]]] t' x' H1 H2 H3; [reflexivity | | | |];
      cbn in H1; try discriminate H1; try (destruct i'; discriminate H1);
      vm_compute in H1; injection H1 as <-; vm_compute in H2; discriminate H2.
Defined.

(** ** The calendar features *)

Lemma cell_at_int_col l i z :
  nth_error l i = Some z -> cell_at i (int_col l) = Num (Some (inject_Z z)).
Proof.
  intros H. unfold int_col. cbn [cell_at]. f_equal.
  apply nth_error_nth. now rewrite nth_error_map, H.
Qed.

Lemma hour_of_range t : 0 <= hour_of t <= 23 /\ hour_of t * HOUR <= t mod DAY < (hour_of t + 1) * HOUR.
Proof.
  unfold hour_of, DAY, HOUR. split.
  - assert (H := Z.mod_pos_bound (t / 3600000000000) 24 ltac:(lia)). lia.
  - Z.div_mod_to_equations. lia.
Qed.

Lemma dayofweek_of_range t : 0 <= dayofweek_of t <= 6.
Proof.
  unfold dayofweek_of. assert (H := Z.mod_pos_bound (t / DAY + 3) 7 ltac:(lia)). lia.
Qed.

Lemma month_of_range t : 1 <= month_of t <= 12.
Proof.
  unfold month_of. cbv zeta. generalize (t / DAY + 719468). intros z.
  assert (Hdoe := Z.mod_pos_bound z 146097 ltac:(lia)).
  set (doe := z mod 146097) in *. clearbody doe.
  destruct (_ <? 10) eqn:Hmp; [apply Z.ltb_lt in Hmp | apply Z.ltb_ge in Hmp];
    Z.div_mod_to_equations; lia.
Qed.

(** X10: the four calendar features of a row are whole numbers read off its
    timestamp: the hour lies in 0..23 and is the hour of the day of the
    timestamp, the day of the week in 0..6, the month in 1..12, and
    [is_weekend] is 1 on the days 5 and 6 and 0 on the others. *)
Theorem add_time_features_calendar (frame : DataFrame) (i : nat) (t : Z) :
  nth_error (index frame) i = Some t ->
  exists h d m : Z,
    let cols := columns (add_time_features frame) in
    option_map (cell_at i) (get_column "hour" cols) = Some (Num (Some (inject_Z h)))
    /\ option_map (cell_at i) (get_column "dayofweek" cols)
       = Some (Num (Some (inject_Z d)))
    /\ option_map (cell_at i) (get_column "month" cols) = Some (Num (Some (inject_Z m)))
    /\ option_map (cell_at i) (get_column "is_weekend" cols)
       = Some (Num (Some (if (d =? 5) || (d =? 6) then 1 else 0)%Q))
    /\ 0 <= h <= 23 /\ h * HOUR <= t mod DAY < (h + 1) * HOUR
    /\ 0 <= d <= 6
    /\ 1 <= m <= 12.
Proof.
  intros Ht. exists (hour_of t), (dayofweek_of t), (month_of t). cbv zeta.
  unfold add_time_features. cbn [columns].
  rewrite !get_column_set_column. cbn [String.eqb Ascii.eqb Bool.eqb option_map].
  assert (Hmap : forall g : Z -> Z, nth_error (map g (index frame)) i = Some (g t))
    by (intros g; now rewrite nth_error_map, Ht).
  rewrite !(cell_at_int_col _ i _ (Hmap _)).
  rewrite (cell_at_int_col _ i (if 5 <=? dayofweek_of t then 1 else 0)).
  2:{ rewrite nth_error_map, Hmap. reflexivity. }
  destruct (hour_of_range t) as [Hh Hh'].
  assert (Hd := dayofweek_of_range t).
  do 3 (split; [reflexivity |]). split.
  { do 3 f_equal. destruct (5 <=? dayofweek_of t) eqn:H5.
    - apply Z.leb_le in H5.
      destruct (dayofweek_of t =? 5) eqn:E5; [reflexivity |].
      destruct (dayofweek_of t =? 6) eqn:E6; [reflexivity |].
      apply Z.eqb_neq in E5. apply Z.eqb_neq in E6. lia.
    - apply Z.leb_gt in H5.
      destruct (dayofweek_of t =? 5) eqn:E5; [apply Z.eqb_eq in E5; lia |].
      destruct (dayofweek_of t =? 6) eqn:E6; [apply Z.eqb_eq in E6; lia |].
      reflexivity. }
  split; [exact Hh |]. split; [exact Hh' |]. split; [exact Hd |].
  apply month_of_range.
Qed.

(** The second row of [example_dfh], one o'clock on Monday 1 January 2024. *)
Lemma add_time_features_calendar_witness :
  exists h d m : Z,
    let cols := columns (add_time_features example_dfh) in
    option_map (cell_at 1) (get_column "hour" cols) = Some (Num (Some (inject_Z h)))
    /\ option_map (cell_at 1) (get_column "dayofweek" cols)
       = Some (Num (Some (inject_Z d)))
    /\ option_map (cell_at 1) (get_column "month" cols) = Some (Num (Some (inject_Z m)))
    /\ option_map (cell_at 1) (get_column "is_weekend" cols)
       = Some (Num (Some (if (d =? 5) || (d =? 6) then 1 else 0)%Q))
    /\ 0 <= h <= 23
    /\ h * HOUR <= 1704070800000000000 mod DAY < (h + 1) * HOUR
    /\ 0 <= d <= 6
    /\ 1 <= m <= 12.
Proof.
  apply (add_time_features_calendar example_dfh 1 1704070800000000000).
  reflexivity.
Defined.

(** ** The feature view *)

Lemma set_column_names n c cols m :
  In m (map fst (set_column n c cols)) <-> m = n \/ In m (map fst cols).
Proof.
  induction cols as [| [k d] cols IH]; cbn [set_column map fst In].
  - intuition.
  - destruct (String.eqb k n) eqn:E.
    + apply String.eqb_eq in E. subst k. cbn [map fst In]. intuition.
    + cbn [map fst In]. rewrite IH. intuition.
Qed.

Lemma assign_names l : forall f m,
  In m (map fst (assign l f)) <-> In m (map fst l) \/ In m (map fst f).
Proof.
  induction l as [| [n c] l IH]; intros f m; cbn [assign fold_left map fst snd In].
  - intuition.
  - fold (assign l (set_column n c f)). rewrite IH, set_column_names. intuition.
Qed.

Lemma select_rows_no_missing pos f :
  (forall i, In i pos -> row_complete (columns f) i = true) ->
  no_missing (select_rows pos f) = true.
Proof.
  intros Hpos. unfold no_missing, select_rows, n_rows. cbn [columns index].
  apply forallb_forall. intros [n c] Hin. cbn [snd].
  apply (in_map_columns (take_col pos) n c) in Hin. destruct Hin as (c0 & Hin & ->).
  rewrite length_map. apply andb_true_iff. split.
  - apply Nat.eqb_eq. destruct c0; cbn [take_col col_length]; apply length_map.
  - assert (Hc : forall i, In i pos -> cell_ok i c0 = true).
    { intros i Hi. specialize (Hpos i Hi). rewrite row_complete_iff in Hpos. eauto. }
    destruct c0 as [v | v]; cbn [take_col col_notna]; apply forallb_forall;
      intros x Hx; apply in_map_iff in Hx; destruct Hx as (i & <- & Hi);
      specialize (Hc i Hi); unfold cell_ok in Hc; cbn [cell_at cell_isna] in Hc;
      exact Hc.
Qed.

Lemma dropna_no_missing f : no_missing (dropna f) = true.
Proof.
  apply select_rows_no_missing. intros i Hi. apply filter_In in Hi. tauto.
Qed.

Lemma lag_names_ne target L : (target ++ "_lag" ++ str_of_nat L)%string <> target.
Proof. apply append_ne_self. discriminate. Qed.

Lemma rollmean_names_ne target w : (target ++ "_rollmean" ++ str_of_nat w)%string <> target.
Proof. apply append_ne_self. discriminate. Qed.

Lemma rollstd_names_ne target w : (target ++ "_rollstd" ++ str_of_nat w)%string <> target.
Proof. apply append_ne_self. discriminate. Qed.

Lemma add_lags_target target c lags f :
  get_column target f = Some c ->
  get_column target (assign (lag_columns target c lags) f) = Some c.
Proof.
  intros Hc. rewrite get_column_assign_other; [exact Hc |].
  intros p Hp. unfold lag_columns in Hp. apply in_map_iff in Hp.
  destruct Hp as (L & <- & _). apply lag_names_ne.
Qed.

Lemma build_feature_view_KeyError TARGET sqrt f :
  get_column TARGET (columns (add_time_features f)) = None ->
  build_feature_view TARGET sqrt f = Raise (LibraryError "KeyError").
Proof.
  intros Hc. unfold build_feature_view, add_lags_rolls, default_lags. cbn [add_lags].
  unfold getitem. rewrite Hc. reflexivity.
Qed.

Lemma build_feature_view_DataError TARGET sqrt f s :
  get_column TARGET (columns (add_time_features f)) = Some (ObjCol s) ->
  build_feature_view TARGET sqrt f = Raise (LibraryError "DataError").
Proof.
  intros Hc. unfold build_feature_view, add_lags_rolls.
  rewrite (add_lags_assign _ _ _ _ Hc). cbn [bind].
  unfold default_rolls. cbn [add_rolls]. unfold rolling at 1, getitem.
  rewrite (add_lags_target _ _ _ _ Hc). reflexivity.
Qed.

Lemma Ok_inj {A} (x y : A) : Ok x = Ok y -> x = y.
Proof. intros H. now injection H. Qed.

Lemma build_feature_view_inv TARGET sqrt f Xy features :
  build_feature_view TARGET sqrt f = Ok (Xy, features) ->
  exists v,
    get_column TARGET (columns (add_time_features f)) = Some (NumCol v)
    /\ Xy = dropna (feature_frame sqrt TARGET v f)
    /\ features = filter (fun c => negb (String.eqb c TARGET)) (map fst (columns Xy)).
Proof.
  intros H.
  destruct (get_column TARGET (columns (add_time_features f))) as [[v | s] |] eqn:Hc.
  - rewrite (build_feature_view_Ok _ _ _ _ Hc) in H.
    apply Ok_inj, pair_equal_spec in H. destruct H as [<- <-].
    exists v. auto.
  - rewrite (build_feature_view_DataError _ _ _ _ Hc) in H. discriminate.
  - rewrite (build_feature_view_KeyError _ _ _ Hc) in H. discriminate.
Qed.


Lemma set_column_NoDup n c cols :
  NoDup (map fst cols) -> NoDup (map fst (set_column n c cols)).
Proof.
  induction cols as [| [k d] cols IH]; cbn [set_column map fst]; intros Hnd.
  - constructor; [intros [] | constructor].
  - inversion Hnd as [| ? ? Hk Hnd']; subst.
    destruct (String.eqb k n) eqn:E.
    + apply String.eqb_eq in E. subst k. cbn [map fst]. now constructor.
    + cbn [map fst]. constructor; [| auto].
      rewrite set_column_names. intros [-> | H]; [| contradiction].
      now rewrite String.eqb_refl in E.
Qed.

Lemma assign_NoDup l : forall f,
  NoDup (map fst f) -> NoDup (map fst (assign l f)).
Proof.
  induction l as [| [n c] l IH]; intros f Hnd; cbn [assign fold_left fst snd];
    [exact Hnd |].
  apply IH. now apply set_column_NoDup.
Qed.

(** The names that [build_feature_view] sets for the target [t]. *)
Lemma feature_frame_names sqrt t v f c :
  In c (map fst (columns (feature_frame sqrt t v f)))
  <-> In c (map fst (columns f))
      \/ In c ["hour"; "dayofweek"; "month"; "is_weekend"]%string
      \/ (exists L, In L default_lags /\ c = (t ++ "_lag" ++ str_of_nat L)%string)
      \/ (exists w, In w default_rolls
                    /\ (c = (t ++ "_rollmean" ++ str_of_nat w)%string
                        \/ c = (t ++ "_rollstd" ++ str_of_nat w)%string)).
Proof.
  unfold feature_frame. cbn [columns]. rewrite !assign_names.
  assert (Hl : In c (map fst (lag_columns t (NumCol v) default_lags))
               <-> exists L, In L default_lags /\ c = (t ++ "_lag" ++ str_of_nat L)%string).
  { unfold lag_columns. rewrite map_map. cbn [fst]. rewrite in_map_iff.
    split; intros (L & H1 & H2); exists L; intuition. }
  assert (Hr : In c (map fst (roll_columns sqrt t v default_rolls))
               <-> exists w, In w default_rolls
                             /\ (c = (t ++ "_rollmean" ++ str_of_nat w)%string
                                 \/ c = (t ++ "_rollstd" ++ str_of_nat w)%string)).
  { unfold roll_columns. rewrite in_map_iff. split.
    - intros ([n d] & <- & Hin). apply in_flat_map in Hin.
      destruct Hin as (w & Hw & [[= <- <-] | [[= <- <-] | []]]); exists w; auto.
    - intros (w & Hw & [-> | ->]); eexists (_, _); (split; [reflexivity |]);
        apply in_flat_map; exists w; (split; [exact Hw |]);
        [left | right; left]; reflexivity. }
  rewrite Hl, Hr.
  assert (Ht : In c (map fst (time_columns (index f)))
               <-> In c ["hour"; "dayofweek"; "month"; "is_weekend"]%string)
    by reflexivity.
  rewrite Ht. tauto.
Qed.

(** X12: the view has no missing cell; the features are the names of its
    columns other than the target, in their order: the columns of the
    series, the four calendar features, a lag for each of 1, 2, 3, 6, 12 and
    24 hours, and a rolling mean and deviation for each of 3, 6, 12 and 24
    hours; no feature is listed twice when no column of the series is. *)
Theorem build_feature_view_features (TARGET : string) (sqrt : Q -> Q)
        (f Xy : DataFrame) (features : list string) :
  build_feature_view TARGET sqrt f = Ok (Xy, features) ->
  no_missing Xy = true
  /\ features = filter (fun c => negb (String.eqb c TARGET)) (map fst (columns Xy))
  /\ (forall c, In c features
                <-> c <> TARGET
                    /\ (In c (map fst (columns f))
                        \/ In c ["hour"; "dayofweek"; "month"; "is_weekend"]%string
                        \/ (exists L, In L default_lags
                                      /\ c = (TARGET ++ "_lag" ++ str_of_nat L)%string)
                        \/ (exists w, In w default_rolls
                                      /\ (c = (TARGET ++ "_rollmean" ++ str_of_nat w)%string
                                          \/ c = (TARGET ++ "_rollstd" ++ str_of_nat w)%string))))
  /\ (NoDup (map fst (columns f)) -> NoDup features).
Proof.
  intros H. apply build_feature_view_inv in H. destruct H as (v & _ & -> & ->).
  split; [apply dropna_no_missing |]. split; [reflexivity |].
  assert (Hn : map fst (columns (dropna (feature_frame sqrt TARGET v f)))
               = map fst (columns (feature_frame sqrt TARGET v f)))
    by (unfold dropna, select_rows; cbn [columns]; apply map_fst_map_columns).
  rewrite Hn. split.
  - intros c. rewrite filter_In, feature_frame_names, negb_true_iff, String.eqb_neq.
    tauto.
  - intros Hnd. apply NoDup_filter. unfold feature_frame. cbn [columns].
    now do 3 apply assign_NoDup.
Qed.

(** The view of the series [ramp_series 30]. *)
Lemma build_feature_view_features_witness :
  exists Xy features,
    build_feature_view "PM2.5" example_sqrt (ramp_series 30) = Ok (Xy, features)
    /\ no_missing Xy = true
    /\ In "PM2.5_lag24"%string features
    /\ ~ In "PM2.5"%string features.
Proof.
  destruct (build_feature_view "PM2.5" example_sqrt (ramp_series 30))
    as [[Xy features] | e] eqn:E; [| vm_compute in E; discriminate].
  exists Xy, features. split; [reflexivity |].
  destruct (build_feature_view_features _ _ _ _ _ E) as (H1 & _ & H3 & _).
  split; [exact H1 |]. split.
  - apply H3. split; [discriminate |]. right. right. left.
    exists 24%nat. split; [unfold default_lags; simpl; tauto | reflexivity].
  - intros Hin. apply H3 in Hin. destruct Hin as [Hne _]. now apply Hne.
Defined.

(** ** The rows of the view *)

Lemma get_column_assign_in l : forall f n c,
  NoDup (map fst l) -> In (n, c) l -> get_column n (assign l f) = Some c.
Proof.
  induction l as [| [m d] l IH]; intros f n c Hnd Hin; [destruct Hin |].
  cbn [map fst] in Hnd. inversion Hnd as [| ? ? Hm Hnd']; subst.
  cbn [assign fold_left fst snd]. fold (assign l (set_column m d f)).
  destruct Hin as [[= -> ->] | Hin]; [| now apply IH].
  rewrite get_column_assign_other.
  - now rewrite get_column_set_column, String.eqb_refl.
  - intros p Hp Heq. apply Hm. rewrite <- Heq. now apply in_map.
Qed.

Lemma NoDup_map_append (t : string) l :
  NoDup l -> NoDup (map (String.append t) l).
Proof.
  induction 1 as [| x l Hx Hnd IH]; cbn [map]; constructor; [| exact IH].
  intros Hin. apply in_map_iff in Hin. destruct Hin as (y & Hy & Hin).
  apply append_inj_l in Hy. now subst.
Qed.

Lemma lag_names_NoDup target c :
  NoDup (map fst (lag_columns target c default_lags)).
Proof.
  unfold lag_columns. rewrite map_map. cbn [fst].
  rewrite <- (map_map (fun L => ("_lag" ++ str_of_nat L)%string) (String.append target)).
  apply NoDup_map_append. vm_compute.
  repeat (constructor;
          [cbn [In]; intros H;
           repeat (destruct H as [H | H]; [discriminate H |]); exact H |]).
  constructor.
Qed.

Lemma feature_frame_lag sqrt target v f L :
  In L default_lags ->
  get_column (target ++ "_lag" ++ str_of_nat L) (columns (feature_frame sqrt target v f))
  = Some (NumCol (shift L v)).
Proof.
  intros HL. unfold feature_frame. cbn [columns].
  rewrite get_column_assign_other.
  - apply get_column_assign_in; [apply lag_names_NoDup |].
    unfold lag_columns. apply in_map_iff. exists L. split; [reflexivity | exact HL].
  - intros p Hp. unfold roll_columns, default_rolls in Hp.
    cbn [flat_map app In] in Hp.
    repeat (destruct Hp as [<- | Hp];
            [cbn [fst]; intros H; apply append_inj_l in H;
             unfold default_lags in HL; cbn [In] in HL;
             repeat (destruct HL as [<- | HL]; [vm_compute in H; discriminate H |]);
             destruct HL |]).
    destruct Hp.
Qed.

Lemma feature_frame_target sqrt target v f :
  get_column target (columns (add_time_features f)) = Some (NumCol v) ->
  get_column target (columns (feature_frame sqrt target v f)) = Some (NumCol v).
Proof.
  intros Hc. unfold feature_frame. cbn [columns].
  rewrite get_column_assign_other.
  - rewrite <- add_time_features_assign. now apply add_lags_target.
  - intros p Hp. unfold roll_columns in Hp. apply in_flat_map in Hp.
    destruct Hp as (w & _ & [<- | [<- | []]]); cbn [fst];
      [apply rollmean_names_ne | apply rollstd_names_ne].
Qed.

Lemma dropna_feature_frame_rows sqrt target v f :
  no_missing f = true -> length v = n_rows f -> forallb notna v = true ->
  dropna (feature_frame sqrt target v f)
  = select_rows (seq 24 (n_rows f - 24)) (feature_frame sqrt target v f).
Proof.
  intros Hf Hlen Hv. unfold dropna. f_equal.
  change (n_rows (feature_frame sqrt target v f)) with (n_rows f).
  apply filter_seq_from. intros i Hi. destruct (24 <=? i)%nat eqn:H24.
  - apply Nat.leb_le in H24. now apply feature_frame_complete.
  - apply Nat.leb_gt in H24.
    destruct (row_complete _ i) eqn:Hrc; [| reflexivity].
    apply feature_frame_warmup in Hrc. lia.
Qed.

Lemma cell_at_take_col pos c j i :
  nth_error pos j = Some i -> cell_at j (take_col pos c) = cell_at i c.
Proof.
  intros Hj. destruct c as [v | v]; cbn [take_col cell_at]; f_equal;
    apply nth_error_nth; unfold take; now rewrite nth_error_map, Hj.
Qed.

Lemma nth_error_seq_lt s n j : (j < n)%nat -> nth_error (seq s n) j = Some (s + j)%nat.
Proof.
  intros Hj. rewrite (nth_error_nth' _ 0%nat) by (now rewrite length_seq).
  now rewrite seq_nth.
Qed.

Lemma select_rows_cell pos f n c j i :
  get_column n (columns f) = Some c -> nth_error pos j = Some i ->
  option_map (cell_at j) (get_column n (columns (select_rows pos f)))
  = Some (cell_at i c).
Proof.
  intros Hc Hj. unfold select_rows. cbn [columns].
  rewrite get_column_map_columns, Hc. cbn [option_map]. f_equal.
  now apply cell_at_take_col.
Qed.

(** The target column behind a numeric target, after the calendar features
    are set. *)
Lemma numeric_target_after_time TARGET f :
  no_missing f = true -> numeric_target TARGET f = true ->
  exists v,
    get_column TARGET (columns (add_time_features f)) = Some (NumCol v)
    /\ length v = n_rows f /\ forallb notna v = true.
Proof.
  intros Hf Ht. unfold numeric_target in Ht.
  destruct (get_column TARGET (columns f)) as [[v | ?] |] eqn:Hv; try discriminate.
  apply Nat.eqb_eq in Ht.
  assert (Hnotna : forallb notna v = true).
  { unfold no_missing in Hf. rewrite forallb_forall in Hf.
    specialize (Hf _ (get_column_In _ _ _ Hv)). cbn [snd] in Hf.
    now apply andb_true_iff in Hf. }
  destruct (target_after_time _ _ _ Hv) as (v1 & Hv1 & Hcase).
  exists v1. split; [exact Hv1 |]. destruct Hcase as [-> | H]; auto.
Qed.

(** X13: in the view of a series without missing cell, row [j] is the row
    [24 + j] of the series: it has its timestamp and its target value, and
    its lag of [L] hours is the target value [L] rows earlier. *)
Theorem build_feature_view_lag_alignment (TARGET : string) (sqrt : Q -> Q)
        (f Xy : DataFrame) (features : list string) :
  no_missing f = true ->
  numeric_target TARGET f = true ->
  build_feature_view TARGET sqrt f = Ok (Xy, features) ->
  exists v,
    get_column TARGET (columns (add_time_features f)) = Some (NumCol v)
    /\ forall j, (j < n_rows Xy)%nat ->
         nth_error (index Xy) j = nth_error (index f) (24 + j)
         /\ option_map (cell_at j) (get_column TARGET (columns Xy))
            = Some (Num (nth (24 + j) v None))
         /\ forall L, In L default_lags ->
              option_map (cell_at j)
                (get_column (TARGET ++ "_lag" ++ str_of_nat L) (columns Xy))
              = Some (Num (nth (24 + j - L) v None)).
Proof.
  intros Hf Ht Hview.
  destruct (numeric_target_after_time _ _ Hf Ht) as (v & Hv & Hlen & Hnotna).
  rewrite (build_feature_view_Ok _ _ _ _ Hv) in Hview.
  apply Ok_inj, pair_equal_spec in Hview. destruct Hview as [<- _].
  exists v. split; [exact Hv |].
  rewrite (dropna_feature_frame_rows sqrt TARGET v f Hf Hlen Hnotna).
  unfold n_rows at 1. unfold select_rows at 1. cbn [index].
  rewrite length_map, length_seq. intros j Hj.
  assert (Hpos := nth_error_seq_lt 24 _ _ Hj).
  split; [| split].
  - unfold select_rows. cbn [index]. rewrite nth_error_map, Hpos. cbn [option_map].
    symmetry. apply nth_error_nth'. unfold n_rows in Hj.
    change (index (feature_frame sqrt TARGET v f)) with (index f). lia.
  - rewrite (select_rows_cell _ _ _ _ _ _ (feature_frame_target sqrt _ _ _ Hv) Hpos).
    reflexivity.
  - intros L HL.
    rewrite (select_rows_cell _ _ _ _ _ _ (feature_frame_lag sqrt TARGET v f L HL) Hpos).
    cbn [cell_at]. do 2 f_equal. rewrite shift_nth by (unfold n_rows in *; lia).
    destruct (24 + j <? L)%nat eqn:E; [| reflexivity].
    apply Nat.ltb_lt in E. unfold default_lags in HL. cbn [In] in HL. lia.
Qed.

(** The view of [ramp_series 30]. *)
Lemma build_feature_view_lag_alignment_witness :
  exists Xy features v,
    build_feature_view "PM2.5" example_sqrt (ramp_series 30) = Ok (Xy, features)
    /\ get_column "PM2.5" (columns (add_time_features (ramp_series 30)))
       = Some (NumCol v)
    /\ forall j, (j < n_rows Xy)%nat ->
         nth_error (index Xy) j = nth_error (index (ramp_series 30)) (24 + j)
         /\ option_map (cell_at j) (get_column "PM2.5" (columns Xy))
            = Some (Num (nth (24 + j) v None))
         /\ forall L, In L default_lags ->
              option_map (cell_at j)
                (get_column ("PM2.5" ++ "_lag" ++ str_of_nat L) (columns Xy))
              = Some (Num (nth (24 + j - L) v None)).
Proof.
  destruct (build_feature_view "PM2.5" example_sqrt (ramp_series 30))
    as [[Xy features] | e] eqn:E; [| vm_compute in E; discriminate].
  destruct (build_feature_view_lag_alignment "PM2.5" example_sqrt (ramp_series 30)
              Xy features) as (v & Hv & H).
  - vm_compute. reflexivity.
  - vm_compute. reflexivity.
  - exact E.
  - exists Xy, features, v. split; [reflexivity |]. split; [exact Hv | exact H].
Defined.

(** ** The answer of the prediction endpoint *)

Lemma select_columns_names names f :
  (forall c, In c names -> In c (map fst (columns f))) ->
  map fst (columns (select_columns names f)) = names.
Proof.
  intros Hn. unfold select_columns. cbn [columns].
  induction names as [| c names IH]; [reflexivity |].
  cbn [flat_map]. destruct (get_column_name c (columns f)) as (col & Hcol).
  { apply Hn. now left. }
  rewrite Hcol. cbn [app map fst]. f_equal. apply IH. intros c' Hc'. apply Hn. now right.
Qed.

Lemma select_columns_In names f c col :
  In (c, col) (columns (select_columns names f))
  <-> In c names /\ get_column c (columns f) = Some col.
Proof.
  unfold select_columns. cbn [columns]. rewrite in_flat_map. split.
  - intros (n & Hn & Hin). destruct (get_column n (columns f)) eqn:E; [| destruct Hin].
    destruct Hin as [[= <- <-] | []]. auto.
  - intros [Hn Hc]. exists c. split; [exact Hn |]. rewrite Hc. now left.
Qed.

Lemma iloc_last_Ok f k :
  n_rows f = S k ->
  iloc_last f = Ok (map (fun p => (fst p, cell_at k (snd p))) (columns f)).
Proof. intros H. unfold iloc_last. now rewrite H. Qed.

Lemma pm25_to_aqi_eta o :
  pm25_to_aqi o = (fst (fst (pm25_to_aqi o)), snd (fst (pm25_to_aqi o)), snd (pm25_to_aqi o)).
Proof. now destruct (pm25_to_aqi o) as [[a b] c]. Qed.

Lemma api_predict_unfold TARGET sqrt model_predict dfh Xy features X_latest :
  build_feature_view TARGET sqrt dfh = Ok (Xy, features) ->
  iloc_last (select_columns features Xy) = Ok X_latest ->
  api_predict TARGET sqrt model_predict dfh
  = Ok {| next_hour_prediction_ugm3 := option_map py_round3 (model_predict X_latest);
          next_hour_prediction_aqi := fst (fst (pm25_to_aqi (model_predict X_latest)));
          aqi_category_text := snd (fst (pm25_to_aqi (model_predict X_latest)));
          aqi_category_class := snd (pm25_to_aqi (model_predict X_latest));
          last_timestamp := list_max (index dfh) |}.
Proof.
  intros Hv Hl. unfold api_predict. rewrite Hv. cbn [bind]. rewrite Hl. cbn [bind].
  now destruct (pm25_to_aqi (model_predict X_latest)) as [[a b] c].
Qed.

(** X14: on a series without missing cell, with a numeric target and at
    least 25 hours, [/api/predict] answers.  The model receives one row,
    the last of the view: its names are the features, the target itself is
    not among them, none of its cells is missing, and its lag of [L] hours
    is the target value [L] hours before the last hour of the series.  The
    prediction is missing in the answer when the model returns none, and
    only then.  The three AQI fields belong to one row of the table, the
    row whose bounds hold the prediction when a row does, with a score
    between the two indices of that row; they are the fields of a missing
    value when the prediction is missing.  The timestamp is the greatest of
    the index. *)
Theorem api_predict_answer (TARGET : string) (sqrt : Q -> Q)
        (model_predict : list (string * cell) -> option Q) (dfh : DataFrame) :
  no_missing dfh = true ->
  numeric_target TARGET dfh = true ->
  (25 <= n_rows dfh)%nat ->
  exists Xy features X_latest v t p,
    build_feature_view TARGET sqrt dfh = Ok (Xy, features)
    /\ api_predict TARGET sqrt model_predict dfh = Ok p
    /\ last_timestamp p = Some t
    /\ In t (index dfh) /\ Forall (fun x => x <= t) (index dfh)
    /\ (next_hour_prediction_ugm3 p = None <-> model_predict X_latest = None)
    /\ match model_predict X_latest with
       | None =>
           next_hour_prediction_aqi p = None
           /\ aqi_category_text p = "غير معروف"%string
           /\ aqi_category_class p = "aqi-unknown"%string
       | Some y =>
           exists b s,
             In b _PM25_BREAKS
             /\ next_hour_prediction_aqi p = Some s
             /\ aqi_category_text p = txt b
             /\ aqi_category_class p = cls b
             /\ Il b <= s <= Ih b
             /\ ((exists b', In b' _PM25_BREAKS /\ (Cl b' <= y <= Ch b')%Q) ->
                 (Cl b <= y <= Ch b)%Q)
       end
    /\ map fst X_latest = features
    /\ ~ In TARGET (map fst X_latest)
    /\ (forall c x, In (c, x) X_latest -> cell_isna x = false)
    /\ get_column TARGET (columns (add_time_features dfh)) = Some (NumCol v)
    /\ (forall L, In L default_lags ->
          In ((TARGET ++ "_lag" ++ str_of_nat L)%string,
              Num (nth (n_rows dfh - 1 - L) v None)) X_latest).
Proof.
  intros Hf Ht Hn.
  destruct (numeric_target_after_time _ _ Hf Ht) as (v & Hv & Hlen & Hnotna).
  assert (Hview := build_feature_view_Ok _ sqrt _ _ Hv).
  set (F := feature_frame sqrt TARGET v dfh) in *.
  set (Xy := dropna F) in *.
  set (features := filter (fun c => negb (String.eqb c TARGET)) (map fst (columns Xy))) in *.
  assert (Hrows : Xy = select_rows (seq 24 (n_rows dfh - 24)) F)
    by (apply dropna_feature_frame_rows; assumption).
  assert (HnXy : n_rows (select_columns features Xy) = S (n_rows dfh - 25)).
  { unfold n_rows, select_columns. cbn [index]. rewrite Hrows. unfold select_rows.
    cbn [index]. rewrite length_map, length_seq. unfold n_rows in *. lia. }
  assert (Hlast := iloc_last_Ok _ _ HnXy).
  set (X_latest := map (fun p => (fst p, cell_at (n_rows dfh - 25) (snd p)))
                       (columns (select_columns features Xy))) in *.
  destruct (list_min_max_Some (index dfh)) as (lo & t & _ & Hmax).
  { unfold n_rows in Hn. destruct (index dfh); [cbn in Hn; lia | discriminate]. }
  destruct (list_max_spec _ _ Hmax) as [Ht_in Ht_max].
  assert (Hnames : map fst X_latest = features).
  { unfold X_latest. rewrite map_map. cbn [fst].
    apply select_columns_names. intros c Hc. unfold features in Hc.
    apply filter_In in Hc. tauto. }
  assert (Hpos : nth_error (seq 24 (n_rows dfh - 24)) (n_rows dfh - 25)
                 = Some (n_rows dfh - 1)%nat).
  { rewrite nth_error_seq_lt by lia. f_equal. lia. }
  exists Xy, features, X_latest, v, t.
  eexists. split; [exact Hview |].
  split; [apply (api_predict_unfold _ _ _ _ _ _ _ Hview Hlast) |].
  cbn [last_timestamp next_hour_prediction_ugm3 next_hour_prediction_aqi
       aqi_category_text aqi_category_class].
  split; [exact Hmax |]. split; [exact Ht_in |]. split; [exact Ht_max |].
  split; [destruct (model_predict X_latest); cbn [option_map]; split; congruence |].
  split.
  { destruct (model_predict X_latest) as [y |];
      [| cbn [pm25_to_aqi fst snd]; split; [| split]; reflexivity].
    destruct (pm25_to_aqi_row y) as (b & s & Hb & Heq & Hs & _ & Hrow).
    exists b, s. rewrite Heq. cbn [fst snd].
    split; [exact Hb |]. do 3 (split; [reflexivity |]). split; [exact Hs | exact Hrow]. }
  split; [exact Hnames |]. split.
  { rewrite Hnames. unfold features. intros Hin. apply filter_In in Hin.
    destruct Hin as [_ Hne]. now rewrite String.eqb_refl in Hne. }
  split.
  { intros c x Hin. unfold X_latest in Hin. apply in_map_iff in Hin.
    destruct Hin as ([c' col] & [= <- <-] & Hin). cbn [snd].
    apply select_columns_In in Hin. destruct Hin as [_ Hcol].
    apply get_column_In in Hcol.
    assert (Hnm := dropna_no_missing F). fold Xy in Hnm.
    unfold no_missing in Hnm. rewrite forallb_forall in Hnm.
    specialize (Hnm _ Hcol). cbn [snd] in Hnm. apply andb_true_iff in Hnm.
    destruct Hnm as [Hl Hc]. apply Nat.eqb_eq in Hl.
    assert (Hok : cell_ok (n_rows dfh - 25) col = true).
    { apply col_notna_cell_ok; [exact Hc |]. rewrite Hl, Hrows.
      unfold n_rows, select_rows. cbn [index]. rewrite length_map, length_seq.
      unfold n_rows in *. lia. }
    unfold cell_ok in Hok. now apply negb_true_iff in Hok. }
  split; [exact Hv |].
  intros L HL. unfold X_latest. apply in_map_iff.
  exists ((TARGET ++ "_lag" ++ str_of_nat L)%string,
          take_col (seq 24 (n_rows dfh - 24)) (NumCol (shift L v))).
  split.
  - cbn [fst snd]. f_equal. rewrite (cell_at_take_col _ _ _ _ Hpos).
    cbn [cell_at]. f_equal. rewrite shift_nth by lia.
    destruct (n_rows dfh - 1 <? L)%nat eqn:E; [| reflexivity].
    apply Nat.ltb_lt in E. unfold default_lags in HL. cbn [In] in HL. lia.
  - apply select_columns_In. split.
    + unfold features. apply filter_In. split.
      * rewrite Hrows. unfold select_rows. cbn [columns].
        rewrite map_fst_map_columns. apply (feature_frame_names sqrt TARGET v dfh).
        right. right. left. exists L. auto.
      * apply negb_true_iff, String.eqb_neq, lag_names_ne.
    + rewrite Hrows. unfold select_rows. cbn [columns].
      rewrite get_column_map_columns.
      unfold F. rewrite (feature_frame_lag sqrt TARGET v dfh L HL). reflexivity.
Qed.

(** The answer on [ramp_series 30], with the model of the examples. *)
Lemma api_predict_answer_witness :
  exists Xy features X_latest v t p,
    build_feature_view "PM2.5" example_sqrt (ramp_series 30) = Ok (Xy, features)
    /\ api_predict "PM2.5" example_sqrt example_model (ramp_series 30) = Ok p
    /\ last_timestamp p = Some t
    /\ In t (index (ramp_series 30)) /\ Forall (fun x => x <= t) (index (ramp_series 30))
    /\ (next_hour_prediction_ugm3 p = None <-> example_model X_latest = None)
    /\ match example_model X_latest with
       | None =>
           next_hour_prediction_aqi p = None
           /\ aqi_category_text p = "غير معروف"%string
           /\ aqi_category_class p = "aqi-unknown"%string
       | Some y =>
           exists b s,
             In b _PM25_BREAKS
             /\ next_hour_prediction_aqi p = Some s
             /\ aqi_category_text p = txt b
             /\ aqi_category_class p = cls b
             /\ Il b <= s <= Ih b
             /\ ((exists b', In b' _PM25_BREAKS /\ (Cl b' <= y <= Ch b')%Q) ->
                 (Cl b <= y <= Ch b)%Q)
       end
    /\ map fst X_latest = features
    /\ ~ In "PM2.5"%string (map fst X_latest)
    /\ (forall c x, In (c, x) X_latest -> cell_isna x = false)
    /\ get_column "PM2.5" (columns (add_time_features (ramp_series 30))) = Some (NumCol v)
    /\ (forall L, In L default_lags ->
          In (("PM2.5" ++ "_lag" ++ str_of_nat L)%string,
              Num (nth (n_rows (ramp_series 30) - 1 - L) v None)) X_latest).
Proof.
  apply (api_predict_answer "PM2.5" example_sqrt example_model (ramp_series 30)).
  - vm_compute. reflexivity.
  - vm_compute. reflexivity.
  - vm_compute. lia.
Defined.

(** ** From the load to the prediction *)





(** ** The recent window *)

Lemma series_pm25_to_aqi_from s : forall a t c,
  fold_left (fun acc v =>
               let '(aqis, txts, clss) := acc in
               let '(aqi_v, txt_v, cls_v) := pm25_to_aqi v in
               (aqis ++ [aqi_v], txts ++ [txt_v], clss ++ [cls_v]))
            s (a, t, c)
  = (a ++ map (fun v => fst (fst (pm25_to_aqi v))) s,
     t ++ map (fun v => snd (fst (pm25_to_aqi v))) s,
     c ++ map (fun v => snd (pm25_to_aqi v)) s).
Proof.
  induction s as [| v s IH]; intros a t c; cbn [fold_left map].
  - now rewrite !app_nil_r.
  - rewrite (pm25_to_aqi_eta v) at 1. rewrite IH, <- !app_assoc. reflexivity.
Qed.

(** X16: the three lists of [series_pm25_to_aqi] go in step with the series:
    each has one element for each value, the score, the text and the class
    that [pm25_to_aqi] gives for that value, in the order of the series. *)
Theorem series_pm25_to_aqi_pointwise (s : list (option Q)) :
  series_pm25_to_aqi s
  = (map (fun v => fst (fst (pm25_to_aqi v))) s,
     map (fun v => snd (fst (pm25_to_aqi v))) s,
     map (fun v => snd (pm25_to_aqi v)) s).
Proof. unfold series_pm25_to_aqi. now rewrite series_pm25_to_aqi_from. Qed.

Lemma tail_length {A} n (l : list A) : length (tail n l) = Nat.min n (length l).
Proof. unfold tail. rewrite length_skipn. lia. Qed.



Lemma nth_error_tail {A} n (l : list A) i :
  nth_error (tail n l) i = nth_error l (length l - Nat.min n (length l) + i).
Proof.
  unfold tail. rewrite nth_error_skipn. f_equal. lia.
Qed.

Lemma last_window_arrays_numeric TARGET n dfh v :
  get_column TARGET (columns dfh) = Some (NumCol v) ->
  last_window_arrays TARGET n dfh
  = Ok {| timestamps := tail n (index dfh);
          pm25 := map (option_map py_round3) (tail n v);
          aqi := map (fun x => fst (fst (pm25_to_aqi x))) (tail n v) |}.
Proof.
  intros Hv. unfold last_window_arrays, getitem, tail_frame. cbn [columns index].
  rewrite get_column_map_columns, Hv. cbn [option_map tail_col bind].
  unfold series_pm25_to_aqi. now rewrite series_pm25_to_aqi_from.
Qed.

(** X17: after a successful load of a table with distinct column names in
    which every numeric column has a value at a parsed timestamp, and for a
    numeric target, the recent window is returned as three arrays of equal
    length, [n] or the number of hours of the series when it has fewer.
    Entry [i] of each belongs to the same hour, one of the last hours of the
    series in their order: its timestamp, a value that is there for its
    target value, and a score that is there, between 0 and 500 and between
    the two indices of a row of the table, the row whose bounds hold the
    target value when a row does. *)
Theorem load_then_last_window (TARGET : string) (parse_datetime : scalar -> option Z)
        (df : csv_frame) (dfh : DataFrame) (v : list (option Q)) (n : nat) :
  load_dfh TARGET parse_datetime df = Ok dfh ->
  NoDup (map fst df) ->
  numeric_columns_observed parse_datetime (index_name dfh) df = true ->
  get_column TARGET (columns dfh) = Some (NumCol v) ->
  exists w,
    last_window_arrays TARGET n dfh = Ok w
    /\ length (timestamps w) = Nat.min n (n_rows dfh)
    /\ length (pm25 w) = Nat.min n (n_rows dfh)
    /\ length (aqi w) = Nat.min n (n_rows dfh)
    /\ forall i, (i < Nat.min n (n_rows dfh))%nat ->
         let row := (n_rows dfh - Nat.min n (n_rows dfh) + i)%nat in
         exists t x r s b,
           nth_error (index dfh) row = Some t
           /\ nth_error v row = Some (Some x)
           /\ nth_error (timestamps w) i = Some t
           /\ nth_error (pm25 w) i = Some (Some r)
           /\ nth_error (aqi w) i = Some (Some s)
           /\ 0 <= s <= 500
           /\ In b _PM25_BREAKS
           /\ Il b <= s <= Ih b
           /\ ((exists b', In b' _PM25_BREAKS /\ (Cl b' <= x <= Ch b')%Q) ->
               (Cl b <= x <= Ch b)%Q).
Proof.
  intros Hload Hnd Hobs Hv.
  destruct (load_dfh_hourly_series _ _ _ _ Hload Hnd Hobs) as [(_ & Hnm & _) _].
  unfold no_missing in Hnm. rewrite forallb_forall in Hnm.
  specialize (Hnm _ (get_column_In _ _ _ Hv)). cbn [snd col_length col_notna] in Hnm.
  apply andb_true_iff in Hnm. destruct Hnm as [Hlen Hnotna]. apply Nat.eqb_eq in Hlen.
  eexists. split; [apply (last_window_arrays_numeric _ _ _ _ Hv) |].
  cbn [timestamps pm25 aqi]. rewrite !length_map, !tail_length, Hlen.
  fold (n_rows dfh). do 3 (split; [reflexivity |]).
  intros i Hi. set (row := (n_rows dfh - Nat.min n (n_rows dfh) + i)%nat).
  assert (Hrow : (row < n_rows dfh)%nat) by (unfold row; lia).
  destruct (nth_error (index dfh) row) as [t |] eqn:Et;
    [| apply nth_error_None in Et; unfold n_rows in Hrow; lia].
  destruct (nth_error v row) as [o |] eqn:Ev;
    [| apply nth_error_None in Ev; lia].
  assert (Ho : notna o = true).
  { rewrite forallb_forall in Hnotna. apply Hnotna. eapply nth_error_In. exact Ev. }
  destruct o as [x |]; [| discriminate].
  destruct (pm25_to_aqi_row x) as (b & s & Hb & Heq & Hs & Hrange & Hbucket).
  exists t, x, (py_round3 x), s, b.
  split; [reflexivity |]. split; [reflexivity |].
  rewrite !nth_error_map, !nth_error_tail, Hlen.
  fold (n_rows dfh). fold row. rewrite Et, Ev. cbn [option_map]. rewrite Heq.
  cbn [fst]. do 3 (split; [reflexivity |]). split; [exact Hrange |].
  split; [exact Hb |]. split; [exact Hs | exact Hbucket].
Qed.

(** The window of three hours of the load of [example_csv]. *)
Lemma load_then_last_window_witness :
  exists w,
    last_window_arrays "PM2.5" 3 example_dfh = Ok w
    /\ length (timestamps w) = Nat.min 3 (n_rows example_dfh)
    /\ length (pm25 w) = Nat.min 3 (n_rows example_dfh)
    /\ length (aqi w) = Nat.min 3 (n_rows example_dfh)
    /\ forall i, (i < Nat.min 3 (n_rows example_dfh))%nat ->
         let row := (n_rows example_dfh - Nat.min 3 (n_rows example_dfh) + i)%nat in
         exists t x r s b,
           nth_error (index example_dfh) row = Some t
           /\ nth_error [Some (30 # 2); Some (864000000000000 # 43200000000000);
                         Some (1080000000000000 # 43200000000000); Some 30]%Q row
              = Some (Some x)
           /\ nth_error (timestamps w) i = Some t
           /\ nth_error (pm25 w) i = Some (Some r)
           /\ nth_error (aqi w) i = Some (Some s)
           /\ 0 <= s <= 500
           /\ In b _PM25_BREAKS
           /\ Il b <= s <= Ih b
           /\ ((exists b', In b' _PM25_BREAKS /\ (Cl b' <= x <= Ch b')%Q) ->
               (Cl b <= x <= Ch b)%Q).
Proof.
  apply (load_then_last_window "PM2.5" example_parser example_csv example_dfh).
  - vm_compute. reflexivity.
  - cbn. repeat constructor; cbn; intuition discriminate.
  - vm_compute. reflexivity.
  - vm_compute. reflexivity.
Defined.

(** ** Loading twice *)

(** The load of [example_csv], written out with its timestamps and loaded
    again. *)
Lemma load_dfh_twice_witness :
  load_dfh "PM2.5" example_parser
           ((index_name example_dfh, example_time_cells) :: columns example_dfh)
  = Ok example_dfh.
Proof.
  apply (load_dfh_twice "PM2.5" example_parser example_csv example_dfh example_time_cells).
  - vm_compute. reflexivity.
  - cbn. repeat constructor; cbn; intuition discriminate.
  - vm_compute. reflexivity.
  - vm_compute. reflexivity.
Defined.

(** ** The text columns (lines 47-50) *)

Lemma count_str_In s l : (0 < count_str s l)%nat <-> In s l.
Proof.
  unfold count_str. split.
  - intros H. destruct (filter (String.eqb s) l) as [| y ys] eqn:E; [cbn in H; lia |].
    assert (Hy : In y (filter (String.eqb s) l)) by (rewrite E; now left).
    apply filter_In in Hy. destruct Hy as [Hy Heq]. apply String.eqb_eq in Heq.
    now subst.
  - intros H. assert (Hs : In s (filter (String.eqb s) l))
      by (apply filter_In; split; [exact H | apply String.eqb_refl]).
    destruct (filter (String.eqb s) l); [destruct Hs | cbn; lia].
Qed.

Lemma mode_fold_spec (xs : list string) : forall l best,
  (forall b, best = Some b -> In b xs) ->
  (forall x, In x l -> In x xs) ->
  let step := fun best x =>
                match best with
                | None => Some x
                | Some b =>
                    if (count_str b xs <? count_str x xs)%nat
                       || ((count_str b xs =? count_str x xs)%nat && String.ltb x b)
                    then Some x else Some b
                end in
  match fold_left step l best with
  | Some m =>
      In m xs
      /\ (forall b, best = Some b -> (count_str b xs <= count_str m xs)%nat)
      /\ (forall x, In x l -> (count_str x xs <= count_str m xs)%nat)
  | None => best = None /\ l = []
  end.
Proof.
  induction l as [| x l IH]; intros best Hb Hl step; cbn [fold_left].
  - destruct best as [b |]; [| auto].
    split; [now apply Hb |]. split; [intros b' [= ->]; lia | intros x []].
  - assert (Hx : In x xs) by (apply Hl; now left).
    assert (Hl' : forall y, In y l -> In y xs) by (intros y Hy; apply Hl; now right).
    specialize (IH (step best x)).
    assert (Hstep : exists m, step best x = Some m /\ In m xs
                              /\ (count_str x xs <= count_str m xs)%nat
                              /\ (forall b, best = Some b ->
                                            (count_str b xs <= count_str m xs)%nat)).
    { destruct best as [b |]; cbn [step].
      - destruct ((count_str b xs <? count_str x xs)%nat
                  || ((count_str b xs =? count_str x xs)%nat && String.ltb x b)) eqn:E.
        + exists x. split; [reflexivity |]. split; [exact Hx |]. split; [lia |].
          intros b' [= <-]. apply orb_true_iff in E. destruct E as [E | E].
          * apply Nat.ltb_lt in E. lia.
          * apply andb_true_iff in E. destruct E as [E _]. apply Nat.eqb_eq in E. lia.
        + exists b. split; [reflexivity |]. split; [now apply Hb |].
          apply orb_false_iff in E. destruct E as [E _]. apply Nat.ltb_ge in E.
          split; [exact E |]. intros b' [= <-]. lia.
      - exists x. split; [reflexivity |]. split; [exact Hx |]. split; [lia |].
        intros b [=]. }
    destruct Hstep as (m0 & Hm0 & Hm0_in & Hxm0 & Hbm0).
    rewrite Hm0 in IH. specialize (IH ltac:(intros b [= <-]; exact Hm0_in) Hl').
    cbv zeta in IH. fold step in IH. rewrite Hm0.
    destruct (fold_left step l (Some m0)) as [m |]; [| destruct IH; discriminate].
    destruct IH as (Hm & Hle & Hall). specialize (Hle m0 eq_refl).
    split; [exact Hm |]. split.
    + intros b Hbest. specialize (Hbm0 b Hbest). lia.
    + intros y [<- | Hy]; [lia | now apply Hall].
Qed.

Lemma mode_first_spec v :
  match mode_first v with
  | Some m =>
      In (Some m) v
      /\ forall y, (count_str y (dropna_vals v) <= count_str m (dropna_vals v))%nat
  | None => existsb notna v = false
  end.
Proof.
  assert (Hin : forall x, In x (dropna_vals v) <-> In (Some x) v).
  { intros x. induction v as [| [y |] v IH]; cbn [dropna_vals In]; [tauto | |].
    - rewrite IH. split; intros [H | H]; auto; [left; congruence | left; congruence].
    - rewrite IH. split; [auto | intros [H | H]; [discriminate | exact H]]. }
  assert (H := mode_fold_spec (dropna_vals v) (dropna_vals v) None
                 ltac:(discriminate) ltac:(auto)).
  cbv zeta in H. unfold mode_first.
  destruct (fold_left _ (dropna_vals v) None) as [m |].
  - destruct H as (Hm & _ & Hall). split; [now apply Hin |].
    intros y. destruct (count_str y (dropna_vals v)) as [| k] eqn:E; [lia |].
    rewrite <- E. apply Hall. apply count_str_In. lia.
  - destruct H as [_ H]. now apply dropna_vals_nil.
Qed.

Lemma fillna_id {A} (x : A) v : existsb isna v = false -> fillna x v = v.
Proof.
  intros H. unfold fillna. rewrite <- (map_id v) at 2. apply map_ext_in.
  intros [y |] Hy; [reflexivity |].
  assert (existsb isna v = true) by (apply existsb_exists; now exists None).
  congruence.
Qed.

(** X19: the fill of a text column keeps every value that is there and puts
    one and the same value in every missing cell: the most frequent value
    of the column when it has a value, and ["unknown"] when it has none. *)
Theorem fill_other_text (v : list (option string)) :
  exists m,
    fill_other (ObjCol v) = ObjCol (fillna m v)
    /\ (forall i x, nth_error v i = Some (Some x) ->
                    nth_error (fillna m v) i = Some (Some x))
    /\ (forall i, nth_error v i = Some None -> nth_error (fillna m v) i = Some (Some m))
    /\ if existsb notna v
       then In (Some m) v
            /\ forall y, (count_str y (dropna_vals v) <= count_str m (dropna_vals v))%nat
       else m = "unknown"%string.
Proof.
  assert (Hspec := mode_first_spec v).
  exists (match mode_first v with Some m => m | None => "unknown"%string end).
  split.
  { cbn [fill_other]. destruct (existsb isna v) eqn:E; [reflexivity |].
    now rewrite fillna_id. }
  split; [intros i x H; unfold fillna; now rewrite nth_error_map, H |].
  split; [intros i H; unfold fillna; now rewrite nth_error_map, H |].
  destruct (mode_first v) as [m |].
  - destruct Hspec as [Hin Hmax].
    assert (Hex : existsb notna v = true) by (apply existsb_exists; now exists (Some m)).
    rewrite Hex. auto.
  - now rewrite Hspec.
Qed.

(** ** No look-ahead in the features *)

Lemma roll_names_NoDup sqrt target v :
  NoDup (map fst (roll_columns sqrt target v default_rolls)).
Proof.
  unfold roll_columns, default_rolls. cbn [flat_map app map fst].
  change (NoDup (map (String.append target)
                   [ ("_rollmean" ++ str_of_nat 3)%string; ("_rollstd" ++ str_of_nat 3)%string;
                     ("_rollmean" ++ str_of_nat 6)%string; ("_rollstd" ++ str_of_nat 6)%string;
                     ("_rollmean" ++ str_of_nat 12)%string; ("_rollstd" ++ str_of_nat 12)%string;
                     ("_rollmean" ++ str_of_nat 24)%string; ("_rollstd" ++ str_of_nat 24)%string ])).
  apply NoDup_map_append. vm_compute.
  repeat (constructor;
          [cbn [In]; intros H;
           repeat (destruct H as [H | H]; [discriminate H |]); exact H |]).
  constructor.
Qed.

Lemma lags_rolls_lag sqrt target v base L :
  In L default_lags ->
  get_column (target ++ "_lag" ++ str_of_nat L)
    (assign (roll_columns sqrt target v default_rolls)
       (assign (lag_columns target (NumCol v) default_lags) base))
  = Some (NumCol (shift L v)).
Proof.
  intros HL. rewrite get_column_assign_other.
  - apply get_column_assign_in; [apply lag_names_NoDup |].
    unfold lag_columns. apply in_map_iff. exists L. split; [reflexivity | exact HL].
  - intros p Hp. unfold roll_columns, default_rolls in Hp.
    cbn [flat_map app In] in Hp.
    repeat (destruct Hp as [<- | Hp];
            [cbn [fst]; intros H; apply append_inj_l in H;
             unfold default_lags in HL; cbn [In] in HL;
             repeat (destruct HL as [<- | HL]; [vm_compute in H; discriminate H |]);
             destruct HL |]).
    destruct Hp.
Qed.

Lemma lags_rolls_roll sqrt target v base w :
  In w default_rolls ->
  get_column (target ++ "_rollmean" ++ str_of_nat w)
    (assign (roll_columns sqrt target v default_rolls) base)
  = Some (NumCol (rolling_mean w (Nat.max 1 (w / 2)) v))
  /\ get_column (target ++ "_rollstd" ++ str_of_nat w)
       (assign (roll_columns sqrt target v default_rolls) base)
     = Some (NumCol (rolling_std sqrt w (Nat.max 1 (w / 2)) v)).
Proof.
  intros Hw. split; (apply get_column_assign_in; [apply roll_names_NoDup |]);
    unfold roll_columns; apply in_flat_map; exists w; (split; [exact Hw |]);
    [left | right; left]; reflexivity.
Qed.

Lemma add_lags_rolls_Ok sqrt f target v :
  get_column target (columns f) = Some (NumCol v) ->
  add_lags_rolls sqrt f target default_lags default_rolls
  = Ok {| index_name := index_name f; index := index f;
          columns := assign (roll_columns sqrt target v default_rolls)
                       (assign (lag_columns target (NumCol v) default_lags)
                          (columns f)) |}.
Proof.
  intros Hc. unfold add_lags_rolls.
  rewrite (add_lags_assign _ _ _ _ Hc). cbn [bind].
  rewrite (add_rolls_assign sqrt target v).
  - reflexivity.
  - now apply add_lags_target.
  - unfold default_rolls. repeat constructor; lia.
Qed.

Lemma firstn_nth_eq {A} (v v' : list A) n k d :
  firstn n v = firstn n v' -> (k < n)%nat -> nth k v d = nth k v' d.
Proof.
  intros H Hk. assert (E := nth_firstn n v k d). assert (E' := nth_firstn n v' k d).
  apply Nat.ltb_lt in Hk. rewrite Hk in E, E'. now rewrite <- E, <- E', H.
Qed.

Lemma shift_causal {A} L (v v' : list (option A)) i :
  length v = length v' -> firstn (S i) v = firstn (S i) v' ->
  nth i (shift L v) None = nth i (shift L v') None.
Proof.
  intros Hlen H. destruct (Nat.lt_ge_cases i (length v)) as [Hi | Hi].
  - rewrite !shift_nth by lia. destruct (i <? L)%nat; [reflexivity |].
    apply (firstn_nth_eq _ _ (S i)); [exact H | lia].
  - rewrite !nth_overflow by (rewrite shift_length; lia). reflexivity.
Qed.

Lemma window_causal w i v v' :
  firstn (S i) v = firstn (S i) v' -> window w i v = window w i v'.
Proof. intros H. unfold window. rewrite Nat.add_1_r. now rewrite H. Qed.

Lemma rolling_causal (g : list Q -> option Q) w (v v' : list (option Q)) i :
  length v = length v' -> firstn (S i) v = firstn (S i) v' ->
  nth i (map (fun i => g (window w i v)) (seq 0 (length v))) None
  = nth i (map (fun i => g (window w i v')) (seq 0 (length v'))) None.
Proof.
  intros Hlen H. destruct (Nat.lt_ge_cases i (length v)) as [Hi | Hi].
  - rewrite !nth_map_seq by lia. now rewrite (window_causal _ _ _ _ H).
  - rewrite !nth_overflow by (rewrite length_map, length_seq; lia). reflexivity.
Qed.

(** X20: the lag and rolling features of a row do not look ahead.  When
    two frames have target columns of the same length that agree up to and
    including row [i], every lag, rolling mean and rolling deviation that
    [add_lags_rolls] computes has the same value at row [i] in both. *)
Theorem add_lags_rolls_no_lookahead (sqrt : Q -> Q) (target : string)
        (f f' F F' : DataFrame) (v v' : list (option Q)) (i : nat) :
  get_column target (columns f) = Some (NumCol v) ->
  get_column target (columns f') = Some (NumCol v') ->
  length v = length v' ->
  firstn (S i) v = firstn (S i) v' ->
  add_lags_rolls sqrt f target default_lags default_rolls = Ok F ->
  add_lags_rolls sqrt f' target default_lags default_rolls = Ok F' ->
  (forall L, In L default_lags ->
     exists x,
       option_map (cell_at i)
         (get_column (target ++ "_lag" ++ str_of_nat L) (columns F)) = Some x
       /\ option_map (cell_at i)
            (get_column (target ++ "_lag" ++ str_of_nat L) (columns F')) = Some x)
  /\ (forall w, In w default_rolls ->
        exists m s,
          option_map (cell_at i)
            (get_column (target ++ "_rollmean" ++ str_of_nat w) (columns F)) = Some m
          /\ option_map (cell_at i)
               (get_column (target ++ "_rollmean" ++ str_of_nat w) (columns F')) = Some m
          /\ option_map (cell_at i)
               (get_column (target ++ "_rollstd" ++ str_of_nat w) (columns F)) = Some s
          /\ option_map (cell_at i)
               (get_column (target ++ "_rollstd" ++ str_of_nat w) (columns F')) = Some s).
Proof.
  intros Hv Hv' Hlen Hfirst HF HF'.
  rewrite (add_lags_rolls_Ok _ _ _ _ Hv) in HF. apply Ok_inj in HF. subst F.
  rewrite (add_lags_rolls_Ok _ _ _ _ Hv') in HF'. apply Ok_inj in HF'. subst F'.
  cbn [columns]. split.
  - intros L HL. rewrite !(lags_rolls_lag sqrt target _ _ L HL).
    cbn [option_map cell_at]. eexists. split; [reflexivity |].
    now rewrite (shift_causal L v v' i Hlen Hfirst).
  - intros w Hw.
    destruct (lags_rolls_roll sqrt target v
                (assign (lag_columns target (NumCol v) default_lags) (columns f)) w Hw)
      as [-> ->].
    destruct (lags_rolls_roll sqrt target v'
                (assign (lag_columns target (NumCol v') default_lags) (columns f')) w Hw)
      as [-> ->].
    cbn [option_map cell_at]. eexists _, _.
    split; [reflexivity |]. split; [| split; [reflexivity |]].
    + unfold rolling_mean. f_equal. f_equal. symmetry.
      apply (rolling_causal
               (fun xs => if (Nat.max 1 (w / 2) <=? length xs)%nat
                          then Some (Qmean xs) else None) w v v' i Hlen Hfirst).
    + unfold rolling_std. f_equal. f_equal. symmetry.
      apply (rolling_causal
               (fun xs => if (Nat.max 1 (w / 2) <=? length xs)%nat && (2 <=? length xs)%nat
                          then Some (sqrt (Qvar xs)) else None) w v v' i Hlen Hfirst).
Qed.

(** Two series of three hours that differ in the last hour only: the
    features of the second hour are the same. *)
Lemma add_lags_rolls_no_lookahead_witness :
  let f := ramp_series 3 in
  let f' := {| index_name := "timestamp"; index := index (ramp_series 3);
               columns := [("PM2.5"%string, NumCol [Some 100; Some 101; Some 7]%Q)] |} in
  exists F F',
    add_lags_rolls example_sqrt f "PM2.5" default_lags default_rolls = Ok F
    /\ add_lags_rolls example_sqrt f' "PM2.5" default_lags default_rolls = Ok F'
    /\ (forall L, In L default_lags ->
          exists x,
            option_map (cell_at 1)
              (get_column ("PM2.5" ++ "_lag" ++ str_of_nat L) (columns F)) = Some x
            /\ option_map (cell_at 1)
                 (get_column ("PM2.5" ++ "_lag" ++ str_of_nat L) (columns F')) = Some x)
    /\ (forall w, In w default_rolls ->
          exists m s,
            option_map (cell_at 1)
              (get_column ("PM2.5" ++ "_rollmean" ++ str_of_nat w) (columns F)) = Some m
            /\ option_map (cell_at 1)
                 (get_column ("PM2.5" ++ "_rollmean" ++ str_of_nat w) (columns F')) = Some m
            /\ option_map (cell_at 1)
                 (get_column ("PM2.5" ++ "_rollstd" ++ str_of_nat w) (columns F)) = Some s
            /\ option_map (cell_at 1)
                 (get_column ("PM2.5" ++ "_rollstd" ++ str_of_nat w) (columns F')) = Some s).
Proof.
  intros f f'.
  destruct (add_lags_rolls example_sqrt f "PM2.5" default_lags default_rolls)
    as [F | e] eqn:E; [| vm_compute in E; discriminate].
  destruct (add_lags_rolls example_sqrt f' "PM2.5" default_lags default_rolls)
    as [F' | e] eqn:E'; [| vm_compute in E'; discriminate].
  exists F, F'. split; [reflexivity |]. split; [reflexivity |].
  apply (add_lags_rolls_no_lookahead example_sqrt "PM2.5" f f' F F'
           [Some 100; Some 101; Some 102]%Q [Some 100; Some 101; Some 7]%Q 1).
  - vm_compute. reflexivity.
  - reflexivity.
  - reflexivity.
  - reflexivity.
  - exact E.
  - exact E'.
Defined.

(** ** The hourly value of a text column *)

Lemma dfh_text_column TARGET parse_datetime TIME_COL df dfh c v :
  normalize TARGET parse_datetime TIME_COL df = Ok dfh ->
  In (c, ObjCol v) (columns dfh) ->
  exists tc lo hi s_raw,
    get_column TIME_COL df = Some tc
    /\ get_column c df = Some (ObjCol s_raw)
    /\ index dfh = date_range lo hi
    /\ ObjCol v
       = fill_other
           (ObjCol
              (reindex_vals (group_keys (row_hours (sorted_rows parse_datetime tc)))
                 (date_range lo hi)
                 (map (fun k => last_valid
                                  (group k (row_hours (sorted_rows parse_datetime tc))
                                     (take (map snd (sorted_rows parse_datetime tc)) s_raw)))
                      (group_keys (row_hours (sorted_rows parse_datetime tc)))))).
Proof.
  intros Hn Hin.
  destruct (normalize_Ok _ _ _ _ _ Hn) as (tc & lo & hi & Htc & Hlo & Hhi & _ & Hdfh).
  assert (Hidx : index dfh = date_range lo hi) by (rewrite Hdfh; reflexivity).
  rewrite Hdfh in Hin. cbn [columns] in Hin.
  apply in_map_columns in Hin. destruct Hin as (c3 & Hin & E3).
  apply in_map_columns in Hin. destruct Hin as (c2 & Hin & E2).
  apply in_map_columns in Hin. destruct Hin as (c1 & Hin & E1).
  unfold groupby_agg in Hin. cbn [snd] in Hin.
  apply in_flat_map in Hin. destruct Hin as (n & Hn_in & Hin).
  rewrite get_column_map_columns in Hin.
  destruct (get_column n df) as [col_raw |] eqn:Hraw; simpl in Hin; [| tauto].
  destruct Hin as [[= -> <-] | []].
  exists tc, lo, hi.
  destruct col_raw as [v_raw | s_raw].
  - simpl in E1, E2, E3. subst c2 c3. discriminate.
  - exists s_raw. simpl in E1, E2. subst c2 c3.
    split; [exact Htc |]. split; [exact Hraw |]. split; [exact Hidx | exact E3].
Qed.

Lemma last_valid_from {A} (g : list (option A)) : forall acc,
  fold_left (fun acc o => match o with Some x => Some x | None => acc end) g acc
  = match last_valid g with Some x => Some x | None => acc end.
Proof.
  unfold last_valid. induction g as [| o g IH]; intros acc; cbn [fold_left].
  - reflexivity.
  - rewrite (IH (match o with Some x => Some x | None => acc end)).
    rewrite (IH (match o with Some x => Some x | None => None end)).
    destruct (fold_left _ g None); [reflexivity | now destruct o].
Qed.

Lemma last_valid_notna {A} (g : list (option A)) :
  existsb notna g = true -> notna (last_valid g) = true.
Proof.
  induction g as [| o g IH]; cbn [existsb]; [discriminate |].
  intros H. unfold last_valid. cbn [fold_left]. rewrite last_valid_from.
  destruct (last_valid g) as [x |] eqn:E; [reflexivity |].
  destruct o as [y |]; [reflexivity |]. cbn [notna orb] in H.
  specialize (IH H). discriminate.
Qed.

(** The last of the values that are there is one of them, and no value
    stands after it. *)
Lemma last_valid_spec {A} (g : list (option A)) x :
  last_valid g = Some x ->
  exists g1 g2, g = g1 ++ Some x :: g2 /\ existsb notna g2 = false.
Proof.
  induction g as [| o g IH] using rev_ind; [discriminate |].
  unfold last_valid. rewrite fold_left_app. cbn [fold_left].
  destruct o as [y |].
  - intros [= <-]. exists g, []. auto.
  - intros H. destruct (IH H) as (g1 & g2 & -> & Hg2).
    exists g1, (g2 ++ [None]). split; [now rewrite <- app_assoc |].
    rewrite existsb_app, Hg2. reflexivity.
Qed.

(** X21: in a loaded series the cell of a text column at an hour for which
    the table has a record with a value of that column is the value of one
    such record, and no record of that hour with a value bears a later
    timestamp; the fill does not touch it.  Between records of one and the
    same timestamp the choice is left open. *)
Theorem load_dfh_hourly_last (TARGET : string) (parse_datetime : scalar -> option Z)
        (df : csv_frame) (dfh : DataFrame) (c : string) (v : list (option string))
        (j : nat) (k : Z) (tc : column) (s_raw : list (option string))
        (i : nat) (t : Z) (x : string) :
  load_dfh TARGET parse_datetime df = Ok dfh ->
  In (c, ObjCol v) (columns dfh) ->
  nth_error (index dfh) j = Some k ->
  get_column (index_name dfh) df = Some tc ->
  get_column c df = Some (ObjCol s_raw) ->
  nth_error (to_datetime parse_datetime tc) i = Some (Some t) ->
  floor_hour t = k ->
  nth_error s_raw i = Some (Some x) ->
  exists i0 t0 x0,
    nth_error (to_datetime parse_datetime tc) i0 = Some (Some t0)
    /\ floor_hour t0 = k
    /\ nth_error s_raw i0 = Some (Some x0)
    /\ nth_error v j = Some (Some x0)
    /\ forall i' t' x',
         nth_error (to_datetime parse_datetime tc) i' = Some (Some t') ->
         floor_hour t' = k ->
         nth_error s_raw i' = Some (Some x') ->
         t' <= t0.
Proof.
  intros Hload Hin Hj Htc0 Hraw0 Ht Hk Hx.
  apply load_dfh_Ok in Hload. destruct Hload as (TC & _ & Hn).
  rewrite (normalize_index_name _ _ _ _ _ Hn) in Htc0.
  destruct (dfh_text_column _ _ _ _ _ _ _ Hn Hin)
    as (tc' & lo & hi & s_raw' & Htc & Hraw & Hidx & Hv).
  rewrite Htc0 in Htc. injection Htc as <-.
  rewrite Hraw0 in Hraw. injection Hraw as <-.
  rewrite Hidx in Hj.
  set (f := fun r : Z * nat => nth (snd r) s_raw None).
  set (fr := filter (fun r : Z * nat => floor_hour (fst r) =? k)
                    (sorted_rows parse_datetime tc)).
  assert (Hrows : hour_values parse_datetime tc k s_raw = map f fr)
    by apply hour_values_rows.
  assert (Hfr : forall t' i', In (t', i') fr
                  <-> nth_error (to_datetime parse_datetime tc) i' = Some (Some t')
                      /\ floor_hour t' = k).
  { intros t' i'. unfold fr. rewrite filter_In, sorted_rows_In. cbn [fst].
    now rewrite Z.eqb_eq. }
  assert (Hobs : existsb notna (hour_values parse_datetime tc k s_raw) = true).
  { apply existsb_exists. exists (Some x). split; [| reflexivity].
    rewrite Hrows. apply in_map_iff. exists (t, i). split.
    - unfold f. cbn [snd]. now apply nth_Some_nth_error.
    - now apply Hfr. }
  assert (Hkeys : In k (group_keys (row_hours (sorted_rows parse_datetime tc)))).
  { apply existsb_exists in Hobs. destruct Hobs as (o & Ho & _).
    apply group_keys_In. eapply group_In_key. exact Ho. }
  destruct (index_of_In _ _ Hkeys) as (n & Hn_idx & Hkn).
  assert (Hlast := last_valid_notna _ Hobs).
  destruct (last_valid (hour_values parse_datetime tc k s_raw)) as [x0 |] eqn:Hx0;
    [| discriminate].
  destruct (last_valid_spec _ _ Hx0) as (g1 & g2 & Hg & Hg2).
  rewrite Hrows in Hg.
  destruct (map_eq_app _ _ _ _ Hg) as (fr1 & fr' & Hsplit & Hg1 & Hg').
  destruct (map_eq_cons _ _ Hg') as ([t0 i0] & fr2 & -> & Hf0 & Hfr2).
  assert (Hr0 : In (t0, i0) fr) by (rewrite Hsplit; apply in_or_app; right; now left).
  apply Hfr in Hr0. destruct Hr0 as [Ht0 Hk0].
  unfold f in Hf0. cbn [snd] in Hf0. apply nth_Some_nth_error in Hf0.
  exists i0, t0, x0.
  split; [exact Ht0 |]. split; [exact Hk0 |]. split; [exact Hf0 |]. split.
  - set (r := reindex_vals _ _ _) in Hv.
    assert (Hr : nth_error r j = Some (Some x0)).
    { unfold r, reindex_vals. rewrite nth_error_map, Hj. cbn [option_map].
      rewrite Hn_idx. f_equal. apply nth_error_nth.
      rewrite nth_error_map, Hkn. cbn [option_map]. f_equal. exact Hx0. }
    cbn [fill_other] in Hv. destruct (existsb isna r).
    + injection Hv as ->. unfold fillna. now rewrite nth_error_map, Hr.
    + injection Hv as ->. exact Hr.
  - intros i' t' x' Ht' Hk' Hx'.
    assert (Hin' : In (t', i') fr) by now apply Hfr.
    assert (Hsorted : StronglySorted (fun a b : Z * nat => fst a <= fst b) fr)
      by (apply StronglySorted_filter, sort_values_sorted).
    rewrite Hsplit in Hin', Hsorted.
    apply in_app_or in Hin'. destruct Hin' as [Hin' | [Heq | Hin']].
    + apply StronglySorted_app_before in Hsorted.
      rewrite Forall_forall in Hsorted. apply (Hsorted _ Hin').
    + injection Heq as -> _. lia.
    + exfalso. assert (Hg2' : existsb notna g2 = true); [| congruence].
      apply existsb_exists. exists (Some x'). split; [| reflexivity].
      rewrite <- Hfr2. apply in_map_iff. exists (t', i'). split; [| exact Hin'].
      unfold f. cbn [snd]. now apply nth_Some_nth_error.
Qed.

(** On the load of [example_csv]: the first hour has the stations B, of
    twenty past midnight, and A, of twenty to one; the cell is A. *)
Lemma load_dfh_hourly_last_witness :
  exists i0 t0 x0,
    nth_error (to_datetime example_parser
                 (ObjCol [Some "2024-01-01 03:10:00"; Some "2024-01-01 00:20:00";
                          Some "bad"; Some "2024-01-01 00:40:00"]%string)) i0
    = Some (Some t0)
    /\ floor_hour t0 = 1704067200000000000
    /\ nth_error [Some "A"; Some "B"; None; Some "A"]%string i0 = Some (Some x0)
    /\ nth_error [Some "A"; Some "A"; Some "A"; Some "A"]%string 0 = Some (Some x0)
    /\ forall i' t' x',
         nth_error (to_datetime example_parser
                      (ObjCol [Some "2024-01-01 03:10:00"; Some "2024-01-01 00:20:00";
                               Some "bad"; Some "2024-01-01 00:40:00"]%string)) i'
         = Some (Some t') ->
         floor_hour t' = 1704067200000000000 ->
         nth_error [Some "A"; Some "B"; None; Some "A"]%string i' = Some (Some x') ->
         t' <= t0.
Proof.
  apply (load_dfh_hourly_last "PM2.5" example_parser example_csv example_dfh "station"
           _ 0 1704067200000000000 _ _ 1 1704068400000000000 "B"%string).
  - vm_compute. reflexivity.
  - vm_compute. right. left. reflexivity.
  - reflexivity.
  - reflexivity.
  - reflexivity.
  - vm_compute. reflexivity.
  - vm_compute. reflexivity.
  - reflexivity.
Defined.
